(** * The lead pipeline view model of ai-sdr

  A shallow embedding of the derived-state computations of the dashboard:
  stage inference ([src/lib/leadUtils.ts]), the funnel of the Dashboard
  view, the filter / sort / paginate pipeline of the list views, the
  analytics of the Booked Meetings view and the replied / booked toggles.

  Conventions.
  - A JavaScript string is a [string]; each character stands for one
    UTF-16 code unit below 256.
  - An integer-valued JavaScript number (a length, an index, a count, a
    comparator result) is a [nat] or a [Z]: such numbers stay far below
    2^53 here, where binary64 arithmetic on integers is exact.  A number
    that may be fractional (a percentage) is a binary64 [float].
  - A property that may hold [undefined] or [null] has type [JS.opt]. *)

From Stdlib Require Import ZArith List String Ascii Bool Lia Permutation Sorted.
From Stdlib Require Import Floats.PrimFloat Numbers.Cyclic.Int63.Uint63.
From Stdlib Require Import DecimalString.
Import ListNotations.

Open Scope string_scope.

(** ** JavaScript values and built-ins used by the views *)

Module JS.

(** The content of an optional property. *)
Inductive opt (A : Type) : Type :=
| undefined
| null
| def (a : A).

Arguments undefined {A}.
Arguments null {A}.
Arguments def {A} a.

(** [v === null || v === undefined] *)
Definition nullish {A} (v : opt A) : bool :=
  match v with
  | def _ => false
  | _ => true
  end.

(** ToBoolean on an optional boolean and on an optional string. *)
Definition truthy (v : opt bool) : bool :=
  match v with
  | def b => b
  | _ => false
  end.

Definition truthy_string (s : string) : bool := negb (s =? EmptyString).

Definition truthy_str (v : opt string) : bool :=
  match v with
  | def s => truthy_string s
  | _ => false
  end.

(** Integer-valued numbers and NaN: the results of a comparator. *)
Inductive number : Type :=
| Num (z : Z)
| NaN.

(** [v < 0]; a comparison with NaN is false. *)
Definition negative (v : number) : bool :=
  match v with
  | Num z => (z <? 0)%Z
  | NaN => false
  end.

(** An exact integer as a binary64 number. *)
Definition to_float (n : nat) : float :=
  PrimFloat.of_uint63 (Uint63.of_Z (Z.of_nat n)).

(** [String.prototype.toLowerCase] on code units below 256: the letters
    A-Z, and the Latin-1 capitals U+00C0-U+00DE except the sign U+00D7,
    move up by 32; every other code unit is kept. *)
Definition lower_unit (c : ascii) : ascii :=
  let n := nat_of_ascii c in
  if ((65 <=? n) && (n <=? 90)
      || (192 <=? n) && (n <=? 222) && negb (n =? 215))%nat
  then ascii_of_nat (n + 32)
  else c.

Fixpoint toLowerCase (s : string) : string :=
  match s with
  | EmptyString => EmptyString
  | String c s' => String (lower_unit c) (toLowerCase s')
  end.

(** [s.includes(t)]: [t] occurs in [s] as a substring. *)
Fixpoint includes (s t : string) : bool :=
  match s with
  | EmptyString => prefix t EmptyString
  | String _ s' => prefix t s || includes s' t
  end.

(** [Array.prototype.slice(start, end)], negative indices counted from
    the end of the array. *)
Definition slice {A} (start end_ : Z) (l : list A) : list A :=
  let len := Z.of_nat (List.length l) in
  let k := if (start <? 0)%Z then Z.max (len + start) 0 else Z.min start len in
  let final := if (end_ <? 0)%Z then Z.max (len + end_) 0 else Z.min end_ len in
  firstn (Z.to_nat (final - k)) (skipn (Z.to_nat k) l).

(** [Array.prototype.sort(comparefn)].  ECMAScript asks for a stable sort
    and fixes the result only for a consistent comparator; the model is
    the stable insertion sort that takes the elements from left to right
    and puts each one in front of the first element it must precede
    ([comparefn(x, y) < 0]), which is the result of every stable sort
    when the comparator is consistent.  Where the comparator is not
    consistent the order is the engine's: this is the order of an engine
    that only asks whether a later element has to move before an earlier
    one, [comparefn(later, earlier) < 0]; [SortOrder] has the contract that
    every engine meets and an engine that asks the other way round. *)
Fixpoint insert {A} (before : A -> A -> bool) (x : A) (l : list A) : list A :=
  match l with
  | [] => [x]
  | y :: l' => if before x y then x :: y :: l' else y :: insert before x l'
  end.

Definition precedes {A} (comparefn : A -> A -> number) (x y : A) : bool :=
  negative (comparefn x y).

Definition sort {A} (comparefn : A -> A -> number) (l : list A) : list A :=
  fold_left (fun acc x => insert (precedes comparefn) x acc) l [].

(** [Math.max] of a non-empty argument list of integers. *)
Definition Math_max (x : nat) (xs : list nat) : nat := fold_left Nat.max xs x.

(** [Math.ceil(a / b)] for integers [a >= 0] and [b > 0]: the binary64
    quotient of two integers below 2^53 is an integer exactly when [b]
    divides [a] and otherwise lies strictly between the two neighbouring
    integers, so its ceiling is the ceiling of the exact quotient. *)
Definition Math_ceil_div (a b : Z) : Z := (- ((- a) / b))%Z.

(** [Set<string>] with [add], [delete] and [has]; insertion order kept. *)
Definition has (s : list string) (x : string) : bool :=
  existsb (String.eqb x) s.

Definition add (s : list string) (x : string) : list string :=
  if has s x then s else s ++ [x].

Definition delete (s : list string) (x : string) : list string :=
  filter (fun y => negb (y =? x)) s.

End JS.

Import JS.

(** ** [src/lib/supabase.ts]: the lead record *)

Module Supabase.

(** The properties of [Lead] that the view model reads; the remaining
    ones (message ids, bodies, video links, JSON payloads) are never
    inspected by the modelled code. *)
Record Lead : Type := {
  id : string;
  email : string;
  fullname : opt string;
  company_name : opt string;
  job_title : opt string;
  stage : opt string;
  lead_source : opt string;
  industry : opt string;
  replied : opt bool;
  booked : opt bool;
  day_1_sent : opt bool;
  day_2_sent : opt bool;
  day_3_sent : opt bool;
  day_4_sent : opt bool;
  day_1_sent_at : opt string;
  day_2_sent_at : opt string;
  day_3_sent_at : opt string;
  day_4_sent_at : opt string;
  created_at : opt string;
  last_updated_at : opt string;
  booked_at : opt string
}.

End Supabase.

Import Supabase.

(** ** [src/lib/leadUtils.ts] *)

Module LeadUtils.

Definition getCurrentStage (lead : Lead) : string :=
  if truthy (day_4_sent lead) then "Day 4 Sent"
  else if truthy (day_3_sent lead) then "Day 3 Sent"
  else if truthy (day_2_sent lead) then "Day 2 Sent"
  else if truthy (day_1_sent lead) then "Day 1 Sent"
  else "Not Started".

Definition getNextStage (lead : Lead) : string :=
  if negb (truthy (day_1_sent lead)) then "Awaiting Day 1"
  else if negb (truthy (day_2_sent lead)) then "Awaiting Day 2"
  else if negb (truthy (day_3_sent lead)) then "Awaiting Day 3"
  else if negb (truthy (day_4_sent lead)) then "Awaiting Day 4"
  else "Sequence Complete".

End LeadUtils.

Import LeadUtils.

(** ** [src/components/views/Dashboard.tsx]: the funnel of [fetchLeadsData] *)

Module Dashboard.

Record FunnelStage : Type := {
  name : string;
  count : nat;
  percentage : float
}.

(** [(count / maxCount) * 100] *)
Definition percent (count maxCount : nat) : float :=
  PrimFloat.mul (PrimFloat.div (to_float count) (to_float maxCount)) (to_float 100).

Definition funnelStages (leadsData : list Lead) : list FunnelStage :=
  let day1Sent := List.length (filter (fun lead => truthy (day_1_sent lead)) leadsData) in
  let day2Sent := List.length (filter (fun lead => truthy (day_2_sent lead)) leadsData) in
  let day3Sent := List.length (filter (fun lead => truthy (day_3_sent lead)) leadsData) in
  let day4Sent := List.length (filter (fun lead => truthy (day_4_sent lead)) leadsData) in
  let replied := List.length (filter (fun lead => truthy (replied lead)) leadsData) in
  let booked := List.length (filter (fun lead => truthy (booked lead)) leadsData) in
  let maxCount := Math_max day1Sent [day2Sent; day3Sent; day4Sent; replied; booked; 1] in
  [ {| name := "Day 1 Sent"; count := day1Sent; percentage := percent day1Sent maxCount |};
    {| name := "Day 2 Sent"; count := day2Sent; percentage := percent day2Sent maxCount |};
    {| name := "Day 3 Sent"; count := day3Sent; percentage := percent day3Sent maxCount |};
    {| name := "Day 4 Sent"; count := day4Sent; percentage := percent day4Sent maxCount |};
    {| name := "Replied"; count := replied; percentage := percent replied maxCount |};
    {| name := "Booked"; count := booked; percentage := percent booked maxCount |} ].

End Dashboard.

(** ** The list views: filter, sort and paginate

    [ActiveCampaigns.tsx] and [AllLeads] carry the same text for
    [filteredLeads], [sortedLeads] and the pagination; [RepliesEngagement]
    has two field filters, no sort stage and pages of 20. *)

Module ListView.

(** The keys of [Lead] usable as [sortColumn], by the type of their value. *)
Inductive string_key : Type :=
| K_id | K_email | K_fullname | K_company_name | K_job_title | K_stage
| K_lead_source | K_industry | K_day_1_sent_at | K_day_2_sent_at
| K_day_3_sent_at | K_day_4_sent_at | K_created_at | K_last_updated_at
| K_booked_at.

Inductive boolean_key : Type :=
| K_replied | K_booked | K_day_1_sent | K_day_2_sent | K_day_3_sent
| K_day_4_sent.

Inductive column : Type :=
| StringColumn (k : string_key)
| BooleanColumn (k : boolean_key).

Inductive direction : Type := asc | desc.

(** [lead[key]] *)
Definition string_prop (k : string_key) (lead : Lead) : opt string :=
  match k with
  | K_id => def (id lead)
  | K_email => def (email lead)
  | K_fullname => fullname lead
  | K_company_name => company_name lead
  | K_job_title => job_title lead
  | K_stage => stage lead
  | K_lead_source => lead_source lead
  | K_industry => industry lead
  | K_day_1_sent_at => day_1_sent_at lead
  | K_day_2_sent_at => day_2_sent_at lead
  | K_day_3_sent_at => day_3_sent_at lead
  | K_day_4_sent_at => day_4_sent_at lead
  | K_created_at => created_at lead
  | K_last_updated_at => last_updated_at lead
  | K_booked_at => booked_at lead
  end.

Definition boolean_prop (k : boolean_key) (lead : Lead) : opt bool :=
  match k with
  | K_replied => replied lead
  | K_booked => booked lead
  | K_day_1_sent => day_1_sent lead
  | K_day_2_sent => day_2_sent lead
  | K_day_3_sent => day_3_sent lead
  | K_day_4_sent => day_4_sent lead
  end.

(** [a < b] on two strings compares code units; on two booleans it
    compares 0 and 1. *)
Definition boolean_lt (a b : bool) : bool := negb a && b.

Record Filters : Type := {
  f_stage : string;
  f_lead_source : string;
  f_industry : string
}.

(** The filters as the view starts and as [clearFilters] leaves them:
    [{ stage: '', lead_source: '', industry: '' }]. *)
Definition no_filters : Filters :=
  {| f_stage := EmptyString; f_lead_source := EmptyString;
     f_industry := EmptyString |}.

(** [lead.fullname?.toLowerCase().includes(searchTerm.toLowerCase())] as a
    condition: [undefined], hence false, when the property is missing. *)
Definition field_includes (v : opt string) (searchTerm : string) : bool :=
  match v with
  | def s => includes (toLowerCase s) (toLowerCase searchTerm)
  | _ => false
  end.

(** [lead.stage === filters.stage] *)
Definition strict_eq (v : opt string) (s : string) : bool :=
  match v with
  | def s' => s' =? s
  | _ => false
  end.

Definition searchMatch (searchTerm : string) (lead : Lead) : bool :=
  negb (truthy_string searchTerm)
  || field_includes (fullname lead) searchTerm
  || field_includes (def (email lead)) searchTerm
  || field_includes (company_name lead) searchTerm.

Definition filteredLeads (leads : list Lead) (searchTerm : string)
    (filters : Filters) : list Lead :=
  filter (fun lead =>
    let stageMatch :=
      negb (truthy_string (f_stage filters)) || strict_eq (stage lead) (f_stage filters) in
    let sourceMatch :=
      negb (truthy_string (f_lead_source filters))
      || strict_eq (lead_source lead) (f_lead_source filters) in
    let industryMatch :=
      negb (truthy_string (f_industry filters))
      || strict_eq (industry lead) (f_industry filters) in
    searchMatch searchTerm lead && stageMatch && sourceMatch && industryMatch) leads.

(** The body of the comparator, once [aValue] and [bValue] are read. *)
Definition compareValues {A} (lt : A -> A -> bool) (sortDirection : direction)
    (aValue bValue : opt A) : number :=
  match aValue with
  | undefined | null => Num 1
  | def av =>
      match bValue with
      | undefined | null => Num (-1)
      | def bv =>
          let comparison := 0%Z in
          let comparison := if lt av bv then (-1)%Z else comparison in
          let comparison := if lt bv av then 1%Z else comparison in
          Num (match sortDirection with
               | desc => (- comparison)%Z
               | asc => comparison
               end)
      end
  end.

Definition comparefn (sortColumn : column) (sortDirection : direction)
    (a b : Lead) : number :=
  match sortColumn with
  | StringColumn k =>
      compareValues String.ltb sortDirection (string_prop k a) (string_prop k b)
  | BooleanColumn k =>
      compareValues boolean_lt sortDirection (boolean_prop k a) (boolean_prop k b)
  end.

Definition sortedLeads (filteredLeads : list Lead) (sortColumn : column)
    (sortDirection : direction) : list Lead :=
  sort (comparefn sortColumn sortDirection) filteredLeads.

(** Whether [lead[sortColumn]] is [null] or [undefined]. *)
Definition missing (sortColumn : column) (lead : Lead) : bool :=
  match sortColumn with
  | StringColumn k => nullish (string_prop k lead)
  | BooleanColumn k => nullish (boolean_prop k lead)
  end.

Definition totalPages (sortedLeads : list Lead) (leadsPerPage : nat) : Z :=
  Math_ceil_div (Z.of_nat (List.length sortedLeads)) (Z.of_nat leadsPerPage).

Definition currentLeads (sortedLeads : list Lead) (currentPage : Z)
    (leadsPerPage : nat) : list Lead :=
  let indexOfLastLead := (currentPage * Z.of_nat leadsPerPage)%Z in
  let indexOfFirstLead := (indexOfLastLead - Z.of_nat leadsPerPage)%Z in
  slice indexOfFirstLead indexOfLastLead sortedLeads.

(** search -> field filters -> sort -> paginate, as the view renders it. *)
Definition page (leads : list Lead) (searchTerm : string) (filters : Filters)
    (sortColumn : column) (sortDirection : direction) (currentPage : Z)
    (leadsPerPage : nat) : list Lead :=
  currentLeads
    (sortedLeads (filteredLeads leads searchTerm filters) sortColumn sortDirection)
    currentPage leadsPerPage.

End ListView.

Module ActiveCampaigns.

Definition leadsPerPage : nat := 25.

End ActiveCampaigns.

Module RepliesEngagement.

Definition leadsPerPage : nat := 20.

Record Filters : Type := {
  f_lead_source : string;
  f_industry : string
}.

(** [{ lead_source: '', industry: '' }] *)
Definition no_filters : Filters :=
  {| f_lead_source := EmptyString; f_industry := EmptyString |}.

Definition filteredLeads (leads : list Lead) (searchTerm : string)
    (filters : Filters) : list Lead :=
  filter (fun lead =>
    let sourceMatch :=
      negb (truthy_string (f_lead_source filters))
      || ListView.strict_eq (lead_source lead) (f_lead_source filters) in
    let industryMatch :=
      negb (truthy_string (f_industry filters))
      || ListView.strict_eq (industry lead) (f_industry filters) in
    ListView.searchMatch searchTerm lead && sourceMatch && industryMatch) leads.

(** The page is cut from [filteredLeads]: this view has no sort stage. *)
Definition page (leads : list Lead) (searchTerm : string) (filters : Filters)
    (currentPage : Z) : list Lead :=
  ListView.currentLeads (filteredLeads leads searchTerm filters) currentPage leadsPerPage.

End RepliesEngagement.

(** ** [BookedMeetings]: the analytics of the booked leads *)

Module BookedMeetings.

(** What [acc[key]] can hold.  The accumulator starts as [{}], whose
    prototype is [Object.prototype]: a key naming an inherited member is
    found there before any count is stored.  Adding 1 to a function or to
    an object concatenates: the text is the string conversion of that
    object followed by as many "1" as increments were made. *)
Inductive origin : Type :=
| NativeFunction (fname : string)   (* "function fname() { [native code] }" *)
| PlainObject.                      (* "[object Object]" *)

Inductive tally : Type :=
| Count (n : nat)
| Text (o : origin) (ones : nat).

(** The own properties of the accumulator, in creation order. *)
Definition object : Type := list (string * tally).

(** The function-valued members of [Object.prototype] with the name of
    the function each one holds. *)
Definition inherited_functions : list (string * string) :=
  [ ("constructor", "Object");
    ("hasOwnProperty", "hasOwnProperty");
    ("isPrototypeOf", "isPrototypeOf");
    ("propertyIsEnumerable", "propertyIsEnumerable");
    ("toLocaleString", "toLocaleString");
    ("toString", "toString");
    ("valueOf", "valueOf");
    ("__defineGetter__", "__defineGetter__");
    ("__defineSetter__", "__defineSetter__");
    ("__lookupGetter__", "__lookupGetter__");
    ("__lookupSetter__", "__lookupSetter__") ].

Fixpoint assoc {B} (key : string) (l : list (string * B)) : option B :=
  match l with
  | [] => None
  | (k, v) :: l' => if k =? key then Some v else assoc key l'
  end.

Inductive found : Type :=
| Missing                       (* undefined *)
| Own (t : tally)
| Inherited (fname : string)    (* a function of Object.prototype *)
| Prototype.                    (* the getter of __proto__: Object.prototype *)

(** [acc[key]] as a read. *)
Definition get (acc : object) (key : string) : found :=
  match assoc key acc with
  | Some t => Own t
  | None =>
      if key =? "__proto__" then Prototype
      else match assoc key inherited_functions with
           | Some fname => Inherited fname
           | None => Missing
           end
  end.

(** [(acc[key] || 0) + 1]: every stored tally is truthy. *)
Definition plus_one (v : found) : tally :=
  match v with
  | Missing => Count 1
  | Own (Count n) => Count (n + 1)
  | Own (Text o ones) => Text o (ones + 1)
  | Inherited fname => Text (NativeFunction fname) 1
  | Prototype => Text PlainObject 1
  end.

Fixpoint put (key : string) (t : tally) (acc : object) : object :=
  match acc with
  | [] => [(key, t)]
  | (k, v) :: acc' => if k =? key then (k, t) :: acc' else (k, v) :: put key t acc'
  end.

(** [acc[key] = t]: the setter of [__proto__] ignores a value that is
    neither an object nor [null]; any other key becomes an own property. *)
Definition set (acc : object) (key : string) (t : tally) : object :=
  if key =? "__proto__" then acc else put key t acc.

(** [lead.industry || 'Unknown'] *)
Definition group_key (v : opt string) : string :=
  if truthy_str v then match v with def s => s | _ => "Unknown" end else "Unknown".

Definition stats_of (field : Lead -> opt string) (leads : list Lead) : object :=
  fold_left (fun acc lead =>
               let key := group_key (field lead) in
               set acc key (plus_one (get acc key)))
            leads [].

(** The keys that are array indices: the canonical decimal numerals of the
    integers from 0 to 2^32 - 2. *)
Definition digit (c : ascii) : option N :=
  let n := N_of_ascii c in
  if ((48 <=? n) && (n <=? 57))%N then Some (n - 48)%N else None.

Fixpoint numeral (s : string) (acc : N) : option N :=
  match s with
  | EmptyString => Some acc
  | String c s' =>
      match digit c with
      | Some d => numeral s' (acc * 10 + d)%N
      | None => None
      end
  end.

Definition array_index (key : string) : option N :=
  match key with
  | EmptyString => None
  | String c rest =>
      if (c =? "0")%char && negb (rest =? EmptyString) then None
      else match numeral key 0 with
           | Some n => if (n <=? 4294967294)%N then Some n else None
           | None => None
           end
  end.

Definition is_index (p : string * tally) : bool :=
  match array_index (fst p) with
  | Some _ => true
  | None => false
  end.

Definition index_order (p q : string * tally) : number :=
  match array_index (fst p), array_index (fst q) with
  | Some i, Some j => Num (Z.of_N i - Z.of_N j)
  | _, _ => Num 0
  end.

(** [Object.entries(acc)]: the array-index keys in ascending numeric order,
    then the other keys in creation order. *)
Definition entries (acc : object) : list (string * tally) :=
  sort index_order (filter is_index acc) ++ filter (fun p => negb (is_index p)) acc.

Record Stat : Type := {
  name : string;
  count : tally;
  percentage : float
}.

(** ToNumber: the text of a function or of an object is no numeral. *)
Definition toNumber (t : tally) : float :=
  match t with
  | Count n => to_float n
  | Text _ _ => nan
  end.

(** [b.count - a.count] *)
Definition by_count (a b : Stat) : number :=
  match count b, count a with
  | Count m, Count n => Num (Z.of_nat m - Z.of_nat n)
  | _, _ => NaN
  end.

(** [(count / leads.length) * 100] *)
Definition percent (count : tally) (length : nat) : float :=
  PrimFloat.mul (PrimFloat.div (toNumber count) (to_float length)) (to_float 100).

Definition data_of (field : Lead -> opt string) (leads : list Lead) : list Stat :=
  sort by_count
    (map (fun '(name, count) =>
            {| name := name; count := count;
               percentage := percent count (List.length leads) |})
         (entries (stats_of field leads))).

Definition industryStats (leads : list Lead) : object := stats_of industry leads.

Definition sourceStats (leads : list Lead) : object := stats_of lead_source leads.

Definition industryData (leads : list Lead) : list Stat := data_of industry leads.

Definition sourceData (leads : list Lead) : list Stat := data_of lead_source leads.

(** [{ industryData, sourceData }] *)
Definition analytics (leads : list Lead) : list Stat * list Stat :=
  (industryData leads, sourceData leads).

End BookedMeetings.

(** ** The replied / booked toggles of the filtered views

    [updateLeadStatus] has the same text in [ActiveCampaigns] and in
    [RepliesEngagement]; [updateBookedStatus] belongs to [BookedMeetings]. *)

Module Toggle.

Inductive field : Type := replied_field | booked_field.

Definition field_name (f : field) : string :=
  match f with
  | replied_field => "replied"
  | booked_field => "booked"
  end.

(** The object handed to [.update(...)]; [undefined] is an absent key and
    [null] is sent as such. *)
Record UpdateData : Type := {
  u_replied : opt bool;
  u_booked : opt bool;
  u_booked_at : opt string;
  u_last_updated_at : opt string
}.

(** The calls a view can issue to the repository. *)
Inductive request : Type :=
| Select
| Update (leadId : string) (updateData : UpdateData).

(** What a rejected call throws. *)
Record Thrown : Type := {
  instanceofError : bool;
  message : string
}.

(** The state of a view ([leads], [error], [updatingLeads]) together with
    what the handler does to its surroundings: the clock readings taken so
    far and the requests sent so far, oldest first. *)
Record State : Type := {
  leads : list Lead;
  error : option string;
  updatingLeads : list string;
  clock_reads : nat;
  requests : list request
}.

(** A computation that may throw.  The [console.error] of the handlers
    writes to the console only and is left out. *)
Definition M (A : Type) : Type := State -> (A + Thrown) * State.

Definition ret {A} (a : A) : M A := fun s => (inl a, s).

Definition throw {A} (e : Thrown) : M A := fun s => (inr e, s).

Definition bind {A B} (m : M A) (k : A -> M B) : M B :=
  fun s =>
    match m s with
    | (inl a, s') => k a s'
    | (inr e, s') => (inr e, s')
    end.

Notation "x <- m ;; k" := (bind m (fun x => k))
  (at level 61, m at next level, right associativity).
Notation "m ;; k" := (bind m (fun _ => k))
  (at level 61, right associativity).

(** [try { body } catch (err) { handler } finally { cleanup }] *)
Definition try_catch_finally (body : M unit) (handler : Thrown -> M unit)
    (cleanup : M unit) : M unit :=
  fun s =>
    match body s with
    | (inl tt, s') => cleanup s'
    | (inr e, s') => (handler e ;; cleanup) s'
    end.

Definition setLeads (f : list Lead -> list Lead) : M unit :=
  fun s => (inl tt,
            {| leads := f (leads s); error := error s;
               updatingLeads := updatingLeads s;
               clock_reads := clock_reads s; requests := requests s |}).

Definition setError (e : option string) : M unit :=
  fun s => (inl tt,
            {| leads := leads s; error := e;
               updatingLeads := updatingLeads s;
               clock_reads := clock_reads s; requests := requests s |}).

Definition setUpdatingLeads (f : list string -> list string) : M unit :=
  fun s => (inl tt,
            {| leads := leads s; error := error s;
               updatingLeads := f (updatingLeads s);
               clock_reads := clock_reads s; requests := requests s |}).

Section Handlers.

(** The surroundings: the [n]-th reading of the clock, in ISO form, and the
    repository's answer to an update ([None]: no error). *)
Variable now : nat -> string.
Variable respond : string -> UpdateData -> option Thrown.

(** [new Date().toISOString()] *)
Definition newDateISOString : M string :=
  fun s => (inl (now (clock_reads s)),
            {| leads := leads s; error := error s;
               updatingLeads := updatingLeads s;
               clock_reads := S (clock_reads s); requests := requests s |}).

(** [await supabase.from('leads_pipeline').update(updateData).eq('id', leadId)] *)
Definition supabase_update (leadId : string) (updateData : UpdateData)
    : M (option Thrown) :=
  fun s => (inl (respond leadId updateData),
            {| leads := leads s; error := error s;
               updatingLeads := updatingLeads s;
               clock_reads := clock_reads s;
               requests := requests s ++ [Update leadId updateData] |}).

Definition updateLeadStatus (leadId : string) (fld : field) (value : bool) : M unit :=
  try_catch_finally
    (setUpdatingLeads (fun prev => add prev leadId) ;;
     t <- newDateISOString ;;
     let updateData :=
       match fld with
       | replied_field =>
           {| u_replied := def value; u_booked := undefined;
              u_booked_at := undefined; u_last_updated_at := def t |}
       | booked_field =>
           {| u_replied := undefined; u_booked := def value;
              u_booked_at := undefined; u_last_updated_at := def t |}
       end in
     updateData <-
       (match fld with
        | booked_field =>
            if value then
              t' <- newDateISOString ;;
              ret {| u_replied := u_replied updateData;
                     u_booked := u_booked updateData;
                     u_booked_at := def t';
                     u_last_updated_at := u_last_updated_at updateData |}
            else ret updateData
        | replied_field => ret updateData
        end) ;;
     updateError <- supabase_update leadId updateData ;;
     match updateError with
     | Some e => throw e
     | None => ret tt
     end ;;
     setLeads (fun prevLeads => filter (fun lead => negb (id lead =? leadId)) prevLeads))
    (fun err =>
       setError (Some (if instanceofError err then message err
                       else "Failed to update " ++ field_name fld)))
    (setUpdatingLeads (fun prev => delete prev leadId)).

Definition updateBookedStatus (leadId : string) : M unit :=
  try_catch_finally
    (setUpdatingLeads (fun prev => add prev leadId) ;;
     t <- newDateISOString ;;
     let updateData :=
       {| u_replied := undefined; u_booked := def false;
          u_booked_at := null; u_last_updated_at := def t |} in
     updateError <- supabase_update leadId updateData ;;
     match updateError with
     | Some e => throw e
     | None => ret tt
     end ;;
     setLeads (fun prevLeads => filter (fun lead => negb (id lead =? leadId)) prevLeads))
    (fun err =>
       setError (Some (if instanceofError err then message err
                       else "Failed to update booked status")))
    (setUpdatingLeads (fun prev => delete prev leadId)).

(** The toggles the views offer, each with the call its button makes. *)
Inductive toggle : Type :=
| ActiveCampaigns_replied     (* updateLeadStatus(lead.id, 'replied', true) *)
| ActiveCampaigns_booked      (* updateLeadStatus(lead.id, 'booked', true) *)
| Replies_not_replied         (* updateLeadStatus(lead.id, 'replied', false) *)
| Replies_booked              (* updateLeadStatus(lead.id, 'booked', true) *)
| BookedMeetings_not_booked.  (* updateBookedStatus(lead.id) *)

Definition onClick (t : toggle) (leadId : string) : M unit :=
  match t with
  | ActiveCampaigns_replied => updateLeadStatus leadId replied_field true
  | ActiveCampaigns_booked => updateLeadStatus leadId booked_field true
  | Replies_not_replied => updateLeadStatus leadId replied_field false
  | Replies_booked => updateLeadStatus leadId booked_field true
  | BookedMeetings_not_booked => updateBookedStatus leadId
  end.

(** The state in which a handler leaves the view. *)
Definition after (m : M unit) (s : State) : State := snd (m s).

End Handlers.

End Toggle.

(** ** More built-ins, for the rest of the views *)

Module Builtins.

(** White space of [String.prototype.trim] among the code units below 256:
    tab, line feed, vertical tab, form feed, carriage return, space and the
    no-break space. *)
Definition white (c : ascii) : bool :=
  let n := nat_of_ascii c in
  ((9 <=? n) && (n <=? 13) || (n =? 32) || (n =? 160))%nat.

Fixpoint trimStart (s : string) : string :=
  match s with
  | EmptyString => EmptyString
  | String c s' => if white c then trimStart s' else s
  end.

(** The string without its trailing white space. *)
Fixpoint trimEnd (s : string) : string :=
  match s with
  | EmptyString => EmptyString
  | String c s' =>
      match trimEnd s' with
      | EmptyString => if white c then EmptyString else String c EmptyString
      | rest => String c rest
      end
  end.

Definition trim (s : string) : string := trimEnd (trimStart s).

(** [[...new Set(xs)]]: the distinct strings in order of first occurrence. *)
Fixpoint distinct (seen xs : list string) : list string :=
  match xs with
  | [] => []
  | x :: xs' =>
      if has seen x then distinct seen xs' else x :: distinct (seen ++ [x]) xs'
  end.

Definition unique (xs : list string) : list string := distinct [] xs.

(** The comparison of [sort()] without a comparator, on strings. *)
Definition default_compare (x y : string) : number :=
  if String.ltb x y then Num (-1)
  else if String.ltb y x then Num 1
  else Num 0.

Definition sort_default (xs : list string) : list string := sort default_compare xs.

(** [.filter(Boolean)] on optional strings: the non-empty strings. *)
Fixpoint truthy_strings (vs : list (opt string)) : list string :=
  match vs with
  | [] => []
  | def s :: vs' => if truthy_string s then s :: truthy_strings vs' else truthy_strings vs'
  | _ :: vs' => truthy_strings vs'
  end.

(** The decimal digits of a non-negative integer: what a template literal
    shows for a safe integer, such as a status code. *)
Definition decimal (n : nat) : string := NilZero.string_of_uint (Nat.to_uint n).

(** [Number.MAX_SAFE_INTEGER], 2^53 - 1. *)
Definition MAX_SAFE_INTEGER : Z := 9007199254740991.

(** The decimal digits of an integer, after its sign: what
    Number-to-string gives for a safe integer. *)
Definition decimalZ (z : Z) : string := NilZero.string_of_int (Z.to_int z).

(** An integer, of either sign, as a binary64 number, bit by bit from the
    most significant one: exact whenever the integer is a binary64 number,
    as every integer-valued JavaScript number is. *)
Fixpoint float_of_positive (p : positive) : float :=
  match p with
  | xH => 1%float
  | xO q => PrimFloat.mul 2%float (float_of_positive q)
  | xI q => PrimFloat.add (PrimFloat.mul 2%float (float_of_positive q)) 1%float
  end.

Definition float_of_Z (z : Z) : float :=
  match z with
  | Z0 => 0%float
  | Zpos p => float_of_positive p
  | Zneg p => PrimFloat.opp (float_of_positive p)
  end.

End Builtins.

Import Builtins.

(** ** Handlers: state, exceptions, [try] / [catch] / [finally] *)

Module Effect.

(** A computation over a state [S] that may throw. *)
Definition M (S A : Type) : Type := S -> (A + Toggle.Thrown) * S.

Definition ret {S A} (a : A) : M S A := fun s => (inl a, s).

Definition throw {S A} (e : Toggle.Thrown) : M S A := fun s => (inr e, s).

Definition bind {S A B} (m : M S A) (k : A -> M S B) : M S B :=
  fun s =>
    match m s with
    | (inl a, s') => k a s'
    | (inr e, s') => (inr e, s')
    end.

(** [setX(f)]: a state update. *)
Definition modify {S} (f : S -> S) : M S unit := fun s => (inl tt, f s).

Definition read {S A} (f : S -> A) : M S A := fun s => (inl (f s), s).

Definition try_catch_finally {S} (body : M S unit)
    (handler : Toggle.Thrown -> M S unit) (cleanup : M S unit) : M S unit :=
  fun s =>
    match body s with
    | (inl tt, s') => cleanup s'
    | (inr e, s') => bind (handler e) (fun _ => cleanup) s'
    end.

(** The state a handler leaves, whether it returned or threw. *)
Definition after {S A} (m : M S A) (s : S) : S := snd (m s).

(** [new Error(message)] *)
Definition Error (message : string) : Toggle.Thrown :=
  {| Toggle.instanceofError := true; Toggle.message := message |}.

(** [err instanceof Error ? err.message : fallback] *)
Definition message_or (err : Toggle.Thrown) (fallback : string) : string :=
  if Toggle.instanceofError err then Toggle.message err else fallback.

Declare Scope effect_scope.
Delimit Scope effect_scope with effect.

Notation "x <- m ;; k" := (bind m (fun x => k))
  (at level 61, m at next level, right associativity) : effect_scope.
Notation "m ;; k" := (bind m (fun _ => k))
  (at level 61, right associativity) : effect_scope.

End Effect.

(** ** [Dashboard.tsx]: metrics, recent activity and [fetchLeadsData] *)

Module DashboardView.

Import Effect.
Local Open Scope effect_scope.

Record Metrics : Type := {
  totalLeads : nat;
  totalEmailsSent : nat;
  repliesReceived : nat;
  meetingsBooked : nat
}.

(** The callback of the [reduce] that counts the emails. *)
Definition add_emails (count : nat) (lead : Lead) : nat :=
  let emailCount := 0 in
  let emailCount := if truthy_str (day_1_sent_at lead) then emailCount + 1 else emailCount in
  let emailCount := if truthy_str (day_2_sent_at lead) then emailCount + 1 else emailCount in
  let emailCount := if truthy_str (day_3_sent_at lead) then emailCount + 1 else emailCount in
  let emailCount := if truthy_str (day_4_sent_at lead) then emailCount + 1 else emailCount in
  count + emailCount.

Definition metrics_of (leadsData : list Lead) : Metrics :=
  {| totalLeads := List.length leadsData;
     totalEmailsSent := fold_left add_emails leadsData 0;
     repliesReceived := List.length (filter (fun lead => truthy (replied lead)) leadsData);
     meetingsBooked := List.length (filter (fun lead => truthy (booked lead)) leadsData) |}.

(** [leadsData.slice(0, 10)] *)
Definition recentActivity_of (leadsData : list Lead) : list Lead :=
  slice 0 10 leadsData.

Definition getActivityAction (lead : Lead) : string :=
  if truthy (booked lead) then "Booked Meeting"
  else if truthy (replied lead) then "Replied"
  else if truthy (day_4_sent lead) then "Day 4 Email Sent"
  else if truthy (day_3_sent lead) then "Day 3 Email Sent"
  else if truthy (day_2_sent lead) then "Day 2 Email Sent"
  else if truthy (day_1_sent lead) then "Day 1 Email Sent"
  else "Imported".

(** The state of the Dashboard. *)
Record State : Type := {
  leads : list Lead;
  metrics : Metrics;
  funnelStages : list Dashboard.FunnelStage;
  recentActivity : list Lead;
  loading : bool;
  error : option string
}.

(** The state at mount: [useState] initial values. *)
Definition initial : State :=
  {| leads := [];
     metrics := {| totalLeads := 0; totalEmailsSent := 0;
                   repliesReceived := 0; meetingsBooked := 0 |};
     funnelStages := [];
     recentActivity := [];
     loading := true;
     error := None |}.

Definition setLeads (v : list Lead) : M State unit :=
  modify (fun s => {| leads := v; metrics := metrics s;
                      funnelStages := funnelStages s;
                      recentActivity := recentActivity s;
                      loading := loading s; error := error s |}).

Definition setMetrics (v : Metrics) : M State unit :=
  modify (fun s => {| leads := leads s; metrics := v;
                      funnelStages := funnelStages s;
                      recentActivity := recentActivity s;
                      loading := loading s; error := error s |}).

Definition setFunnelStages (v : list Dashboard.FunnelStage) : M State unit :=
  modify (fun s => {| leads := leads s; metrics := metrics s;
                      funnelStages := v;
                      recentActivity := recentActivity s;
                      loading := loading s; error := error s |}).

Definition setRecentActivity (v : list Lead) : M State unit :=
  modify (fun s => {| leads := leads s; metrics := metrics s;
                      funnelStages := funnelStages s;
                      recentActivity := v;
                      loading := loading s; error := error s |}).

Definition setLoading (v : bool) : M State unit :=
  modify (fun s => {| leads := leads s; metrics := metrics s;
                      funnelStages := funnelStages s;
                      recentActivity := recentActivity s;
                      loading := v; error := error s |}).

Definition setError (v : option string) : M State unit :=
  modify (fun s => {| leads := leads s; metrics := metrics s;
                      funnelStages := funnelStages s;
                      recentActivity := recentActivity s;
                      loading := loading s; error := v |}).

(** What the query resolves to: [{ data, error }], [data] possibly [null]. *)
Record Response : Type := {
  data : option (list Lead);
  fetchError : option Toggle.Thrown
}.

Definition fetchLeadsData (response : Response) : M State unit :=
  try_catch_finally
    (setLoading true ;;
     setError None ;;
     match fetchError response with
     | Some e => throw e
     | None => ret tt
     end ;;
     let leadsData := match data response with Some d => d | None => [] end in
     setLeads leadsData ;;
     setMetrics (metrics_of leadsData) ;;
     setFunnelStages (Dashboard.funnelStages leadsData) ;;
     setRecentActivity (recentActivity_of leadsData))
    (fun err => setError (Some (message_or err "Failed to fetch data")))
    (setLoading false).

End DashboardView.

(** ** The controls of the list views: sort headers, filters, search box,
    pagination buttons and the filter options *)

Module ListControls.

Import ListView.

(** What the user has set in a list view. *)
Record Controls : Type := {
  searchTerm : string;
  filters : Filters;
  sortColumn : column;
  sortDirection : direction;
  currentPage : Z
}.

(** The controls at mount in [ActiveCampaigns] and [AllLeads]. *)
Definition initial : Controls :=
  {| searchTerm := EmptyString;
     filters := no_filters;
     sortColumn := StringColumn K_last_updated_at;
     sortDirection := desc;
     currentPage := 1 |}.

Definition string_key_eqb (a b : string_key) : bool :=
  match a, b with
  | K_id, K_id | K_email, K_email | K_fullname, K_fullname
  | K_company_name, K_company_name | K_job_title, K_job_title
  | K_stage, K_stage | K_lead_source, K_lead_source
  | K_industry, K_industry | K_day_1_sent_at, K_day_1_sent_at
  | K_day_2_sent_at, K_day_2_sent_at | K_day_3_sent_at, K_day_3_sent_at
  | K_day_4_sent_at, K_day_4_sent_at | K_created_at, K_created_at
  | K_last_updated_at, K_last_updated_at | K_booked_at, K_booked_at => true
  | _, _ => false
  end.

Definition boolean_key_eqb (a b : boolean_key) : bool :=
  match a, b with
  | K_replied, K_replied | K_booked, K_booked | K_day_1_sent, K_day_1_sent
  | K_day_2_sent, K_day_2_sent | K_day_3_sent, K_day_3_sent
  | K_day_4_sent, K_day_4_sent => true
  | _, _ => false
  end.

(** [sortColumn === column] *)
Definition column_eqb (a b : column) : bool :=
  match a, b with
  | StringColumn k, StringColumn k' => string_key_eqb k k'
  | BooleanColumn k, BooleanColumn k' => boolean_key_eqb k k'
  | _, _ => false
  end.

Definition handleSort (column : column) (c : Controls) : Controls :=
  if column_eqb (sortColumn c) column then
    {| searchTerm := searchTerm c; filters := filters c;
       sortColumn := sortColumn c;
       sortDirection := match sortDirection c with asc => desc | desc => asc end;
       currentPage := currentPage c |}
  else
    {| searchTerm := searchTerm c; filters := filters c;
       sortColumn := column;
       sortDirection := asc;
       currentPage := currentPage c |}.

Inductive filterType : Type := stage_filter | lead_source_filter | industry_filter.

(** [{ ...prev, [filterType]: value }] *)
Definition with_filter (prev : Filters) (t : filterType) (value : string) : Filters :=
  match t with
  | stage_filter =>
      {| f_stage := value; f_lead_source := f_lead_source prev;
         f_industry := f_industry prev |}
  | lead_source_filter =>
      {| f_stage := f_stage prev; f_lead_source := value;
         f_industry := f_industry prev |}
  | industry_filter =>
      {| f_stage := f_stage prev; f_lead_source := f_lead_source prev;
         f_industry := value |}
  end.

Definition handleFilterChange (t : filterType) (value : string) (c : Controls)
    : Controls :=
  {| searchTerm := searchTerm c; filters := with_filter (filters c) t value;
     sortColumn := sortColumn c; sortDirection := sortDirection c;
     currentPage := 1 |}.

Definition clearFilters (c : Controls) : Controls :=
  {| searchTerm := EmptyString; filters := no_filters;
     sortColumn := sortColumn c; sortDirection := sortDirection c;
     currentPage := 1 |}.

(** The [onChange] of the search box. *)
Definition onSearchChange (value : string) (c : Controls) : Controls :=
  {| searchTerm := value; filters := filters c;
     sortColumn := sortColumn c; sortDirection := sortDirection c;
     currentPage := 1 |}.

Definition setCurrentPage (p : Z) (c : Controls) : Controls :=
  {| searchTerm := searchTerm c; filters := filters c;
     sortColumn := sortColumn c; sortDirection := sortDirection c;
     currentPage := p |}.

(** The list the view shows for a collection and the controls. *)
Definition shown (leads : list Lead) (c : Controls) (leadsPerPage : nat) : list Lead :=
  page leads (searchTerm c) (filters c) (sortColumn c) (sortDirection c)
    (currentPage c) leadsPerPage.

(** [totalPages] as the view computes it from the controls. *)
Definition pages (leads : list Lead) (c : Controls) (leadsPerPage : nat) : Z :=
  totalPages
    (sortedLeads (filteredLeads leads (searchTerm c) (filters c))
       (sortColumn c) (sortDirection c))
    leadsPerPage.

(** The buttons "previous" and "next":
    [setCurrentPage(Math.max(1, currentPage - 1))] and
    [setCurrentPage(Math.min(totalPages, currentPage + 1))]. *)
Definition previousPage (currentPage : Z) : Z := Z.max 1 (currentPage - 1).

Definition nextPage (totalPages currentPage : Z) : Z :=
  Z.min totalPages (currentPage + 1).

(** The page buttons of [ActiveCampaigns], [BookedMeetings] and
    [RepliesEngagement]: up to three, [None] where the callback returns
    [null]. *)
Definition pageButtons (totalPages currentPage : Z) : list (option Z) :=
  map (fun i =>
         let pageNum :=
           (Z.max 1 (Z.min (totalPages - 2) (currentPage - 1)) + Z.of_nat i)%Z in
         if (totalPages <? pageNum)%Z then None else Some pageNum)
      (seq 0 (Z.to_nat (Z.min 3 totalPages))).

(** The page buttons of [AllLeads]: up to five, none left out. *)
Definition pageButtons5 (totalPages currentPage : Z) : list Z :=
  map (fun i =>
         (Z.max 1 (Z.min (totalPages - 4) (currentPage - 2)) + Z.of_nat i)%Z)
      (seq 0 (Z.to_nat (Z.min 5 totalPages))).

(** [filterOptions] of [ActiveCampaigns] and [AllLeads]. *)
Record FilterOptions : Type := {
  stages : list string;
  sources : list string;
  industries : list string
}.

Definition filterOptions (leads : list Lead) : FilterOptions :=
  {| stages := sort_default (unique (truthy_strings (map stage leads)));
     sources := sort_default (unique (truthy_strings (map lead_source leads)));
     industries := sort_default (unique (truthy_strings (map industry leads))) |}.

(** [\w]: a letter, a digit or the underscore. *)
Definition word (c : ascii) : bool :=
  let n := nat_of_ascii c in
  ((48 <=? n) && (n <=? 57) || (65 <=? n) && (n <=? 90)
   || (97 <=? n) && (n <=? 122) || (n =? 95))%nat.

(** [char.toUpperCase()] on a word character. *)
Definition upper_word (c : ascii) : ascii :=
  let n := nat_of_ascii c in
  if ((97 <=? n) && (n <=? 122))%nat then ascii_of_nat (n - 32) else c.

(** [.replace(/_/g, ' ')] *)
Fixpoint underscores_to_spaces (s : string) : string :=
  match s with
  | EmptyString => EmptyString
  | String c s' =>
      String (if (c =? "_")%char then " "%char else c) (underscores_to_spaces s')
  end.

(** [.replace(/\b\w/g, char => char.toUpperCase())]: a word character is
    replaced when it starts the string or follows a character that is not
    a word character. *)
Fixpoint capitalize_words (after_word : bool) (s : string) : string :=
  match s with
  | EmptyString => EmptyString
  | String c s' =>
      String (if negb after_word && word c then upper_word c else c)
        (capitalize_words (word c) s')
  end.

Definition formatOptionLabel (value : string) : string :=
  capitalize_words false (underscores_to_spaces value).

End ListControls.

(** ** [RepliesEngagement.tsx] and [LeadDetailModal]: what they read beyond
    the record above *)

Module Details.

(** The further properties of a lead read by [getLastEmailSubject] and by
    the detail modal.  [days] comes from a BIGINT column: an integer-valued
    number, given by its value. *)
Record More : Type := {
  day_1_subject : opt string;
  day_2_subject : opt string;
  day_3_subject : opt string;
  day_4_subject : opt string;
  days : opt Z;
  linkedin_url : opt string;
  company_size : opt string;
  company_website : opt string;
  username : opt string
}.

(** [lead.day_N_sent && lead.day_N_subject] as a condition, with the
    subject returned when it holds. *)
Definition sent_subject (sent : opt bool) (subject : opt string) : option string :=
  match subject with
  | def s => if truthy sent && truthy_string s then Some s else None
  | _ => None
  end.

Definition getLastEmailSubject (lead : Lead) (more : More) : string :=
  match sent_subject (day_4_sent lead) (day_4_subject more) with
  | Some subject => subject
  | None =>
  match sent_subject (day_3_sent lead) (day_3_subject more) with
  | Some subject => subject
  | None =>
  match sent_subject (day_2_sent lead) (day_2_subject more) with
  | Some subject => subject
  | None =>
  match sent_subject (day_1_sent lead) (day_1_subject more) with
  | Some subject => subject
  | None => "No subject available"
  end end end end.

(** [sequenceProgress] of the detail modal, for the lead it shows
    ([None]: no lead). *)
Record Progress : Type := {
  completed : Z;
  total : Z;
  percentage : float;
  currentStage : string;
  nextStage : string
}.

Section SequenceProgress.

(** Number-to-string beyond the safe integers, where the text is the
    shortest one that reads back as the same number, with zeros for the
    digits that do not matter and in exponent form from 10^21 on: the
    engine's. *)
Variable Number_toString_beyond : Z -> string.

(** [`${n}`] for an integer-valued number. *)
Definition template_number (n : Z) : string :=
  if (Z.abs n <=? MAX_SAFE_INTEGER)%Z then decimalZ n
  else Number_toString_beyond n.

Definition sequenceProgress (lead : option More) : Progress :=
  match lead with
  | None =>
      {| completed := 0; total := 4; percentage := 0%float;
         currentStage := "Day 1"; nextStage := "Day 1 Email" |}
  | Some more =>
      let days :=
        match days more with
        | def d => if (d =? 0)%Z then 1%Z else d
        | _ => 1%Z
        end in
      let completed := Z.min days 4 in
      let currentStage := ("Day " ++ template_number days)%string in
      let nextStage :=
        if (days <? 2)%Z then "Day 2 Email"
        else if (days <? 3)%Z then "Day 3 Email"
        else if (days <? 4)%Z then "Day 4 Email"
        else "Sequence Complete" in
      let total := 4%Z in
      let percentage :=
        PrimFloat.mul (PrimFloat.div (float_of_Z completed) (float_of_Z total))
          (to_float 100) in
      {| completed := completed; total := total; percentage := percentage;
         currentStage := currentStage; nextStage := nextStage |}
  end.

End SequenceProgress.

End Details.

(** ** [updateLeadStatus] around its [await]

    The handler runs up to the [await] of the update, is suspended while
    the request is in flight, and resumes with the repository's answer. *)

Module InFlight.

Section Await.

Variable now : nat -> string.

(** [updateData] as the handler builds it, with the clock readings it
    takes. *)
Definition build (fld : Toggle.field) (value : bool) : Toggle.M Toggle.UpdateData :=
  Toggle.bind (Toggle.newDateISOString now) (fun t =>
  let updateData :=
    match fld with
    | Toggle.replied_field =>
        {| Toggle.u_replied := def value; Toggle.u_booked := undefined;
           Toggle.u_booked_at := undefined; Toggle.u_last_updated_at := def t |}
    | Toggle.booked_field =>
        {| Toggle.u_replied := undefined; Toggle.u_booked := def value;
           Toggle.u_booked_at := undefined; Toggle.u_last_updated_at := def t |}
    end in
  match fld with
  | Toggle.booked_field =>
      if value then
        Toggle.bind (Toggle.newDateISOString now) (fun t' =>
        Toggle.ret {| Toggle.u_replied := Toggle.u_replied updateData;
                      Toggle.u_booked := Toggle.u_booked updateData;
                      Toggle.u_booked_at := def t';
                      Toggle.u_last_updated_at := Toggle.u_last_updated_at updateData |})
      else Toggle.ret updateData
  | Toggle.replied_field => Toggle.ret updateData
  end).

(** The request in flight and the state of the view while the handler is
    suspended at its [await]. *)
Definition suspended (leadId : string) (fld : Toggle.field) (value : bool)
    (s : Toggle.State) : Toggle.UpdateData * Toggle.State :=
  match Toggle.bind (Toggle.setUpdatingLeads (fun prev => add prev leadId))
          (fun _ => build fld value) s with
  | (inl updateData, s1) =>
      (updateData,
       {| Toggle.leads := Toggle.leads s1; Toggle.error := Toggle.error s1;
          Toggle.updatingLeads := Toggle.updatingLeads s1;
          Toggle.clock_reads := Toggle.clock_reads s1;
          Toggle.requests := Toggle.requests s1 ++ [Toggle.Update leadId updateData] |})
  | (inr _, s1) =>
      ({| Toggle.u_replied := undefined; Toggle.u_booked := undefined;
          Toggle.u_booked_at := undefined; Toggle.u_last_updated_at := undefined |}, s1)
  end.

(** What the handler does once the answer is there: the rest of the [try]
    block, then [catch] and [finally]. *)
Definition resumed (leadId : string) (fld : Toggle.field)
    (updateError : option Toggle.Thrown) : Toggle.M unit :=
  Toggle.try_catch_finally
    (Toggle.bind
       (match updateError with
        | Some e => Toggle.throw e
        | None => Toggle.ret tt
        end)
       (fun _ =>
          Toggle.setLeads
            (fun prevLeads => filter (fun lead => negb (id lead =? leadId)) prevLeads)))
    (fun err =>
       Toggle.setError
         (Some (if Toggle.instanceofError err then Toggle.message err
                else "Failed to update " ++ Toggle.field_name fld)))
    (Toggle.setUpdatingLeads (fun prev => delete prev leadId)).

End Await.

End InFlight.

(** ** [LeadGenerationForm] *)

Module LeadGenerationForm.

Import Effect.
Local Open Scope effect_scope.

Record FormData : Type := {
  jobTitle : string;
  companySize : list string;
  keywords : string;
  location : string
}.

Definition emptyForm : FormData :=
  {| jobTitle := EmptyString; companySize := []; keywords := EmptyString;
     location := EmptyString |}.

(** The JSON the webhook receives. *)
Record Body : Type := {
  b_jobTitle : string;
  b_companySize : list string;
  b_keywords : string;
  b_location : string;
  b_timestamp : string
}.

(** The state of the form, and what the handlers have done outside it:
    clock readings taken and bodies posted, oldest first. *)
Record State : Type := {
  formData : FormData;
  loading : bool;
  error : option string;
  successMessage : option string;
  clock_reads : nat;
  posted : list (string * Body)
}.

Definition initial : State :=
  {| formData := emptyForm; loading := false; error := None;
     successMessage := None; clock_reads := 0; posted := [] |}.

Definition setFormData (f : FormData -> FormData) : M State unit :=
  modify (fun s => {| formData := f (formData s); loading := loading s;
                      error := error s; successMessage := successMessage s;
                      clock_reads := clock_reads s; posted := posted s |}).

Definition setLoading (v : bool) : M State unit :=
  modify (fun s => {| formData := formData s; loading := v;
                      error := error s; successMessage := successMessage s;
                      clock_reads := clock_reads s; posted := posted s |}).

Definition setError (v : option string) : M State unit :=
  modify (fun s => {| formData := formData s; loading := loading s;
                      error := v; successMessage := successMessage s;
                      clock_reads := clock_reads s; posted := posted s |}).

Definition setSuccessMessage (v : option string) : M State unit :=
  modify (fun s => {| formData := formData s; loading := loading s;
                      error := error s; successMessage := v;
                      clock_reads := clock_reads s; posted := posted s |}).

(** The text inputs the form binds to [handleInputChange]. *)
Inductive textField : Type := jobTitle_field | keywords_field | location_field.

Definition handleInputChange (field : textField) (value : string) : M State unit :=
  setFormData (fun prev =>
    match field with
    | jobTitle_field =>
        {| jobTitle := value; companySize := companySize prev;
           keywords := keywords prev; location := location prev |}
    | keywords_field =>
        {| jobTitle := jobTitle prev; companySize := companySize prev;
           keywords := value; location := location prev |}
    | location_field =>
        {| jobTitle := jobTitle prev; companySize := companySize prev;
           keywords := keywords prev; location := value |}
    end).

(** [prev.companySize.includes(value) ? prev.companySize.filter(size => size
    !== value) : [...prev.companySize, value]] *)
Definition toggled (sizes : list string) (value : string) : list string :=
  if has sizes value then filter (fun size => negb (size =? value)) sizes
  else sizes ++ [value].

Definition handleCompanySizeChange (value : string) : M State unit :=
  setFormData (fun prev =>
    {| jobTitle := jobTitle prev; companySize := toggled (companySize prev) value;
       keywords := keywords prev; location := location prev |}).

Definition clearForm : M State unit :=
  setFormData (fun _ => emptyForm) ;;
  setError None ;;
  setSuccessMessage None.

(** The [message] property of a parsed body, as the handler uses it: in
    [message || fallback] it is falsy ([undefined], [null], [false], [0],
    the empty string) or truthy, and a truthy one is then converted to a
    string, by [new Error(...)] or in the template literal.  A non-empty
    string is its own text; an empty array is truthy and its text is empty;
    the conversion of an object throws a [TypeError] when the object has a
    [toString] property of its own. *)
Inductive Message : Type :=
  | falsy
  | truthy_text (text : Toggle.Thrown + string).

(** What [response.json()] yields, as far as the handler looks at it: the
    value [null], on which reading [message] throws a [TypeError] worded by
    the engine, or a value with its [message] property. *)
Inductive Parsed : Type :=
  | json_null (typeError : string)
  | json_value (message : Message).

(** What [fetch] resolves to.  [status] is an unsigned 16-bit number;
    [json] is the outcome of [response.json()]: it throws or yields a
    parsed value. *)
Record Response : Type := {
  ok : bool;
  status : nat;
  json : Toggle.Thrown + Parsed
}.

(** [parsed.message] *)
Definition message_of {S} (parsed : Parsed) : M S Message :=
  match parsed with
  | json_null typeError => throw (Error typeError)
  | json_value message => ret message
  end.

(** [message || fallback], converted to a string; the fallback is a
    string. *)
Definition text_or {S} (message : Message) (fallback : string) : M S string :=
  match message with
  | falsy => ret fallback
  | truthy_text (inr text) => ret text
  | truthy_text (inl e) => throw e
  end.

Section Submit.

(** [import.meta.env.VITE_LEAD_GENERATION_WEBHOOK_URL], the clock, and the
    network: [fetch] rejects or resolves to a response. *)
Variable webhookUrl : opt string.
Variable now : nat -> string.
Variable fetch : string -> Body -> Toggle.Thrown + Response.

Definition newDateISOString : M State string :=
  fun s => (inl (now (clock_reads s)),
            {| formData := formData s; loading := loading s;
               error := error s; successMessage := successMessage s;
               clock_reads := S (clock_reads s); posted := posted s |}).

(** [await fetch(webhookUrl, { method: 'POST', ..., body })] *)
Definition post (url : string) (body : Body) : M State Response :=
  fun s =>
    let s' := {| formData := formData s; loading := loading s;
                 error := error s; successMessage := successMessage s;
                 clock_reads := clock_reads s;
                 posted := posted s ++ [(url, body)] |} in
    match fetch url body with
    | inl e => (inr e, s')
    | inr response => (inl response, s')
    end.

(** [await response.json()] *)
Definition response_json (response : Response) : M State Parsed :=
  match json response with
  | inl e => throw e
  | inr parsed => ret parsed
  end.

Definition handleSubmit : M State unit :=
  formData <- read formData ;;
  if negb (truthy_string (trim (jobTitle formData))) then
    setError (Some "Job Title is required")
  else if (List.length (companySize formData) =? 0)%nat then
    setError (Some "Please select at least one company size")
  else
    try_catch_finally
      (setLoading true ;;
       setError None ;;
       setSuccessMessage None ;;
       url <- (match webhookUrl with
               | def url =>
                   if truthy_string url then ret url
                   else throw (Error "Lead generation webhook URL is not configured")
               | _ => throw (Error "Lead generation webhook URL is not configured")
               end) ;;
       timestamp <- newDateISOString ;;
       response <- post url
         {| b_jobTitle := trim (jobTitle formData);
            b_companySize := companySize formData;
            b_keywords := trim (keywords formData);
            b_location := trim (location formData);
            b_timestamp := timestamp |} ;;
       (if negb (ok response) then
          let errorData :=
            match json response with
            | inl _ => json_value falsy
            | inr parsed => parsed
            end in
          errorData_message <- message_of errorData ;;
          text <- text_or errorData_message
                    ("HTTP error! status: " ++ decimal (status response)) ;;
          throw (Error text)
        else ret tt) ;;
       result <- response_json response ;;
       result_message <- message_of result ;;
       text <- text_or result_message
                 "Your leads will be processed and added to the database shortly." ;;
       setSuccessMessage
         (Some ("Lead generation request submitted successfully! " ++ text)) ;;
       setFormData (fun _ => emptyForm))
      (fun err =>
         setError (Some (message_or err
                           "Failed to submit lead generation request. Please try again.")))
      (setLoading false).

End Submit.

End LeadGenerationForm.

(** ** [LeadDetailModal]: editing a lead *)

Module LeadDetailModal.

Import Effect.
Local Open Scope effect_scope.

(** [editableLeadData]: an object with string values; its own properties
    in creation order. *)
Definition object : Type := list (string * string).

(** [{ ...prev, [field]: value }] *)
Fixpoint assign (field value : string) (prev : object) : object :=
  match prev with
  | [] => [(field, value)]
  | (k, v) :: rest =>
      if k =? field then (k, value) :: rest else (k, v) :: assign field value rest
  end.

(** [lead.fullname || ''] *)
Definition or_empty (v : opt string) : string :=
  match v with
  | def s => s
  | _ => EmptyString
  end.

(** The editable copy made of a lead, also [originalData]. *)
Definition originalData (lead : Lead) (more : Details.More) : object :=
  [ ("fullname", or_empty (fullname lead));
    ("email", email lead);
    ("job_title", or_empty (job_title lead));
    ("company_name", or_empty (company_name lead));
    ("linkedin_url", or_empty (Details.linkedin_url more));
    ("industry", or_empty (industry lead));
    ("company_size", or_empty (Details.company_size more));
    ("company_website", or_empty (Details.company_website more));
    ("username", or_empty (Details.username more)) ].

(** [JSON.stringify] of a string: quotation mark and reverse solidus are
    escaped, the control characters below U+0020 are written as [\b], [\t],
    [\n], [\f], [\r] or [\u00xx], every other code unit stands for itself. *)
Definition quotation : ascii := ascii_of_nat 34.

Definition solidus : ascii := ascii_of_nat 92.

Definition hex_digit (n : nat) : ascii :=
  if (n <? 10)%nat then ascii_of_nat (48 + n) else ascii_of_nat (87 + n).

Definition escape (c : ascii) : string :=
  let n := nat_of_ascii c in
  if (n =? 34)%nat then String solidus (String quotation EmptyString)
  else if (n =? 92)%nat then String solidus (String solidus EmptyString)
  else if (n =? 8)%nat then String solidus "b"
  else if (n =? 9)%nat then String solidus "t"
  else if (n =? 10)%nat then String solidus "n"
  else if (n =? 12)%nat then String solidus "f"
  else if (n =? 13)%nat then String solidus "r"
  else if (n <? 32)%nat then
    String solidus
      (String "u" (String "0" (String "0"
         (String (hex_digit (n / 16)) (String (hex_digit (n mod 16)) EmptyString)))))
  else String c EmptyString.

Fixpoint escaped (s : string) : string :=
  match s with
  | EmptyString => EmptyString
  | String c s' => (escape c ++ escaped s')%string
  end.

Definition quote (s : string) : string :=
  String quotation (escaped s ++ String quotation EmptyString)%string.

(** The members of an object and the closing brace. *)
Fixpoint members (o : object) : string :=
  match o with
  | [] => "}"
  | (k, v) :: rest =>
      (quote k ++ ":" ++ quote v
       ++ match rest with
          | [] => "}"
          | _ => "," ++ members rest
          end)%string
  end.

Definition stringify (o : object) : string := String "{" (members o).

(** The state of the modal, and the calls it has made: to the props
    [onClose] and [onLeadUpdated], to the clock and to the repository. *)
Record State : Type := {
  isEditing : bool;
  isSaving : bool;
  error : option string;
  editableLeadData : object;
  showConfirmDiscardModal : bool;
  onClose_calls : nat;
  onLeadUpdated_calls : nat;
  clock_reads : nat;
  requests : list (string * object * string)
}.

Definition setIsEditing (v : bool) : M State unit :=
  modify (fun s =>
    {| isEditing := v; isSaving := isSaving s; error := error s;
       editableLeadData := editableLeadData s;
       showConfirmDiscardModal := showConfirmDiscardModal s;
       onClose_calls := onClose_calls s;
       onLeadUpdated_calls := onLeadUpdated_calls s;
       clock_reads := clock_reads s; requests := requests s |}).

Definition setIsSaving (v : bool) : M State unit :=
  modify (fun s =>
    {| isEditing := isEditing s; isSaving := v; error := error s;
       editableLeadData := editableLeadData s;
       showConfirmDiscardModal := showConfirmDiscardModal s;
       onClose_calls := onClose_calls s;
       onLeadUpdated_calls := onLeadUpdated_calls s;
       clock_reads := clock_reads s; requests := requests s |}).

Definition setError (v : option string) : M State unit :=
  modify (fun s =>
    {| isEditing := isEditing s; isSaving := isSaving s; error := v;
       editableLeadData := editableLeadData s;
       showConfirmDiscardModal := showConfirmDiscardModal s;
       onClose_calls := onClose_calls s;
       onLeadUpdated_calls := onLeadUpdated_calls s;
       clock_reads := clock_reads s; requests := requests s |}).

Definition setEditableLeadData (f : object -> object) : M State unit :=
  modify (fun s =>
    {| isEditing := isEditing s; isSaving := isSaving s; error := error s;
       editableLeadData := f (editableLeadData s);
       showConfirmDiscardModal := showConfirmDiscardModal s;
       onClose_calls := onClose_calls s;
       onLeadUpdated_calls := onLeadUpdated_calls s;
       clock_reads := clock_reads s; requests := requests s |}).

Definition setShowConfirmDiscardModal (v : bool) : M State unit :=
  modify (fun s =>
    {| isEditing := isEditing s; isSaving := isSaving s; error := error s;
       editableLeadData := editableLeadData s;
       showConfirmDiscardModal := v;
       onClose_calls := onClose_calls s;
       onLeadUpdated_calls := onLeadUpdated_calls s;
       clock_reads := clock_reads s; requests := requests s |}).

Definition onClose : M State unit :=
  modify (fun s =>
    {| isEditing := isEditing s; isSaving := isSaving s; error := error s;
       editableLeadData := editableLeadData s;
       showConfirmDiscardModal := showConfirmDiscardModal s;
       onClose_calls := S (onClose_calls s);
       onLeadUpdated_calls := onLeadUpdated_calls s;
       clock_reads := clock_reads s; requests := requests s |}).

Definition onLeadUpdated : M State unit :=
  modify (fun s =>
    {| isEditing := isEditing s; isSaving := isSaving s; error := error s;
       editableLeadData := editableLeadData s;
       showConfirmDiscardModal := showConfirmDiscardModal s;
       onClose_calls := onClose_calls s;
       onLeadUpdated_calls := S (onLeadUpdated_calls s);
       clock_reads := clock_reads s; requests := requests s |}).

Section Modal.

(** The lead the modal shows, whether the parent passed [onLeadUpdated],
    the clock and the repository's answer to an update. *)
Variable lead : Lead.
Variable more : Details.More.
Variable has_onLeadUpdated : bool.
Variable now : nat -> string.
Variable respond : string -> object -> string -> option Toggle.Thrown.

(** The modal as it opens on the lead. *)
Definition opened : State :=
  {| isEditing := false; isSaving := false; error := None;
     editableLeadData := originalData lead more;
     showConfirmDiscardModal := false;
     onClose_calls := 0; onLeadUpdated_calls := 0;
     clock_reads := 0; requests := [] |}.

Definition hasUnsavedChanges (s : State) : bool :=
  if negb (isEditing s) then false
  else negb (stringify (editableLeadData s) =? stringify (originalData lead more)).

Definition handleInputChange (field value : string) : M State unit :=
  setEditableLeadData (fun prev => assign field value prev).

Definition handleEdit : M State unit :=
  setIsEditing true ;;
  setError None.

Definition handleCancel : M State unit :=
  setIsEditing false ;;
  setError None ;;
  setEditableLeadData (fun _ => originalData lead more).

Definition performDiscardAndClose : M State unit :=
  handleCancel ;;
  onClose.

Definition handleClose : M State unit :=
  unsaved <- read hasUnsavedChanges ;;
  if unsaved then setShowConfirmDiscardModal true
  else onClose.

Definition handleConfirmDiscard : M State unit :=
  setShowConfirmDiscardModal false ;;
  performDiscardAndClose.

Definition handleCancelDiscard : M State unit :=
  setShowConfirmDiscardModal false.

Definition newDateISOString : M State string :=
  fun s => (inl (now (clock_reads s)),
            {| isEditing := isEditing s; isSaving := isSaving s; error := error s;
               editableLeadData := editableLeadData s;
               showConfirmDiscardModal := showConfirmDiscardModal s;
               onClose_calls := onClose_calls s;
               onLeadUpdated_calls := onLeadUpdated_calls s;
               clock_reads := S (clock_reads s); requests := requests s |}).

(** [await supabase.from('leads_pipeline').update({ ...editableLeadData,
    last_updated_at }).eq('id', lead.id)] *)
Definition supabase_update (leadId : string) (data : object) (last_updated_at : string)
    : M State (option Toggle.Thrown) :=
  fun s => (inl (respond leadId data last_updated_at),
            {| isEditing := isEditing s; isSaving := isSaving s; error := error s;
               editableLeadData := editableLeadData s;
               showConfirmDiscardModal := showConfirmDiscardModal s;
               onClose_calls := onClose_calls s;
               onLeadUpdated_calls := onLeadUpdated_calls s;
               clock_reads := clock_reads s;
               requests := requests s ++ [(leadId, data, last_updated_at)] |}).

Definition handleSave : M State unit :=
  try_catch_finally
    (setIsSaving true ;;
     setError None ;;
     editable <- read editableLeadData ;;
     t <- newDateISOString ;;
     updateError <- supabase_update (id lead) editable t ;;
     match updateError with
     | Some e => throw e
     | None => ret tt
     end ;;
     setIsEditing false ;;
     (if has_onLeadUpdated then onLeadUpdated else ret tt) ;;
     onClose)
    (fun err => setError (Some (message_or err "Failed to update lead")))
    (setIsSaving false).

End Modal.

End LeadDetailModal.

(** ** The statements' vocabulary

    Definitions that follow the wording of the specification; the
    properties below compare them with the code above. *)

Module Spec.

(** The flag of sequence step [n], for [n] from 1 to 4. *)
Definition sent (n : nat) (lead : Lead) : bool :=
  match n with
  | 1 => truthy (day_1_sent lead)
  | 2 => truthy (day_2_sent lead)
  | 3 => truthy (day_3_sent lead)
  | 4 => truthy (day_4_sent lead)
  | _ => false
  end.

Definition numeral (n : nat) : string :=
  match n with
  | 1 => "1"
  | 2 => "2"
  | 3 => "3"
  | 4 => "4"
  | _ => EmptyString
  end.

(** Scan the steps 4 to 1 for the first one that is sent. *)
Definition current_stage_by_scan (lead : Lead) : string :=
  match find (fun n => sent n lead) [4; 3; 2; 1] with
  | Some n => "Day " ++ numeral n ++ " Sent"
  | None => "Not Started"
  end.

(** Scan the steps 1 to 4 for the first one that is not sent. *)
Definition next_stage_by_scan (lead : Lead) : string :=
  match find (fun n => negb (sent n lead)) [1; 2; 3; 4] with
  | Some n => "Awaiting Day " ++ numeral n
  | None => "Sequence Complete"
  end.

(** The six checkpoints of the funnel, in order. *)
Inductive checkpoint : Type :=
| day_1 | day_2 | day_3 | day_4 | has_replied | has_booked.

Definition checkpoints : list checkpoint :=
  [day_1; day_2; day_3; day_4; has_replied; has_booked].

Definition satisfies (c : checkpoint) (lead : Lead) : bool :=
  match c with
  | day_1 => truthy (day_1_sent lead)
  | day_2 => truthy (day_2_sent lead)
  | day_3 => truthy (day_3_sent lead)
  | day_4 => truthy (day_4_sent lead)
  | has_replied => truthy (replied lead)
  | has_booked => truthy (booked lead)
  end.

Definition label (c : checkpoint) : string :=
  match c with
  | day_1 => "Day 1 Sent"
  | day_2 => "Day 2 Sent"
  | day_3 => "Day 3 Sent"
  | day_4 => "Day 4 Sent"
  | has_replied => "Replied"
  | has_booked => "Booked"
  end.

Definition position (c : checkpoint) : nat :=
  match c with
  | day_1 => 0
  | day_2 => 1
  | day_3 => 2
  | day_4 => 3
  | has_replied => 4
  | has_booked => 5
  end.

(** The number of elements of [l] that satisfy [p]. *)
Fixpoint how_many {A} (p : A -> bool) (l : list A) : nat :=
  match l with
  | [] => 0
  | x :: l' => if p x then S (how_many p l') else how_many p l'
  end.

Definition reached (c : checkpoint) (leads : list Lead) : nat :=
  how_many (satisfies c) leads.

(** max(all six counts, 1) *)
Definition denominator (leads : list Lead) : nat :=
  Nat.max (list_max (map (fun c => reached c leads) checkpoints)) 1.

(** count / denominator x 100, in binary64. *)
Definition ratio_percent (count denominator : nat) : float :=
  PrimFloat.mul (PrimFloat.div (to_float count) (to_float denominator)) 100%float.

(** The percentage the funnel shows for a checkpoint. *)
Definition shown_percentage (c : checkpoint) (leads : list Lead) : float :=
  match nth_error (Dashboard.funnelStages leads) (position c) with
  | Some stage => Dashboard.percentage stage
  | None => nan
  end.

(** What each toggle changes, and to which value. *)
Definition toggled_field (t : Toggle.toggle) : Toggle.field :=
  match t with
  | Toggle.ActiveCampaigns_replied | Toggle.Replies_not_replied => Toggle.replied_field
  | Toggle.ActiveCampaigns_booked | Toggle.Replies_booked
  | Toggle.BookedMeetings_not_booked => Toggle.booked_field
  end.

Definition toggled_value (t : Toggle.toggle) : bool :=
  match t with
  | Toggle.ActiveCampaigns_replied | Toggle.ActiveCampaigns_booked
  | Toggle.Replies_booked => true
  | Toggle.Replies_not_replied | Toggle.BookedMeetings_not_booked => false
  end.

(** The field value an update carries for a toggle. *)
Definition carried_value (t : Toggle.toggle) (d : Toggle.UpdateData) : opt bool :=
  match toggled_field t with
  | Toggle.replied_field => Toggle.u_replied d
  | Toggle.booked_field => Toggle.u_booked d
  end.

(** The message shown when the thrown value is no [Error]. *)
Definition fallback_message (t : Toggle.toggle) : string :=
  match t with
  | Toggle.ActiveCampaigns_replied | Toggle.Replies_not_replied =>
      "Failed to update replied"
  | Toggle.ActiveCampaigns_booked | Toggle.Replies_booked =>
      "Failed to update booked"
  | Toggle.BookedMeetings_not_booked => "Failed to update booked status"
  end.

(** [without x l l']: [l'] is [l] with exactly the leads of id [x] taken
    out, the others kept as they are and in their order. *)
Inductive without (x : string) : list Lead -> list Lead -> Prop :=
| without_nil : without x [] []
| without_drop lead l l' :
    id lead = x -> without x l l' -> without x (lead :: l) l'
| without_keep lead l l' :
    id lead <> x -> without x l l' -> without x (lead :: l) (lead :: l').

(** The group a lead falls in: its field value, or "Unknown" when the
    value is [null], [undefined] or the empty string. *)
Definition group_name (v : opt string) : string :=
  match v with
  | def EmptyString => "Unknown"
  | def s => s
  | _ => "Unknown"
  end.

(** The number of leads of a group. *)
Definition group_size (field : Lead -> opt string) (k : string)
    (leads : list Lead) : nat :=
  how_many (fun lead => group_name (field lead) =? k) leads.

(** A key that names no member of [Object.prototype]. *)
Definition plain_key (k : string) : bool :=
  match BookedMeetings.get [] k with
  | BookedMeetings.Missing => true
  | _ => false
  end.

(** The record the breakdown shows for a group of [n] leads out of
    [total]. *)
Definition group_record (total : nat) (g : string * nat) : BookedMeetings.Stat :=
  {| BookedMeetings.name := fst g;
     BookedMeetings.count := BookedMeetings.Count (snd g);
     BookedMeetings.percentage := ratio_percent (snd g) total |}.

(** The accumulator after a run over leads with plain keys: one entry per
    group that has a lead, holding the number of its leads. *)
Definition counts_of (field : Lead -> opt string) (done : list Lead)
    (acc : BookedMeetings.object) : Prop :=
  NoDup (map fst acc)
  /\ forall k,
       BookedMeetings.assoc k acc
       = match group_size field k done with
         | 0 => None
         | S n => Some (BookedMeetings.Count (S n))
         end.

(** The group a breakdown record stands for: its name and its count. *)
Definition group_of (st : BookedMeetings.Stat) : string * nat :=
  (BookedMeetings.name st,
   match BookedMeetings.count st with
   | BookedMeetings.Count n => n
   | BookedMeetings.Text _ _ => 0
   end).

(** A list in which no element has to precede an earlier one. *)
Definition in_order {A} (before : A -> A -> bool) : list A -> Prop :=
  StronglySorted (fun x y => before y x = false).

(** The activity label that goes with a stage label. *)
Definition activity_of_stage (stage : string) : string :=
  if stage =? "Day 4 Sent" then "Day 4 Email Sent"
  else if stage =? "Day 3 Sent" then "Day 3 Email Sent"
  else if stage =? "Day 2 Sent" then "Day 2 Email Sent"
  else if stage =? "Day 1 Sent" then "Day 1 Email Sent"
  else "Imported".

(** The number of sequence steps of a lead that carry a send time. *)
Definition emails_of (lead : Lead) : nat :=
  how_many (fun v => truthy_str v)
    [day_1_sent_at lead; day_2_sent_at lead; day_3_sent_at lead; day_4_sent_at lead].

(** [t] occurs in [s]. *)
Definition occurs_in (t s : string) : Prop :=
  exists pre post, s = (pre ++ t ++ post)%string.

(** A lead matches a search term: the term is empty, or it occurs, case
    ignored, in the full name, the email or the company name. *)
Definition matches_search (term : string) (lead : Lead) : Prop :=
  term = EmptyString
  \/ exists s,
       (fullname lead = def s \/ email lead = s \/ company_name lead = def s)
       /\ occurs_in (toLowerCase term) (toLowerCase s).

(** A lead passes a field filter: the filter is empty or equals the field. *)
Definition passes (filter : string) (field : opt string) : Prop :=
  filter = EmptyString \/ field = def filter.

(** The options a filter menu offers and the field it filters on. *)
Definition options_of (t : ListControls.filterType)
    (o : ListControls.FilterOptions) : list string :=
  match t with
  | ListControls.stage_filter => ListControls.stages o
  | ListControls.lead_source_filter => ListControls.sources o
  | ListControls.industry_filter => ListControls.industries o
  end.

Definition field_of (t : ListControls.filterType) (lead : Lead) : opt string :=
  match t with
  | ListControls.stage_filter => stage lead
  | ListControls.lead_source_filter => lead_source lead
  | ListControls.industry_filter => industry lead
  end.

(** The subject of sequence step [n], and whether the step is sent and has
    a non-empty subject. *)
Definition subject_of (n : nat) (more : Details.More) : opt string :=
  match n with
  | 1 => Details.day_1_subject more
  | 2 => Details.day_2_subject more
  | 3 => Details.day_3_subject more
  | 4 => Details.day_4_subject more
  | _ => undefined
  end.

Definition sent_with_subject (n : nat) (lead : Lead) (more : Details.More) : bool :=
  sent n lead && truthy_str (subject_of n more).

(** The day a lead is in: its [days], and 1 when [days] is missing or 0. *)
Definition day_of (more : Details.More) : Z :=
  match Details.days more with
  | def 0%Z => 1%Z
  | def d => d
  | _ => 1%Z
  end.

(** The last character of a string. *)
Fixpoint last_char (s : string) : option ascii :=
  match s with
  | EmptyString => None
  | String c EmptyString => Some c
  | String _ s' => last_char s'
  end.

Definition first_char (s : string) : option ascii :=
  match s with
  | EmptyString => None
  | String c _ => Some c
  end.

(** No white space at either end. *)
Definition trimmed (s : string) : Prop :=
  (forall c, first_char s = Some c -> white c = false)
  /\ (forall c, last_char s = Some c -> white c = false).

(** The webhook took the request: [fetch] resolved, the response is [ok],
    its body parsed to a value other than [null], and the [message] of that
    value, if truthy, could be converted to a string. *)
Definition accepted (r : Toggle.Thrown + LeadGenerationForm.Response) : bool :=
  match r with
  | inr response =>
      LeadGenerationForm.ok response
      && match LeadGenerationForm.json response with
         | inr (LeadGenerationForm.json_value
                  (LeadGenerationForm.truthy_text (inl _))) => false
         | inr (LeadGenerationForm.json_value _) => true
         | _ => false
         end
  | inl _ => false
  end.

(** The body posted for a form, stamped with a clock reading. *)
Definition body_of (form : LeadGenerationForm.FormData) (timestamp : string)
    : LeadGenerationForm.Body :=
  {| LeadGenerationForm.b_jobTitle := trim (LeadGenerationForm.jobTitle form);
     LeadGenerationForm.b_companySize := LeadGenerationForm.companySize form;
     LeadGenerationForm.b_keywords := trim (LeadGenerationForm.keywords form);
     LeadGenerationForm.b_location := trim (LeadGenerationForm.location form);
     LeadGenerationForm.b_timestamp := timestamp |}.

(** The value an object holds under a key: that of the first such member. *)
Fixpoint value_in (o : LeadDetailModal.object) (field : string) : option string :=
  match o with
  | [] => None
  | (k, v) :: rest => if k =? field then Some v else value_in rest field
  end.

(** The lead's data have been edited: the modal is in edit mode and its
    editable copy is no longer the copy made of the lead. *)
Definition edited (lead : Lead) (more : Details.More) (s : LeadDetailModal.State) : Prop :=
  LeadDetailModal.isEditing s = true
  /\ LeadDetailModal.editableLeadData s <> LeadDetailModal.originalData lead more.

End Spec.

(** ** [Array.prototype.sort] on any engine *)

Module SortOrder.

(** [v > 0]; a comparison with NaN is false. *)
Definition positive (v : number) : bool :=
  match v with
  | Num z => (0 <? z)%Z
  | NaN => false
  end.

Section Comparator.

Context {A : Type}.
Variable comparefn : A -> A -> number.

(** [a <CF b] is [precedes comparefn a b]; [a >CF b] and [a =CF b], the
    latter also when the comparator answers NaN, which the sort reads as
    +0. *)
Definition greater (a b : A) : bool := positive (comparefn a b).

Definition equal (a b : A) : bool :=
  negb (precedes comparefn a b) && negb (greater a b).

(** ECMAScript's consistent comparator for the elements of a list. *)
Definition consistent (l : list A) : Prop :=
  forall a b c, In a l -> In b l -> In c l ->
    equal a a = true
    /\ (equal a b = true -> equal b a = true)
    /\ (equal a b = true -> equal b c = true -> equal a c = true)
    /\ (precedes comparefn a b = true -> precedes comparefn b c = true ->
        precedes comparefn a c = true)
    /\ (greater a b = true -> greater b c = true -> greater a c = true).

(** The sort order ECMAScript fixes when the comparator is consistent: the
    elements of the list, none of them behind one it has to precede, and
    those that compare equal in the order they had. *)
Definition sorted_from (l result : list A) : Prop :=
  Permutation result l
  /\ Spec.in_order (precedes comparefn) result
  /\ forall a, In a l -> filter (equal a) result = filter (equal a) l.

(** One step of an insertion sort on a consistent comparator: the element
    goes behind those it does not have to precede and in front of those it
    has to precede. *)
Definition put_in (x : A) (placed result : list A) : Prop :=
  exists pre post,
    placed = (pre ++ post)%list
    /\ result = (pre ++ x :: post)%list
    /\ Forall (fun y => precedes comparefn x y = false) pre
    /\ Forall (fun y => precedes comparefn x y = true) post.



End Comparator.

(** What ECMAScript asks of every engine's sort: the result holds the
    elements of the array, and it is the fixed sort order when the
    comparator is consistent for them; otherwise the order is the
    engine's. *)
Definition conforming {A : Type}
    (sort : (A -> A -> number) -> list A -> list A) : Prop :=
  forall comparefn l,
    Permutation (sort comparefn l) l
    /\ (consistent comparefn l -> sorted_from comparefn l (sort comparefn l)).

(** Search, field filters and sort, on an engine with the given sort. *)
Definition pipeline (sort : (Lead -> Lead -> number) -> list Lead -> list Lead)
    (leads : list Lead) (searchTerm : string) (filters : ListView.Filters)
    (sortColumn : ListView.column) (sortDirection : ListView.direction)
    : list Lead :=
  sort (ListView.comparefn sortColumn sortDirection)
    (ListView.filteredLeads leads searchTerm filters).

End SortOrder.

(** ** Sample data *)

Module Sample.

(** A lead with an id and nothing else set. *)
Definition blank (i : string) : Lead :=
  {| id := i; email := i ++ "@example.com"; fullname := null;
     company_name := null; job_title := null; stage := null;
     lead_source := null; industry := null;
     replied := def false; booked := def false;
     day_1_sent := def false; day_2_sent := def false;
     day_3_sent := def false; day_4_sent := def false;
     day_1_sent_at := null; day_2_sent_at := null; day_3_sent_at := null;
     day_4_sent_at := null; created_at := null; last_updated_at := null;
     booked_at := null |}.

(** A lead whose only sent step is step 3, out of order. *)
Definition gap_lead : Lead :=
  {| id := "a"; email := "a@x.io"; fullname := null; company_name := null;
     job_title := null; stage := null; lead_source := null; industry := null;
     replied := def false; booked := def false;
     day_1_sent := def false; day_2_sent := undefined;
     day_3_sent := def true; day_4_sent := null;
     day_1_sent_at := null; day_2_sent_at := null; day_3_sent_at := null;
     day_4_sent_at := null; created_at := null; last_updated_at := null;
     booked_at := null |}.

(** A lead known by its progress flags only. *)
Definition progress (i : string) (d1 d2 d3 d4 r b : bool) : Lead :=
  {| id := i; email := i ++ "@example.com"; fullname := null;
     company_name := null; job_title := null; stage := null;
     lead_source := null; industry := null;
     replied := def r; booked := def b;
     day_1_sent := def d1; day_2_sent := def d2;
     day_3_sent := def d3; day_4_sent := def d4;
     day_1_sent_at := null; day_2_sent_at := null; day_3_sent_at := null;
     day_4_sent_at := null; created_at := null; last_updated_at := null;
     booked_at := null |}.

(** A lead known by its last update only. *)
Definition updated (i : string) (t : opt string) : Lead :=
  {| id := i; email := i ++ "@example.com"; fullname := null;
     company_name := null; job_title := null; stage := null;
     lead_source := null; industry := null;
     replied := def false; booked := def false;
     day_1_sent := def false; day_2_sent := def false;
     day_3_sent := def false; day_4_sent := def false;
     day_1_sent_at := null; day_2_sent_at := null; day_3_sent_at := null;
     day_4_sent_at := null; created_at := null; last_updated_at := t;
     booked_at := null |}.

Definition three_updates : list Lead :=
  [ updated "a" (def "2024-05-02T10:00:00.000Z");
    updated "b" null;
    updated "c" (def "2024-05-03T08:30:00.000Z") ].

Definition four_updates : list Lead :=
  [ updated "a" (def "2024-05-02T10:00:00.000Z");
    updated "b" null;
    updated "c" (def "2024-05-03T08:30:00.000Z");
    updated "d" undefined ].

(** The Replies view holding three leads, nothing in flight. *)
Definition replies_view : Toggle.State :=
  {| Toggle.leads :=
       [ progress "a" true false false false true false;
         progress "b" true true false false true false;
         progress "c" true true true false true false ];
     Toggle.error := None;
     Toggle.updatingLeads := [];
     Toggle.clock_reads := 0;
     Toggle.requests := [] |}.

(** A clock that answers the same instant at every reading. *)
Definition frozen_clock (n : nat) : string := "2024-06-01T12:00:00.000Z".

Definition accept (leadId : string) (d : Toggle.UpdateData) : option Toggle.Thrown :=
  None.

Definition reject (leadId : string) (d : Toggle.UpdateData) : option Toggle.Thrown :=
  Some {| Toggle.instanceofError := true; Toggle.message := "permission denied" |}.

(** A booked lead known by its industry and its source. *)
Definition booked_lead (i : string) (ind src : opt string) : Lead :=
  {| id := i; email := i ++ "@example.com"; fullname := null;
     company_name := null; job_title := null; stage := def "booked";
     lead_source := src; industry := ind;
     replied := def true; booked := def true;
     day_1_sent := def true; day_2_sent := def false;
     day_3_sent := def false; day_4_sent := def false;
     day_1_sent_at := null; day_2_sent_at := null; day_3_sent_at := null;
     day_4_sent_at := null; created_at := null; last_updated_at := null;
     booked_at := def "2024-06-01T12:00:00.000Z" |}.

Definition booked_leads : list Lead :=
  [ booked_lead "a" (def "SaaS") (def "apollo");
    booked_lead "b" (def EmptyString) null;
    booked_lead "c" (def "Fintech") (def "apollo");
    booked_lead "d" (def "Fintech") undefined ].

(** Forty-five leads, with the ids "0", "1", ... in character order. *)
Definition forty_five : list Lead :=
  map (fun k => blank (String (ascii_of_nat (48 + k)) EmptyString)) (seq 0 45).

(** Three leads at steps 1, 2 and 3 of the sequence; the last one replied. *)
Definition three_in_progress : list Lead :=
  [ progress "a" true false false false false false;
    progress "b" true true false false false false;
    progress "c" true true true false true false ].

(** What the Replies view and the modal read of a lead, beyond its record:
    subjects for the first two steps only, three days in the pipeline. *)
Definition two_subjects : Details.More :=
  {| Details.day_1_subject := def "Quick question";
     Details.day_2_subject := def "Following up";
     Details.day_3_subject := null;
     Details.day_4_subject := def EmptyString;
     Details.days := def 3%Z;
     Details.linkedin_url := null;
     Details.company_size := null;
     Details.company_website := null;
     Details.username := null |}.

(** A filled form, with stray white space around the job title. *)
Definition filled_form : LeadGenerationForm.State :=
  {| LeadGenerationForm.formData :=
       {| LeadGenerationForm.jobTitle := "  Head of Sales ";
          LeadGenerationForm.companySize := ["11-50"; "51-200"];
          LeadGenerationForm.keywords := "saas";
          LeadGenerationForm.location := EmptyString |};
     LeadGenerationForm.loading := false;
     LeadGenerationForm.error := None;
     LeadGenerationForm.successMessage := None;
     LeadGenerationForm.clock_reads := 0;
     LeadGenerationForm.posted := [] |}.

(** A webhook that answers 200 with [{ "message": "queued" }], and one that
    answers 500 with a body that is no JSON. *)
Definition webhook_ok (url : string) (body : LeadGenerationForm.Body)
    : Toggle.Thrown + LeadGenerationForm.Response :=
  inr {| LeadGenerationForm.ok := true; LeadGenerationForm.status := 200;
         LeadGenerationForm.json :=
           inr (LeadGenerationForm.json_value
                  (LeadGenerationForm.truthy_text (inr "queued"))) |}.

(** An engine's text for the numbers beyond the safe integers. *)
Definition exponent_form (n : Z) : string := "1e+21".

(** The Dashboard after a fetch that failed: four booked leads shown, the
    error of the fetch, and metrics that count the four leads. *)
Definition stale_dashboard : DashboardView.State :=
  {| DashboardView.leads := booked_leads;
     DashboardView.metrics := DashboardView.metrics_of booked_leads;
     DashboardView.funnelStages := Dashboard.funnelStages booked_leads;
     DashboardView.recentActivity := booked_leads;
     DashboardView.loading := false;
     DashboardView.error := Some "Failed to fetch data" |}.

(** A refusal whose body is [{ message: [] }]. *)
Definition webhook_refuses (url : string) (body : LeadGenerationForm.Body)
    : Toggle.Thrown + LeadGenerationForm.Response :=
  inr {| LeadGenerationForm.ok := false; LeadGenerationForm.status := 422;
         LeadGenerationForm.json :=
           inr (LeadGenerationForm.json_value
                  (LeadGenerationForm.truthy_text (inr EmptyString))) |}.

Definition webhook_down (url : string) (body : LeadGenerationForm.Body)
    : Toggle.Thrown + LeadGenerationForm.Response :=
  inr {| LeadGenerationForm.ok := false; LeadGenerationForm.status := 500;
         LeadGenerationForm.json := inl (Effect.Error "Unexpected token <") |}.

(** The modal in edit mode, the lead's name retyped. *)
Definition renamed : LeadDetailModal.State :=
  Effect.after
    (Effect.bind LeadDetailModal.handleEdit
       (fun _ => LeadDetailModal.handleInputChange "fullname" "Ada Lovelace"))
    (LeadDetailModal.opened (blank "7") two_subjects).

Definition saved (leadId : string) (data : LeadDetailModal.object) (t : string)
    : option Toggle.Thrown :=
  None.

Definition refused (leadId : string) (data : LeadDetailModal.object) (t : string)
    : option Toggle.Thrown :=
  Some {| Toggle.instanceofError := false; Toggle.message := "row level security" |}.

End Sample.

Import Sample.

(** * Properties *)

Local Open Scope list_scope.

(** ** Stage inference *)

(** The two scans, read off the code. *)
Lemma getCurrentStage_scan (lead : Lead) :
  getCurrentStage lead = Spec.current_stage_by_scan lead.
Proof.
  unfold getCurrentStage, Spec.current_stage_by_scan.
  cbn [find Spec.sent].
  destruct (truthy (day_4_sent lead)), (truthy (day_3_sent lead)),
    (truthy (day_2_sent lead)), (truthy (day_1_sent lead)); reflexivity.
Qed.

Lemma getNextStage_scan (lead : Lead) :
  getNextStage lead = Spec.next_stage_by_scan lead.
Proof.
  unfold getNextStage, Spec.next_stage_by_scan.
  cbn [find Spec.sent].
  destruct (truthy (day_1_sent lead)), (truthy (day_2_sent lead)),
    (truthy (day_3_sent lead)), (truthy (day_4_sent lead)); reflexivity.
Qed.

Lemma step_cases (n : nat) : 1 <= n <= 4 -> n = 1 \/ n = 2 \/ n = 3 \/ n = 4.
Proof. lia. Qed.

(** C1: [getCurrentStage] answers "Day N Sent" for the highest step N of
    4..1 whose flag is true, and "Not Started" when no flag is true;
    [getNextStage] answers "Awaiting Day N" for the lowest step N of 1..4
    whose flag is false, and "Sequence Complete" when all four are true.
    Both are the results of the two scans for every combination of the
    four flags, gaps included: they are total and raise nothing. *)
Theorem stage_inference_scans (lead : Lead) :
  getCurrentStage lead = Spec.current_stage_by_scan lead
  /\ getNextStage lead = Spec.next_stage_by_scan lead
  /\ (forall n, 1 <= n <= 4 -> Spec.sent n lead = true ->
      (forall m, n < m <= 4 -> Spec.sent m lead = false) ->
      getCurrentStage lead = ("Day " ++ Spec.numeral n ++ " Sent")%string)
  /\ ((forall n, 1 <= n <= 4 -> Spec.sent n lead = false) ->
      getCurrentStage lead = "Not Started")
  /\ (forall n, 1 <= n <= 4 -> Spec.sent n lead = false ->
      (forall m, 1 <= m < n -> Spec.sent m lead = true) ->
      getNextStage lead = ("Awaiting Day " ++ Spec.numeral n)%string)
  /\ ((forall n, 1 <= n <= 4 -> Spec.sent n lead = true) ->
      getNextStage lead = "Sequence Complete").
Proof.
  split; [apply getCurrentStage_scan|].
  split; [apply getNextStage_scan|].
  repeat split.
  - intros n Hn Hs Hhigher.
    assert (H4 := Hhigher 4). assert (H3 := Hhigher 3). assert (H2 := Hhigher 2).
    unfold getCurrentStage.
    destruct (step_cases n Hn) as [-> | [-> | [-> | ->]]]; cbn [Spec.sent] in *.
    + rewrite H4, H3, H2, Hs by lia. reflexivity.
    + rewrite H4, H3, Hs by lia. reflexivity.
    + rewrite H4, Hs by lia. reflexivity.
    + rewrite Hs. reflexivity.
  - intros Hnone.
    assert (H4 := Hnone 4). assert (H3 := Hnone 3).
    assert (H2 := Hnone 2). assert (H1 := Hnone 1).
    unfold getCurrentStage. cbn [Spec.sent] in *.
    rewrite H4, H3, H2, H1 by lia. reflexivity.
  - intros n Hn Hs Hlower.
    assert (H1 := Hlower 1). assert (H2 := Hlower 2). assert (H3 := Hlower 3).
    unfold getNextStage.
    destruct (step_cases n Hn) as [-> | [-> | [-> | ->]]]; cbn [Spec.sent] in *.
    + rewrite Hs. reflexivity.
    + rewrite H1, Hs by lia. reflexivity.
    + rewrite H1, H2, Hs by lia. reflexivity.
    + rewrite H1, H2, H3, Hs by lia. reflexivity.
  - intros Hall.
    assert (H4 := Hall 4). assert (H3 := Hall 3).
    assert (H2 := Hall 2). assert (H1 := Hall 1).
    unfold getNextStage. cbn [Spec.sent] in *.
    rewrite H1, H2, H3, H4 by lia. reflexivity.
Qed.

(** The gap is reported by position: the current stage is "Day 3 Sent" and
    the next one "Awaiting Day 1"; a lead with nothing sent has not started
    and a lead with all four steps sent has completed the sequence. *)
Lemma stage_inference_scans_witness :
  getCurrentStage gap_lead = "Day 3 Sent"
  /\ getNextStage gap_lead = "Awaiting Day 1"
  /\ getCurrentStage (blank "n") = "Not Started"
  /\ getNextStage (progress "z" true true true true false false)
     = "Sequence Complete".
Proof.
  destruct (stage_inference_scans gap_lead) as (_ & _ & Hcur & _ & Hnext & _).
  destruct (stage_inference_scans (blank "n")) as (_ & _ & _ & Hnone & _ & _).
  destruct (stage_inference_scans (progress "z" true true true true false false))
    as (_ & _ & _ & _ & _ & Hall).
  split; [|split; [|split]].
  - apply (Hcur 3); [lia | reflexivity |].
    intros m Hm. assert (m = 4) as -> by lia. reflexivity.
  - apply (Hnext 1); [lia | reflexivity |].
    intros m Hm. lia.
  - apply Hnone. intros n Hn.
    destruct (step_cases n Hn) as [-> | [-> | [-> | ->]]]; reflexivity.
  - apply Hall. intros n Hn.
    destruct (step_cases n Hn) as [-> | [-> | [-> | ->]]]; reflexivity.
Defined.

(** ** The funnel of the Dashboard *)

Lemma length_filter_how_many {A} (p : A -> bool) (l : list A) :
  List.length (filter p l) = Spec.how_many p l.
Proof.
  induction l as [|x l IH]; cbn; [reflexivity|].
  destruct (p x); cbn; now rewrite IH.
Qed.

Lemma maxCount_denominator (leads : list Lead) :
  Math_max (Spec.reached Spec.day_1 leads)
    [Spec.reached Spec.day_2 leads; Spec.reached Spec.day_3 leads;
     Spec.reached Spec.day_4 leads; Spec.reached Spec.has_replied leads;
     Spec.reached Spec.has_booked leads; 1]
  = Spec.denominator leads.
Proof. unfold Math_max, Spec.denominator. cbn. lia. Qed.

Lemma funnelStages_by_checkpoint (leads : list Lead) :
  Dashboard.funnelStages leads
  = map (fun c =>
           {| Dashboard.name := Spec.label c;
              Dashboard.count := Spec.reached c leads;
              Dashboard.percentage :=
                Spec.ratio_percent (Spec.reached c leads) (Spec.denominator leads) |})
        Spec.checkpoints.
Proof.
  unfold Dashboard.funnelStages.
  rewrite !length_filter_how_many.
  change (Spec.how_many (fun lead => truthy (day_1_sent lead)) leads)
    with (Spec.reached Spec.day_1 leads).
  change (Spec.how_many (fun lead => truthy (day_2_sent lead)) leads)
    with (Spec.reached Spec.day_2 leads).
  change (Spec.how_many (fun lead => truthy (day_3_sent lead)) leads)
    with (Spec.reached Spec.day_3 leads).
  change (Spec.how_many (fun lead => truthy (day_4_sent lead)) leads)
    with (Spec.reached Spec.day_4 leads).
  change (Spec.how_many (fun lead => truthy (replied lead)) leads)
    with (Spec.reached Spec.has_replied leads).
  change (Spec.how_many (fun lead => truthy (booked lead)) leads)
    with (Spec.reached Spec.has_booked leads).
  cbv zeta. rewrite maxCount_denominator. reflexivity.
Qed.

(** C2: the funnel has the six checkpoints in order, each with the number of
    leads whose flag is true and with that count divided by max(all six
    counts, 1), times 100; the divisor is never 0, and on the empty
    collection every count and every percentage is 0. *)
Theorem funnel_counts_and_percentages (leads : list Lead) :
  Dashboard.funnelStages leads
  = map (fun c =>
           {| Dashboard.name := Spec.label c;
              Dashboard.count := Spec.reached c leads;
              Dashboard.percentage :=
                Spec.ratio_percent (Spec.reached c leads) (Spec.denominator leads) |})
        Spec.checkpoints
  /\ 1 <= Spec.denominator leads
  /\ Dashboard.funnelStages []
     = map (fun c =>
              {| Dashboard.name := Spec.label c;
                 Dashboard.count := 0;
                 Dashboard.percentage := 0%float |})
           Spec.checkpoints.
Proof.
  split; [apply funnelStages_by_checkpoint|].
  split; [unfold Spec.denominator; lia | reflexivity].
Qed.

(** Three leads at steps 1, 2 and 3, one reply: the silhouette of the
    funnel is 100, 66.7, 33.3, 0, 33.3 and 0 percent. *)
Example funnel_three_in_progress :
  map Dashboard.count (Dashboard.funnelStages three_in_progress)
  = [3; 2; 1; 0; 1; 0]
  /\ map Dashboard.percentage (Dashboard.funnelStages three_in_progress)
     = [100; 0x1.0aaaaaaaaaaaap+6; 0x1.0aaaaaaaaaaaap+5; 0;
        0x1.0aaaaaaaaaaaap+5; 0]%float.
Proof. split; reflexivity. Qed.

Lemma shown_percentage_ratio (c : Spec.checkpoint) (leads : list Lead) :
  Spec.shown_percentage c leads
  = Spec.ratio_percent (Spec.reached c leads) (Spec.denominator leads).
Proof.
  unfold Spec.shown_percentage. rewrite funnelStages_by_checkpoint.
  destruct c; reflexivity.
Qed.

Lemma denominator_unchanged (leads leads' : list Lead) (i : Spec.checkpoint) :
  (forall k, k <> i -> Spec.reached k leads' = Spec.reached k leads) ->
  Spec.reached i leads < Spec.reached i leads' ->
  Spec.reached i leads' <= Spec.denominator leads ->
  Spec.denominator leads' = Spec.denominator leads.
Proof.
  intros Hothers Hup Hmax.
  assert (H1 := Hothers Spec.day_1). assert (H2 := Hothers Spec.day_2).
  assert (H3 := Hothers Spec.day_3). assert (H4 := Hothers Spec.day_4).
  assert (H5 := Hothers Spec.has_replied). assert (H6 := Hothers Spec.has_booked).
  unfold Spec.denominator in *. cbn [map Spec.checkpoints list_max fold_right] in *.
  destruct i;
    repeat match goal with
           | H : ?a <> ?a -> _ |- _ => clear H
           | H : ?a <> ?b -> _ |- _ =>
               let E := fresh in
               assert (E : a <> b) by discriminate; specialize (H E); clear E
           end; lia.
Qed.

(** C3: a checkpoint's percentage depends on its own count and on the
    shared maximum only; when the count of another checkpoint [i] grows
    without exceeding the maximum of the six counts, the percentage of
    checkpoint [j] stays what it was. *)
Theorem funnel_percentage_shared_maximum
    (leads leads' : list Lead) (i j : Spec.checkpoint) :
  i <> j ->
  (forall k, k <> i -> Spec.reached k leads' = Spec.reached k leads) ->
  Spec.reached i leads < Spec.reached i leads' ->
  Spec.reached i leads' <= Spec.denominator leads ->
  Spec.shown_percentage j leads
  = Spec.ratio_percent (Spec.reached j leads) (Spec.denominator leads)
  /\ Spec.shown_percentage j leads' = Spec.shown_percentage j leads.
Proof.
  intros Hij Hothers Hup Hmax.
  split; [apply shown_percentage_ratio|].
  rewrite !shown_percentage_ratio.
  rewrite (denominator_unchanged leads leads' i Hothers Hup Hmax).
  rewrite (Hothers j) by congruence.
  reflexivity.
Qed.

(** Two leads at step 1; then the first one reaches step 2 as well: the
    count of step 2 grows from 0 to 1, below the maximum 2, and step 1
    keeps its 100 percent. *)
Lemma funnel_percentage_shared_maximum_witness :
  Spec.shown_percentage Spec.day_1
    [progress "a" true true false false false false;
     progress "b" true false false false false false]
  = Spec.shown_percentage Spec.day_1
      [progress "a" true false false false false false;
       progress "b" true false false false false false].
Proof.
  apply (funnel_percentage_shared_maximum
           [progress "a" true false false false false false;
            progress "b" true false false false false false]
           [progress "a" true true false false false false;
            progress "b" true false false false false false]
           Spec.day_2 Spec.day_1).
  - discriminate.
  - intros k Hk. destruct k; try reflexivity. now elim Hk.
  - cbn. lia.
  - cbn. lia.
Defined.

(** ** Facts about [JS.sort] *)

Section SortFacts.

Context {A : Type}.
Variable before : A -> A -> bool.

Lemma insert_permutation (x : A) (l : list A) :
  Permutation (insert before x l) (x :: l).
Proof.
  induction l as [|y l IH]; cbn; [reflexivity|].
  destruct (before x y); [reflexivity|].
  rewrite IH. apply perm_swap.
Qed.

Lemma insert_last (x : A) (l : list A) :
  Forall (fun y => before x y = false) l -> insert before x l = l ++ [x].
Proof.
  induction 1 as [|y l Hy _ IH]; cbn; [reflexivity|].
  now rewrite Hy, IH.
Qed.

Lemma in_order_app_inv (l1 : list A) (x : A) (l2 : list A) :
  Spec.in_order before (l1 ++ x :: l2) -> Forall (fun y => before x y = false) l1.
Proof.
  induction l1 as [|y l1 IH]; cbn; intros H; [constructor|].
  apply StronglySorted_inv in H. destruct H as [Hs Hall].
  constructor; [|now apply IH].
  rewrite Forall_forall in Hall. apply Hall.
  apply in_or_app. right. now left.
Qed.

Hypothesis before_irreflexive : forall x, before x x = false.
Hypothesis before_transitive :
  forall x y z, before x y = true -> before y z = true -> before x z = true.

Lemma before_asymmetric (x y : A) : before x y = true -> before y x = false.
Proof.
  intros Hxy. destruct (before y x) eqn:Hyx; [|reflexivity].
  rewrite <- (before_irreflexive x). symmetry.
  now apply before_transitive with y.
Qed.

Lemma insert_in_order (x : A) (l : list A) :
  Spec.in_order before l -> Spec.in_order before (insert before x l).
Proof.
  induction 1 as [|y l Hs IH Hall]; cbn.
  - constructor; constructor.
  - destruct (before x y) eqn:Hxy.
    + constructor; [now constructor|].
      constructor; [now apply before_asymmetric|].
      rewrite Forall_forall in *. intros z Hz.
      destruct (before z x) eqn:Hzx; [|reflexivity].
      rewrite <- (Hall z Hz). symmetry.
      now apply before_transitive with x.
    + constructor; [exact IH|].
      rewrite Forall_forall in *. intros z Hz.
      apply (Permutation_in _ (insert_permutation x l)) in Hz.
      destruct Hz as [<- | Hz]; [exact Hxy | now apply Hall].
Qed.

End SortFacts.

Section SortByComparator.

Context {A : Type}.
Variable comparefn : A -> A -> number.

Lemma sort_from_permutation (l acc : list A) :
  Permutation
    (fold_left (fun acc x => insert (precedes comparefn) x acc) l acc)
    (acc ++ l).
Proof.
  revert acc. induction l as [|x l IH]; intros acc; cbn.
  - now rewrite app_nil_r.
  - rewrite IH, insert_permutation. apply Permutation_middle.
Qed.

Lemma sort_permutation (l : list A) : Permutation (sort comparefn l) l.
Proof. apply (sort_from_permutation l []). Qed.

Lemma sort_from_fixed (l acc : list A) :
  Spec.in_order (precedes comparefn) (acc ++ l) ->
  fold_left (fun acc x => insert (precedes comparefn) x acc) l acc = acc ++ l.
Proof.
  revert acc. induction l as [|x l IH]; intros acc H; cbn.
  - now rewrite app_nil_r.
  - rewrite insert_last by now apply in_order_app_inv with l.
    rewrite IH; rewrite <- app_assoc; [reflexivity | exact H].
Qed.

(** Sorting a list that is already in order changes nothing. *)
Lemma sort_fixed (l : list A) :
  Spec.in_order (precedes comparefn) l -> sort comparefn l = l.
Proof. apply (sort_from_fixed l []). Qed.

Hypothesis irreflexive : forall x, precedes comparefn x x = false.
Hypothesis transitive :
  forall x y z, precedes comparefn x y = true -> precedes comparefn y z = true ->
                precedes comparefn x z = true.

Lemma sort_from_in_order (l acc : list A) :
  Spec.in_order (precedes comparefn) acc ->
  Spec.in_order (precedes comparefn)
    (fold_left (fun acc x => insert (precedes comparefn) x acc) l acc).
Proof.
  revert acc. induction l as [|x l IH]; intros acc H; cbn; [exact H|].
  apply IH. now apply insert_in_order.
Qed.

Lemma sort_in_order (l : list A) : Spec.in_order (precedes comparefn) (sort comparefn l).
Proof. apply sort_from_in_order. constructor. Qed.

Lemma sort_idempotent (l : list A) :
  sort comparefn (sort comparefn l) = sort comparefn l.
Proof. apply sort_fixed, sort_in_order. Qed.

End SortByComparator.

(** ** The comparator of [sortedLeads] *)

Lemma string_compare_refl (s : string) : String.compare s s = Eq.
Proof.
  induction s as [|c s IH]; cbn; [reflexivity|].
  unfold Ascii.compare. now rewrite N.compare_refl.
Qed.

Lemma string_compare_lt_trans (s t u : string) :
  String.compare s t = Lt -> String.compare t u = Lt -> String.compare s u = Lt.
Proof.
  revert t u. induction s as [|a s IH]; intros [|b t] [|c u]; cbn;
    try easy.
  unfold Ascii.compare.
  destruct (N.compare_spec (N_of_ascii a) (N_of_ascii b)) as [Eab | Lab | Gab];
    destruct (N.compare_spec (N_of_ascii b) (N_of_ascii c)) as [Ebc | Lbc | Gbc];
    try easy; intros H1 H2.
  - rewrite Eab, Ebc, N.compare_refl. now apply IH with t.
  - rewrite Eab. now apply N.compare_lt_iff in Lbc as ->.
  - rewrite <- Ebc. now apply N.compare_lt_iff in Lab as ->.
  - assert (Lac : (N_of_ascii a < N_of_ascii c)%N) by lia.
    now apply N.compare_lt_iff in Lac as ->.
Qed.

Lemma string_ltb_irreflexive (s : string) : String.ltb s s = false.
Proof. unfold String.ltb. now rewrite string_compare_refl. Qed.

Lemma string_ltb_transitive (s t u : string) :
  String.ltb s t = true -> String.ltb t u = true -> String.ltb s u = true.
Proof.
  unfold String.ltb.
  destruct (String.compare s t) eqn:Hst; try discriminate.
  destruct (String.compare t u) eqn:Htu; try discriminate.
  now rewrite (string_compare_lt_trans s t u Hst Htu).
Qed.

Lemma string_ltb_total (x y : string) :
  String.ltb x y = false -> String.ltb y x = false -> x = y.
Proof.
  unfold String.ltb. rewrite (String.compare_antisym y x).
  destruct (String.compare x y) eqn:Hc; cbn; try discriminate.
  intros _ _. now apply String.compare_eq_iff.
Qed.

Lemma boolean_lt_irreflexive (b : bool) : ListView.boolean_lt b b = false.
Proof. now destruct b. Qed.

Lemma boolean_lt_transitive (a b c : bool) :
  ListView.boolean_lt a b = true -> ListView.boolean_lt b c = true ->
  ListView.boolean_lt a c = true.
Proof. now destruct a, b, c. Qed.

Section CompareValues.

Context {V : Type}.
Variable lt : V -> V -> bool.
Hypothesis lt_irreflexive : forall v, lt v v = false.
Hypothesis lt_transitive :
  forall u v w, lt u v = true -> lt v w = true -> lt u w = true.
Variable sortDirection : ListView.direction.

Lemma lt_asymmetric (u v : V) : lt u v = true -> lt v u = false.
Proof.
  intros Huv. destruct (lt v u) eqn:Hvu; [|reflexivity].
  rewrite <- (lt_irreflexive u). symmetry. now apply lt_transitive with v.
Qed.

(** When the comparator answers a negative number. *)
Lemma compareValues_negative (a b : opt V) :
  negative (ListView.compareValues lt sortDirection a b)
  = match a, b with
    | def av, def bv =>
        match sortDirection with
        | ListView.asc => lt av bv
        | ListView.desc => lt bv av
        end
    | def _, _ => true
    | _, _ => false
    end.
Proof.
  destruct a as [| |av], b as [| |bv]; try reflexivity.
  unfold ListView.compareValues.
  destruct (lt av bv) eqn:Hab, (lt bv av) eqn:Hba, sortDirection;
    try reflexivity.
  all: rewrite (lt_asymmetric _ _ Hab) in Hba; discriminate.
Qed.

Lemma compareValues_irreflexive (a : opt V) :
  negative (ListView.compareValues lt sortDirection a a) = false.
Proof.
  rewrite compareValues_negative.
  destruct a as [| |av]; try reflexivity.
  destruct sortDirection; apply lt_irreflexive.
Qed.

Lemma compareValues_transitive (a b c : opt V) :
  negative (ListView.compareValues lt sortDirection a b) = true ->
  negative (ListView.compareValues lt sortDirection b c) = true ->
  negative (ListView.compareValues lt sortDirection a c) = true.
Proof.
  rewrite !compareValues_negative.
  destruct a as [| |av], b as [| |bv], c as [| |cv]; try easy.
  destruct sortDirection; intros H1 H2.
  - now apply lt_transitive with bv.
  - now apply lt_transitive with bv.
Qed.

End CompareValues.

Lemma comparefn_irreflexive (sortColumn : ListView.column)
    (sortDirection : ListView.direction) (x : Lead) :
  precedes (ListView.comparefn sortColumn sortDirection) x x = false.
Proof.
  unfold precedes, ListView.comparefn. destruct sortColumn as [k | k].
  - apply compareValues_irreflexive;
      [apply string_ltb_irreflexive | apply string_ltb_transitive].
  - apply compareValues_irreflexive;
      [apply boolean_lt_irreflexive | apply boolean_lt_transitive].
Qed.

Lemma comparefn_transitive (sortColumn : ListView.column)
    (sortDirection : ListView.direction) (x y z : Lead) :
  precedes (ListView.comparefn sortColumn sortDirection) x y = true ->
  precedes (ListView.comparefn sortColumn sortDirection) y z = true ->
  precedes (ListView.comparefn sortColumn sortDirection) x z = true.
Proof.
  unfold precedes, ListView.comparefn. destruct sortColumn as [k | k].
  - apply compareValues_transitive;
      [apply string_ltb_irreflexive | apply string_ltb_transitive].
  - apply compareValues_transitive;
      [apply boolean_lt_irreflexive | apply boolean_lt_transitive].
Qed.

(** A lead with a value precedes a lead without one, whatever the
    direction. *)
Lemma defined_precedes_missing (sortColumn : ListView.column)
    (sortDirection : ListView.direction) (x y : Lead) :
  ListView.missing sortColumn x = true ->
  ListView.missing sortColumn y = false ->
  precedes (ListView.comparefn sortColumn sortDirection) y x = true.
Proof.
  unfold precedes, ListView.comparefn, ListView.missing.
  destruct sortColumn as [k | k]; intros Hx Hy.
  - destruct (ListView.string_prop k x), (ListView.string_prop k y);
      try discriminate; reflexivity.
  - destruct (ListView.boolean_prop k x), (ListView.boolean_prop k y);
      try discriminate; reflexivity.
Qed.

Lemma sortedLeads_in_order (leads : list Lead) (sortColumn : ListView.column)
    (sortDirection : ListView.direction) :
  Spec.in_order (precedes (ListView.comparefn sortColumn sortDirection))
    (ListView.sortedLeads leads sortColumn sortDirection).
Proof.
  apply sort_in_order;
    [apply comparefn_irreflexive | apply comparefn_transitive].
Qed.

Lemma in_order_later (before : Lead -> Lead -> bool) (pre : list Lead)
    (x : Lead) (post : list Lead) :
  Spec.in_order before (pre ++ x :: post) ->
  Forall (fun y => before y x = false) post.
Proof.
  induction pre as [|z pre IH]; cbn; intros H;
    apply StronglySorted_inv in H; destruct H as [Hs Hall]; auto.
Qed.

(** Whatever produced it, a list in which no lead has to precede an
    earlier one keeps the leads without a value behind those with one. *)
Lemma ordered_missing_last (sortColumn : ListView.column)
    (sortDirection : ListView.direction) (pre : list Lead) (x : Lead)
    (post : list Lead) :
  Spec.in_order (precedes (ListView.comparefn sortColumn sortDirection))
    (pre ++ x :: post) ->
  ListView.missing sortColumn x = true ->
  Forall (fun y => ListView.missing sortColumn y = true) post.
Proof.
  intros Hord Hx. apply in_order_later in Hord.
  rewrite Forall_forall in *. intros y Hy.
  destruct (ListView.missing sortColumn y) eqn:Hmiss; [reflexivity|].
  specialize (Hord y Hy). cbv beta in Hord.
  rewrite (defined_precedes_missing sortColumn sortDirection x y Hx Hmiss) in Hord.
  discriminate.
Qed.

(** C5: in the sorted list, for every sort column and both directions, no
    lead with a value comes after a lead whose value is [null] or
    [undefined]; with exactly one lead lacking [last_updated_at], that lead
    is the last one, ascending and descending alike. *)
Theorem missing_values_sort_last (leads : list Lead)
    (sortColumn : ListView.column) (sortDirection : ListView.direction) :
  (forall pre x post,
      ListView.sortedLeads leads sortColumn sortDirection = pre ++ x :: post ->
      ListView.missing sortColumn x = true ->
      Forall (fun y => ListView.missing sortColumn y = true) post)
  /\ (forall l1 x l2,
         leads = l1 ++ x :: l2 ->
         nullish (last_updated_at x) = true ->
         Forall (fun y => nullish (last_updated_at y) = false) (l1 ++ l2) ->
         exists rest,
           ListView.sortedLeads leads
             (ListView.StringColumn ListView.K_last_updated_at) sortDirection
           = rest ++ [x]
           /\ Permutation rest (l1 ++ l2)).
Proof.
  assert (Hlast : forall col pre x post,
             ListView.sortedLeads leads col sortDirection = pre ++ x :: post ->
             ListView.missing col x = true ->
             Forall (fun y => ListView.missing col y = true) post).
  { intros col pre x post Hsplit Hx.
    apply (ordered_missing_last col sortDirection pre x post); [|exact Hx].
    rewrite <- Hsplit. apply sortedLeads_in_order. }
  split; [apply Hlast|].
  intros l1 x l2 -> Hx Hdefined.
  set (col := ListView.StringColumn ListView.K_last_updated_at).
  pose proof (sort_permutation (ListView.comparefn col sortDirection)
                (l1 ++ x :: l2)) as Hperm.
  fold (ListView.sortedLeads (l1 ++ x :: l2) col sortDirection) in Hperm.
  assert (Hin : In x (ListView.sortedLeads (l1 ++ x :: l2) col sortDirection)).
  { apply (Permutation_in _ (Permutation_sym Hperm)).
    apply in_or_app. right. now left. }
  apply in_split in Hin. destruct Hin as (pre & post & Hsplit).
  rewrite Hsplit in Hperm. apply Permutation_app_inv in Hperm.
  pose proof (Hlast col pre x post Hsplit Hx) as Hpost.
  destruct post as [|y post].
  - exists pre. split; [exact Hsplit|]. now rewrite app_nil_r in Hperm.
  - exfalso. apply Forall_inv in Hpost.
    rewrite Forall_forall in Hdefined.
    assert (Hy : In y (l1 ++ l2)).
    { apply (Permutation_in _ Hperm). apply in_or_app. right. now left. }
    apply Hdefined in Hy. cbn in Hpost. congruence.
Qed.

(** Three leads, the second without a timestamp: it closes the descending
    list.  Four leads, two of them without a timestamp: ascending, the two
    come last. *)
Lemma missing_values_sort_last_witness :
  (exists rest,
      ListView.sortedLeads three_updates
        (ListView.StringColumn ListView.K_last_updated_at) ListView.desc
      = rest ++ [updated "b" null]
      /\ Permutation rest
           ([updated "a" (def "2024-05-02T10:00:00.000Z")]
            ++ [updated "c" (def "2024-05-03T08:30:00.000Z")]))
  /\ Forall
       (fun y =>
          ListView.missing (ListView.StringColumn ListView.K_last_updated_at) y
          = true)
       [updated "d" undefined].
Proof.
  split.
  - apply (proj2 (missing_values_sort_last three_updates
                    (ListView.StringColumn ListView.K_last_updated_at)
                    ListView.desc)
             [updated "a" (def "2024-05-02T10:00:00.000Z")]
             (updated "b" null)
             [updated "c" (def "2024-05-03T08:30:00.000Z")]).
    + reflexivity.
    + reflexivity.
    + repeat constructor.
  - apply (proj1 (missing_values_sort_last four_updates
                    (ListView.StringColumn ListView.K_last_updated_at)
                    ListView.asc)
             [updated "a" (def "2024-05-02T10:00:00.000Z");
              updated "c" (def "2024-05-03T08:30:00.000Z")]
             (updated "b" null)
             [updated "d" undefined]).
    + reflexivity.
    + reflexivity.
Defined.

(** The same three leads, sorted by [last_updated_at] both ways. *)
Example three_updates_sorted :
  map id (ListView.sortedLeads three_updates
            (ListView.StringColumn ListView.K_last_updated_at) ListView.desc)
  = ["c"; "a"; "b"]%string
  /\ map id (ListView.sortedLeads three_updates
               (ListView.StringColumn ListView.K_last_updated_at) ListView.asc)
     = ["a"; "c"; "b"]%string.
Proof. split; reflexivity. Qed.

(** ** The pipeline *)

Lemma filter_all {A} (p : A -> bool) (l : list A) :
  Forall (fun x => p x = true) l -> filter p l = l.
Proof.
  induction 1 as [|x l Hx _ IH]; cbn; [reflexivity|].
  now rewrite Hx, IH.
Qed.

Lemma filteredLeads_unconstrained (leads : list Lead) :
  ListView.filteredLeads leads EmptyString ListView.no_filters
  = leads.
Proof.
  unfold ListView.filteredLeads. apply filter_all.
  apply Forall_forall. intros lead _. reflexivity.
Qed.

Lemma replies_filteredLeads_unconstrained (leads : list Lead) :
  RepliesEngagement.filteredLeads leads EmptyString RepliesEngagement.no_filters
  = leads.
Proof.
  unfold RepliesEngagement.filteredLeads. apply filter_all.
  apply Forall_forall. intros lead _. reflexivity.
Qed.

(** C6: with an empty search term and every field filter empty, search and
    filter keep the list as it is, so the rendered page is the page of the
    sorted list, for every sort column, direction, page size and page
    index; in the Replies view, which does not sort, it is the page of the
    list itself. *)
Theorem unconstrained_pipeline (leads : list Lead)
    (sortColumn : ListView.column) (sortDirection : ListView.direction)
    (currentPage : Z) (leadsPerPage : nat) :
  ListView.filteredLeads leads EmptyString ListView.no_filters
  = leads
  /\ ListView.page leads EmptyString ListView.no_filters
       sortColumn sortDirection currentPage leadsPerPage
     = ListView.currentLeads (ListView.sortedLeads leads sortColumn sortDirection)
         currentPage leadsPerPage
  /\ RepliesEngagement.page leads EmptyString RepliesEngagement.no_filters
       currentPage
     = ListView.currentLeads leads currentPage RepliesEngagement.leadsPerPage.
Proof.
  unfold ListView.page, RepliesEngagement.page.
  rewrite filteredLeads_unconstrained, replies_filteredLeads_unconstrained.
  repeat split.
Qed.

Lemma filteredLeads_fixed (leads : list Lead) (searchTerm : string)
    (filters : ListView.Filters) (l : list Lead) :
  Permutation l (ListView.filteredLeads leads searchTerm filters) ->
  ListView.filteredLeads l searchTerm filters = l.
Proof.
  intros Hperm. unfold ListView.filteredLeads at 1. apply filter_all.
  apply Forall_forall. intros lead Hin.
  apply (Permutation_in _ Hperm) in Hin.
  unfold ListView.filteredLeads in Hin. now apply filter_In in Hin.
Qed.

(** In the order of [JS.sort], that of an engine which moves a later lead
    in front of an earlier one only when [comparefn(later, earlier) < 0],
    running search, filter and sort on their own result gives that result
    again on every list, leads without the value included: such an engine
    never asks for two of them the other way round. *)
Lemma pipeline_idempotent_asking_later_first (leads : list Lead)
    (searchTerm : string) (filters : ListView.Filters)
    (sortColumn : ListView.column) (sortDirection : ListView.direction) :
  let pipeline := fun l =>
    ListView.sortedLeads (ListView.filteredLeads l searchTerm filters)
      sortColumn sortDirection in
  pipeline (pipeline leads) = pipeline leads.
Proof.
  cbv beta zeta.
  rewrite (filteredLeads_fixed leads searchTerm filters)
    by apply sort_permutation.
  apply sort_idempotent;
    [apply comparefn_irreflexive | apply comparefn_transitive].
Qed.

(** ** The sort order, whatever the engine *)

Lemma in_order_app {A} (before : A -> A -> bool) (l1 l2 : list A) :
  Spec.in_order before (l1 ++ l2)
  <-> Spec.in_order before l1
      /\ Spec.in_order before l2
      /\ Forall (fun a => Forall (fun b => before b a = false) l2) l1.
Proof.
  unfold Spec.in_order. induction l1 as [|x l1 IH]; cbn.
  - split; [intros H; repeat split; [constructor | exact H | constructor]
           | now intros (_ & H & _)].
  - split.
    + intros H. apply StronglySorted_inv in H. destruct H as [Hs Hall].
      apply IH in Hs. destruct Hs as (H1 & H2 & Hcross).
      apply Forall_app in Hall. destruct Hall as [Ha1 Ha2].
      repeat split; [now constructor | exact H2 | now constructor].
    + intros (H1 & H2 & Hcross).
      apply StronglySorted_inv in H1. destruct H1 as [Hs Hall].
      apply Forall_cons_iff in Hcross. destruct Hcross as [Hx Hcross].
      constructor; [apply IH; now repeat split|].
      apply Forall_app. now split.
Qed.

Lemma filter_none {A} (p : A -> bool) (l : list A) :
  Forall (fun x => p x = false) l -> filter p l = [].
Proof.
  induction 1 as [|x l Hx _ IH]; cbn; [reflexivity|]. now rewrite Hx.
Qed.

Section ConsistentComparator.

Context {A : Type}.
Variable comparefn : A -> A -> number.
Variable elements : list A.
Hypothesis comparefn_consistent : SortOrder.consistent comparefn elements.


Lemma less_irreflexive (a : A) :
  In a elements -> precedes comparefn a a = false.
Proof.
  intros Ha. destruct (comparefn_consistent a a a Ha Ha Ha) as (Hrefl & _).
  unfold SortOrder.equal in Hrefl. apply andb_prop in Hrefl as [H _].
  now apply negb_true_iff in H.
Qed.

Lemma less_transitive (a b c : A) :
  In a elements -> In b elements -> In c elements ->
  precedes comparefn a b = true ->
  precedes comparefn b c = true ->
  precedes comparefn a c = true.
Proof.
  intros Ha Hb Hc.
  now destruct (comparefn_consistent a b c Ha Hb Hc) as (_ & _ & _ & H & _).
Qed.

Lemma less_not_equal (a b : A) :
  precedes comparefn a b = true -> SortOrder.equal comparefn a b = false.
Proof.
  intros H. unfold SortOrder.equal. now rewrite H.
Qed.

Lemma greater_not_equal (a b : A) :
  SortOrder.greater comparefn a b = true ->
  SortOrder.equal comparefn a b = false.
Proof.
  intros H. unfold SortOrder.equal. rewrite H.
  apply andb_false_r.
Qed.

Lemma trichotomy (a b : A) :
  precedes comparefn a b = true
  \/ SortOrder.equal comparefn a b = true
  \/ SortOrder.greater comparefn a b = true.
Proof.
  unfold SortOrder.equal.
  destruct (precedes comparefn a b); [now left|].
  destruct (SortOrder.greater comparefn a b); [now right; right|].
  right; left; reflexivity.
Qed.

Lemma less_greater (a b : A) :
  In a elements ->
  In b elements ->
  precedes comparefn a b = true ->
  SortOrder.greater comparefn b a = true.
Proof.
  intros Ha Hb Hab.
  destruct (trichotomy b a) as [Hba | [Hba | Hba]]; [| |exact Hba].
  - pose proof (less_transitive a b a Ha Hb Ha Hab Hba) as H.
    rewrite (less_irreflexive a Ha) in H. discriminate.
  - destruct (comparefn_consistent b a a Hb Ha Ha) as (_ & Hsym & _).
    apply Hsym in Hba. rewrite (less_not_equal a b Hab) in Hba. discriminate.
Qed.

Lemma greater_less (a b : A) :
  In a elements ->
  In b elements ->
  SortOrder.greater comparefn a b = true ->
  precedes comparefn b a = true.
Proof.
  intros Ha Hb Hab.
  destruct (trichotomy b a) as [Hba | [Hba | Hba]]; [exact Hba| |].
  - destruct (comparefn_consistent b a a Hb Ha Ha) as (_ & Hsym & _).
    apply Hsym in Hba. rewrite (greater_not_equal a b Hab) in Hba. discriminate.
  - destruct (comparefn_consistent a b a Ha Hb Ha)
      as (Hrefl & _ & _ & _ & Htrans).
    pose proof (Htrans Hab Hba) as H.
    rewrite (greater_not_equal a a H) in Hrefl. discriminate.
Qed.

Lemma less_asymmetric (a b : A) :
  In a elements ->
  In b elements ->
  precedes comparefn a b = true ->
  precedes comparefn b a = false.
Proof.
  intros Ha Hb Hab. destruct (precedes comparefn b a) eqn:Hba; [|reflexivity].
  pose proof (less_transitive a b a Ha Hb Ha Hab Hba) as H.
  rewrite (less_irreflexive a Ha) in H. discriminate.
Qed.

Lemma equal_unordered (a b : A) :
  In a elements -> In b elements ->
  SortOrder.equal comparefn a b = true
  <-> precedes comparefn a b = false /\ precedes comparefn b a = false.
Proof.
  intros Ha Hb. split.
  - intros Heq. split.
    + destruct (precedes comparefn a b) eqn:H; [|reflexivity].
      rewrite (less_not_equal a b H) in Heq. discriminate.
    + destruct (precedes comparefn b a) eqn:H; [|reflexivity].
      apply (less_greater b a Hb Ha) in H.
      rewrite (greater_not_equal a b H) in Heq. discriminate.
  - intros [Hab Hba].
    destruct (trichotomy a b) as [H | [H | H]]; [congruence | exact H |].
    apply (greater_less a b Ha Hb) in H. congruence.
Qed.

Lemma equal_symmetric (a b : A) :
  In a elements ->
  In b elements ->
  SortOrder.equal comparefn a b = true ->
  SortOrder.equal comparefn b a = true.
Proof.
  intros Ha Hb.
  now destruct (comparefn_consistent a b a Ha Hb Ha) as (_ & H & _).
Qed.

Lemma equal_transitive (a b c : A) :
  In a elements -> In b elements -> In c elements ->
  SortOrder.equal comparefn a b = true ->
  SortOrder.equal comparefn b c = true ->
  SortOrder.equal comparefn a c = true.
Proof.
  intros Ha Hb Hc.
  now destruct (comparefn_consistent a b c Ha Hb Hc) as (_ & _ & H & _).
Qed.

Lemma less_equal (a b c : A) :
  In a elements -> In b elements -> In c elements ->
  precedes comparefn a b = true ->
  SortOrder.equal comparefn b c = true ->
  precedes comparefn a c = true.
Proof.
  intros Ha Hb Hc Hab Hbc.
  destruct (trichotomy a c) as [H | [H | H]]; [exact H | |].
  - apply (equal_symmetric b c Hb Hc) in Hbc.
    pose proof (equal_transitive a c b Ha Hc Hb H Hbc) as Heq.
    rewrite (less_not_equal a b Hab) in Heq. discriminate.
  - apply (greater_less a c Ha Hc) in H.
    pose proof (less_transitive c a b Hc Ha Hb H Hab) as Hcb.
    apply (equal_unordered b c Hb Hc) in Hbc. destruct Hbc. congruence.
Qed.

Lemma equal_less (a b c : A) :
  In a elements -> In b elements -> In c elements ->
  SortOrder.equal comparefn a b = true ->
  precedes comparefn b c = true ->
  precedes comparefn a c = true.
Proof.
  intros Ha Hb Hc Hab Hbc.
  destruct (trichotomy a c) as [H | [H | H]]; [exact H | |].
  - apply (equal_symmetric a b Ha Hb) in Hab.
    pose proof (equal_transitive b a c Hb Ha Hc Hab H) as Heq.
    rewrite (less_not_equal b c Hbc) in Heq. discriminate.
  - apply (greater_less a c Ha Hc) in H.
    pose proof (less_transitive b c a Hb Hc Ha Hbc H) as Hba.
    apply (equal_unordered a b Ha Hb) in Hab. destruct Hab. congruence.
Qed.


Lemma put_in_permutation (x : A) (placed result : list A) :
  SortOrder.put_in comparefn x placed result ->
  Permutation result (placed ++ [x]).
Proof.
  intros (pre & post & -> & -> & _).
  rewrite <- app_assoc. apply Permutation_app_head.
  change (x :: post) with ([x] ++ post). apply Permutation_app_comm.
Qed.

Lemma put_in_order (x : A) (placed result : list A) :
  incl (x :: placed) elements ->
  Spec.in_order (precedes comparefn) placed ->
  SortOrder.put_in comparefn x placed result ->
  Spec.in_order (precedes comparefn) result.
Proof.
  intros Hincl Hord (pre & post & -> & -> & Hpre & Hpost).
  apply in_order_app in Hord. destruct Hord as (Hs1 & Hs2 & Hcross).
  apply in_order_app. split; [exact Hs1|]. split.
  - constructor; [exact Hs2|].
    rewrite Forall_forall in *. intros z Hz.
    apply less_asymmetric; [apply Hincl; now left | | now apply Hpost].
    apply Hincl. right. apply in_or_app. now right.
  - rewrite Forall_forall in *. intros a Ha.
    constructor; [now apply Hpre | now apply Hcross].
Qed.

Lemma put_in_stable (x : A) (placed result : list A) (a : A) :
  In a elements ->
  incl (x :: placed) elements ->
  SortOrder.put_in comparefn x placed result ->
  filter (SortOrder.equal comparefn a) result
  = filter (SortOrder.equal comparefn a) (placed ++ [x]).
Proof.
  intros Ha Hincl (pre & post & -> & -> & _ & Hpost).
  rewrite <- app_assoc, !filter_app. f_equal. cbn [filter].
  destruct (SortOrder.equal comparefn a x) eqn:Hax; [|now rewrite app_nil_r].
  assert (Hnone : filter (SortOrder.equal comparefn a) post = []).
  { apply filter_none. rewrite Forall_forall in *. intros z Hz.
    apply less_not_equal.
    apply (equal_less a x z); auto.
    - apply Hincl. now left.
    - apply Hincl. right. apply in_or_app. now right. }
  now rewrite Hnone.
Qed.

Lemma insert_put_in (x : A) (placed : list A) :
  incl (x :: placed) elements ->
  Spec.in_order (precedes comparefn) placed ->
  SortOrder.put_in comparefn x placed (insert (precedes comparefn) x placed).
Proof.
  induction placed as [|y l IH]; intros Hincl Hord; cbn [insert].
  - exists [], []. repeat split; constructor.
  - assert (Hx : In x elements) by (apply Hincl; now left).
    assert (Hy : In y elements) by (apply Hincl; right; now left).
    apply StronglySorted_inv in Hord. destruct Hord as [Hl Hall].
    destruct (precedes comparefn x y) eqn:Hxy.
    + exists [], (y :: l). repeat split; [constructor|].
      constructor; [exact Hxy|].
      rewrite Forall_forall in *. intros z Hz.
      assert (Hzin : In z elements) by (apply Hincl; right; now right).
      specialize (Hall z Hz). cbv beta in Hall.
      destruct (precedes comparefn y z) eqn:Hyz.
      * now apply (less_transitive x y z).
      * apply (less_equal x y z); auto. now apply equal_unordered.
    + destruct IH as (pre & post & Hsplit & Hres & Hpre & Hpost); [|exact Hl|].
      { intros z [<- | Hz]; apply Hincl; [now left | right; now right]. }
      exists (y :: pre), post. rewrite Hres, Hsplit.
      repeat split; [|exact Hpost]. now constructor.
Qed.



Section Insertion.

Variable step : A -> list A -> list A.
Hypothesis step_puts_in :
  forall x placed,
    incl (x :: placed) elements ->
    Spec.in_order (precedes comparefn) placed ->
    SortOrder.put_in comparefn x placed (step x placed).

Lemma insertion_sorts (l placed : list A) :
  incl (placed ++ l) elements ->
  Spec.in_order (precedes comparefn) placed ->
  Spec.in_order (precedes comparefn)
    (fold_left (fun acc x => step x acc) l placed)
  /\ forall a, In a elements ->
       filter (SortOrder.equal comparefn a)
         (fold_left (fun acc x => step x acc) l placed)
       = filter (SortOrder.equal comparefn a) (placed ++ l).
Proof.
  revert placed.
  induction l as [|x l IH]; intros placed Hincl Hord; cbn [fold_left].
  - rewrite app_nil_r. now split.
  - assert (Hxp : incl (x :: placed) elements).
    { intros z [<- | Hz]; apply Hincl, in_or_app;
        [right; now left | now left]. }
    pose proof (step_puts_in x placed Hxp Hord) as Hput.
    destruct (IH (step x placed)) as [Hs Hf].
    + intros z Hz. apply in_app_or in Hz. destruct Hz as [Hz | Hz].
      * apply (Permutation_in _ (put_in_permutation _ _ _ Hput)) in Hz.
        apply Hincl. apply in_app_or in Hz.
        destruct Hz as [Hz | [<- | []]]; apply in_or_app;
          [now left | right; now left].
      * apply Hincl, in_or_app. right. now right.
    + now apply put_in_order with x placed.
    + split; [exact Hs|]. intros a Ha. rewrite (Hf a Ha), !filter_app.
      rewrite (put_in_stable x placed _ a Ha Hxp Hput), filter_app.
      rewrite <- app_assoc. f_equal. cbn [filter app].
      now destruct (SortOrder.equal comparefn a x).
Qed.

End Insertion.


End ConsistentComparator.

Lemma sort_conforming {A : Type} : SortOrder.conforming (@sort A).
Proof.
  intros comparefn l. split; [apply sort_permutation|]. intros Hcons.
  destruct (insertion_sorts comparefn l Hcons
              (fun x acc => insert (precedes comparefn) x acc)
              (insert_put_in comparefn l Hcons) l [])
    as [Hs Hf]; [apply incl_refl | constructor |].
  split; [apply sort_permutation|]. split; [exact Hs | exact Hf].
Qed.






Section CompareDefined.

Context {V : Type}.
Variable lt : V -> V -> bool.
Hypothesis lt_irreflexive : forall v, lt v v = false.
Hypothesis lt_transitive :
  forall u v w, lt u v = true -> lt v w = true -> lt u w = true.
Hypothesis lt_total : forall u v, lt u v = false -> lt v u = false -> u = v.
Variable sortDirection : ListView.direction.

(** When the comparator answers a positive number. *)
Lemma compareValues_positive (a b : opt V) :
  SortOrder.positive (ListView.compareValues lt sortDirection a b)
  = match a, b with
    | def av, def bv =>
        match sortDirection with
        | ListView.asc => lt bv av
        | ListView.desc => lt av bv
        end
    | def _, _ => false
    | _, _ => true
    end.
Proof.
  destruct a as [| |av], b as [| |bv]; try reflexivity.
  unfold ListView.compareValues.
  destruct (lt av bv) eqn:Hab, (lt bv av) eqn:Hba, sortDirection;
    try reflexivity.
  all: rewrite (lt_asymmetric lt lt_irreflexive lt_transitive _ _ Hab) in Hba;
    discriminate.
Qed.

(** Among leads that all have the value, the comparator is consistent. *)
Lemma compareValues_consistent {A : Type} (value : A -> opt V) (l : list A) :
  Forall (fun x => nullish (value x) = false) l ->
  SortOrder.consistent
    (fun a b => ListView.compareValues lt sortDirection (value a) (value b)) l.
Proof.
  intros Hdefined a b c Ha Hb Hc. rewrite Forall_forall in Hdefined.
  unfold SortOrder.equal, SortOrder.greater, precedes.
  rewrite !(compareValues_negative lt lt_irreflexive lt_transitive),
    !compareValues_positive.
  pose proof (Hdefined a Ha) as Da. pose proof (Hdefined b Hb) as Db.
  pose proof (Hdefined c Hc) as Dc.
  destruct (value a) as [| |av]; try discriminate.
  destruct (value b) as [| |bv]; try discriminate.
  destruct (value c) as [| |cv]; try discriminate.
  assert (Hsame : forall u v, negb (lt u v) && negb (lt v u) = true <-> u = v).
  { intros u v. split.
    - intros H. apply andb_prop in H as [H1 H2].
      apply negb_true_iff in H1, H2. now apply lt_total.
    - intros ->. now rewrite lt_irreflexive. }
  destruct sortDirection.
  - rewrite !Hsame. repeat split; try congruence.
    + apply lt_transitive.
    + intros H1 H2. now apply lt_transitive with bv.
  - rewrite !Hsame. repeat split; try congruence.
    + intros H1 H2. now apply lt_transitive with bv.
    + apply lt_transitive.
Qed.

End CompareDefined.

Lemma boolean_lt_total (a b : bool) :
  ListView.boolean_lt a b = false -> ListView.boolean_lt b a = false -> a = b.
Proof. now destruct a, b. Qed.

Lemma comparefn_consistent (sortColumn : ListView.column)
    (sortDirection : ListView.direction) (l : list Lead) :
  Forall (fun lead => ListView.missing sortColumn lead = false) l ->
  SortOrder.consistent (ListView.comparefn sortColumn sortDirection) l.
Proof.
  destruct sortColumn as [k | k]; intros Hdefined.
  - apply (compareValues_consistent String.ltb string_ltb_irreflexive
             string_ltb_transitive string_ltb_total sortDirection
             (ListView.string_prop k) l Hdefined).
  - apply (compareValues_consistent ListView.boolean_lt boolean_lt_irreflexive
             boolean_lt_transitive boolean_lt_total sortDirection
             (ListView.boolean_prop k) l Hdefined).
Qed.




(** [sortedLeads] is the pipeline's sort in the order of [JS.sort], which is
    one of the orders an engine may give. *)
Lemma pipeline_of_sortedLeads (leads : list Lead) (searchTerm : string)
    (filters : ListView.Filters) (sortColumn : ListView.column)
    (sortDirection : ListView.direction) :
  SortOrder.conforming (@sort Lead)
  /\ SortOrder.pipeline sort leads searchTerm filters sortColumn sortDirection
     = ListView.sortedLeads (ListView.filteredLeads leads searchTerm filters)
         sortColumn sortDirection.
Proof.
  split; [apply sort_conforming | reflexivity].
Qed.

(** ** Pagination *)

Lemma Math_ceil_div_bounds (a b : Z) :
  (0 < b)%Z ->
  ((Math_ceil_div a b - 1) * b < a <= Math_ceil_div a b * b)%Z.
Proof.
  intros Hb. unfold Math_ceil_div.
  pose proof (Z.div_mod (- a) b) as Hdiv.
  pose proof (Z.mod_pos_bound (- a) b Hb) as Hmod.
  nia.
Qed.

Lemma slice_nth_error {A} (l : list A) (start end_ : Z) (i : nat) :
  (0 <= start <= end_)%Z ->
  nth_error (slice start end_ l) i
  = if (i <? Z.to_nat (end_ - start))%nat
    then nth_error l (Z.to_nat start + i)
    else None.
Proof.
  intros Hrange. unfold slice.
  destruct (Z.ltb_spec start 0) as [Hneg | _]; [lia|].
  destruct (Z.ltb_spec end_ 0) as [Hneg | _]; [lia|].
  rewrite nth_error_firstn, nth_error_skipn.
  set (len := Z.of_nat (List.length l)).
  destruct (Nat.ltb_spec i (Z.to_nat (Z.min end_ len - Z.min start len)))
    as [Hin | Hout].
  - destruct (Nat.ltb_spec i (Z.to_nat (end_ - start))) as [_ | Hge]; [|lia].
    f_equal. lia.
  - destruct (Nat.ltb_spec i (Z.to_nat (end_ - start))) as [Hlt | _];
      [|reflexivity].
    symmetry. apply nth_error_None. subst len. lia.
Qed.

Lemma slice_beyond {A} (l : list A) (start end_ : Z) :
  (Z.of_nat (List.length l) <= start <= end_)%Z -> slice start end_ l = [].
Proof.
  intros Hrange. unfold slice.
  destruct (Z.ltb_spec start 0) as [Hneg | _]; [lia|].
  destruct (Z.ltb_spec end_ 0) as [Hneg | _]; [lia|].
  replace (Z.min end_ (Z.of_nat (List.length l))
           - Z.min start (Z.of_nat (List.length l)))%Z with 0%Z by lia.
  reflexivity.
Qed.

(** C8: for the page size of the view (20 on Replies, 25 elsewhere) the page
    count is the ceiling of n / pageSize, page p >= 1 holds the leads at the
    indices from (p - 1) * pageSize up to p * pageSize, and a page whose
    first index is n or more is the empty list. *)
Theorem pagination_contract (sorted : list Lead) (leadsPerPage : nat) (p : Z) :
  leadsPerPage = RepliesEngagement.leadsPerPage
  \/ leadsPerPage = ActiveCampaigns.leadsPerPage ->
  (1 <= p)%Z ->
  let n := Z.of_nat (List.length sorted) in
  let pageSize := Z.of_nat leadsPerPage in
  RepliesEngagement.leadsPerPage = 20
  /\ ActiveCampaigns.leadsPerPage = 25
  /\ ((ListView.totalPages sorted leadsPerPage - 1) * pageSize < n
      <= ListView.totalPages sorted leadsPerPage * pageSize)%Z
  /\ (forall i,
         nth_error (ListView.currentLeads sorted p leadsPerPage) i
         = if (i <? leadsPerPage)%nat
           then nth_error sorted (Z.to_nat ((p - 1) * pageSize) + i)
           else None)
  /\ ((n <= (p - 1) * pageSize)%Z ->
      ListView.currentLeads sorted p leadsPerPage = []).
Proof.
  intros Hsize Hp n pageSize.
  assert (Hpos : (0 < pageSize)%Z).
  { subst pageSize.
    destruct Hsize as [-> | ->];
      unfold RepliesEngagement.leadsPerPage, ActiveCampaigns.leadsPerPage; lia. }
  split; [reflexivity|]. split; [reflexivity|].
  split; [apply Math_ceil_div_bounds, Hpos|].
  unfold ListView.currentLeads. fold pageSize.
  split.
  - intros i. rewrite slice_nth_error by nia.
    replace (Z.to_nat (p * pageSize - (p * pageSize - pageSize))) with leadsPerPage
      by (subst pageSize; lia).
    replace (p * pageSize - pageSize)%Z with ((p - 1) * pageSize)%Z by lia.
    reflexivity.
  - intros Hbeyond. apply slice_beyond. fold n. nia.
Qed.

(** Forty-five leads in pages of 20: three pages, the third one holding
    the five leads from index 40 on, and nothing on a fourth page. *)
Lemma pagination_contract_witness :
  ListView.totalPages forty_five 20 = 3%Z
  /\ map id (ListView.currentLeads forty_five 3 20)
     = map id (firstn 20 (skipn 40 forty_five))
  /\ ListView.currentLeads forty_five 4 20 = [].
Proof.
  destruct (pagination_contract forty_five 20 4 (or_introl eq_refl) ltac:(lia))
    as (_ & _ & _ & _ & Hempty).
  split; [reflexivity|]. split; [reflexivity|].
  apply Hempty. vm_compute. discriminate.
Defined.

(** ** The toggles *)

Lemma has_delete (s : list string) (x : string) : has (delete s x) x = false.
Proof.
  unfold has, delete. induction s as [|y s IH]; cbn; [reflexivity|].
  destruct (String.eqb_spec y x) as [-> | Hne]; cbn; [exact IH|].
  rewrite IH. destruct (String.eqb_spec x y) as [-> | _]; [now elim Hne | reflexivity].
Qed.

Lemma filter_without (x : string) (l : list Lead) :
  Spec.without x l (filter (fun lead => negb (id lead =? x)) l).
Proof.
  induction l as [|lead l IH]; cbn; [constructor|].
  destruct (String.eqb_spec (id lead) x) as [Heq | Hne]; cbn.
  - now apply Spec.without_drop.
  - now apply Spec.without_keep.
Qed.

(** The state a toggle leaves behind, in terms of the update it sends. *)
Lemma onClick_outcome (now : nat -> string)
    (respond : string -> Toggle.UpdateData -> option Toggle.Thrown)
    (t : Toggle.toggle) (leadId : string) (s : Toggle.State) :
  exists updateData,
    Spec.carried_value t updateData = def (Spec.toggled_value t)
    /\ Toggle.u_last_updated_at updateData = def (now (Toggle.clock_reads s))
    /\ Toggle.u_booked_at updateData
       = match Spec.toggled_field t, Spec.toggled_value t with
         | Toggle.booked_field, true => def (now (S (Toggle.clock_reads s)))
         | Toggle.booked_field, false => null
         | Toggle.replied_field, _ => undefined
         end
    /\ Toggle.after (Toggle.onClick now respond t leadId) s
       = {| Toggle.leads :=
              match respond leadId updateData with
              | None => filter (fun lead => negb (id lead =? leadId)) (Toggle.leads s)
              | Some _ => Toggle.leads s
              end;
            Toggle.error :=
              match respond leadId updateData with
              | None => Toggle.error s
              | Some e =>
                  Some (if Toggle.instanceofError e then Toggle.message e
                        else Spec.fallback_message t)
              end;
            Toggle.updatingLeads := delete (add (Toggle.updatingLeads s) leadId) leadId;
            Toggle.clock_reads :=
              match Spec.toggled_field t, Spec.toggled_value t with
              | Toggle.booked_field, true => S (S (Toggle.clock_reads s))
              | _, _ => S (Toggle.clock_reads s)
              end;
            Toggle.requests := Toggle.requests s ++ [Toggle.Update leadId updateData] |}.
Proof.
  destruct t;
    [ exists {| Toggle.u_replied := def true; Toggle.u_booked := undefined;
                Toggle.u_booked_at := undefined;
                Toggle.u_last_updated_at := def (now (Toggle.clock_reads s)) |}
    | exists {| Toggle.u_replied := undefined; Toggle.u_booked := def true;
                Toggle.u_booked_at := def (now (S (Toggle.clock_reads s)));
                Toggle.u_last_updated_at := def (now (Toggle.clock_reads s)) |}
    | exists {| Toggle.u_replied := def false; Toggle.u_booked := undefined;
                Toggle.u_booked_at := undefined;
                Toggle.u_last_updated_at := def (now (Toggle.clock_reads s)) |}
    | exists {| Toggle.u_replied := undefined; Toggle.u_booked := def true;
                Toggle.u_booked_at := def (now (S (Toggle.clock_reads s)));
                Toggle.u_last_updated_at := def (now (Toggle.clock_reads s)) |}
    | exists {| Toggle.u_replied := undefined; Toggle.u_booked := def false;
                Toggle.u_booked_at := null;
                Toggle.u_last_updated_at := def (now (Toggle.clock_reads s)) |} ];
    (split; [reflexivity|]); (split; [reflexivity|]); (split; [reflexivity|]);
    unfold Toggle.after, Toggle.onClick, Toggle.updateLeadStatus,
      Toggle.updateBookedStatus, Toggle.try_catch_finally, Toggle.bind,
      Toggle.setUpdatingLeads, Toggle.newDateISOString,
      Toggle.supabase_update, Toggle.setLeads, Toggle.setError,
      Toggle.throw, Toggle.ret;
    cbn;
    match goal with
    | |- context [respond ?i ?d] => destruct (respond i d)
    end; reflexivity.
Qed.

(** C9: a toggle sends one update and nothing else: it carries the field
    value and a fresh [last_updated_at]; [booked_at] is a fresh clock reading
    when booked is set and [null] when booked is cleared.  When the update
    succeeds the leads of that id leave the local list; when it fails the
    list is as before and the error message is stored.  Either way the id
    is no longer in flight afterwards. *)
Theorem toggle_update_contract (now : nat -> string)
    (respond : string -> Toggle.UpdateData -> option Toggle.Thrown)
    (t : Toggle.toggle) (leadId : string) (s : Toggle.State) :
  let s' := Toggle.after (Toggle.onClick now respond t leadId) s in
  exists updateData,
    Toggle.requests s' = Toggle.requests s ++ [Toggle.Update leadId updateData]
    /\ Spec.carried_value t updateData = def (Spec.toggled_value t)
    /\ Toggle.u_last_updated_at updateData = def (now (Toggle.clock_reads s))
    /\ (Spec.toggled_field t = Toggle.booked_field ->
        Spec.toggled_value t = true ->
        Toggle.u_booked_at updateData = def (now (S (Toggle.clock_reads s))))
    /\ (Spec.toggled_field t = Toggle.booked_field ->
        Spec.toggled_value t = false ->
        Toggle.u_booked_at updateData = null)
    /\ (respond leadId updateData = None ->
        Spec.without leadId (Toggle.leads s) (Toggle.leads s')
        /\ Toggle.error s' = Toggle.error s)
    /\ (forall e, respond leadId updateData = Some e ->
        Toggle.leads s' = Toggle.leads s
        /\ Toggle.error s'
           = Some (if Toggle.instanceofError e then Toggle.message e
                   else Spec.fallback_message t))
    /\ has (Toggle.updatingLeads s') leadId = false.
Proof.
  cbv zeta.
  destruct (onClick_outcome now respond t leadId s)
    as (updateData & Hvalue & Hupdated & Hbooked & ->).
  exists updateData. cbn [Toggle.requests Toggle.leads Toggle.error Toggle.updatingLeads].
  repeat split; try assumption.
  - intros Hf Hv. now rewrite Hbooked, Hf, Hv.
  - intros Hf Hv. now rewrite Hbooked, Hf, Hv.
  - rewrite H. apply filter_without.
  - now rewrite H.
  - now rewrite H.
  - now rewrite H.
  - apply has_delete.
Qed.

(** In the Replies view: marking lead "b" as booked sends a [booked_at]
    read from the clock and, the repository accepting, removes the lead;
    with the repository rejecting, the three leads stay and the message is
    stored.  Clearing booked in the Booked Meetings view sends a [null]
    [booked_at]. *)
Lemma toggle_update_contract_witness :
  (exists d,
      Toggle.requests
        (Toggle.after (Toggle.onClick frozen_clock accept Toggle.Replies_booked "b")
           replies_view)
      = [Toggle.Update "b" d]
      /\ Toggle.u_booked_at d = def (frozen_clock 1)
      /\ Spec.without "b" (Toggle.leads replies_view)
           (Toggle.leads
              (Toggle.after
                 (Toggle.onClick frozen_clock accept Toggle.Replies_booked "b")
                 replies_view)))
  /\ (exists d,
         Toggle.requests
           (Toggle.after
              (Toggle.onClick frozen_clock reject Toggle.BookedMeetings_not_booked "b")
              replies_view)
         = [Toggle.Update "b" d]
         /\ Toggle.u_booked_at d = null
         /\ Toggle.leads
              (Toggle.after
                 (Toggle.onClick frozen_clock reject
                    Toggle.BookedMeetings_not_booked "b")
                 replies_view)
            = Toggle.leads replies_view
         /\ Toggle.error
              (Toggle.after
                 (Toggle.onClick frozen_clock reject
                    Toggle.BookedMeetings_not_booked "b")
                 replies_view)
            = Some "permission denied"%string).
Proof.
  split.
  - destruct (toggle_update_contract frozen_clock accept Toggle.Replies_booked "b"
                replies_view) as (d & Hreq & _ & _ & Hset & _ & Hok & _ & _).
    exists d. split; [exact Hreq|].
    split; [apply Hset; reflexivity|].
    apply Hok. reflexivity.
  - destruct (toggle_update_contract frozen_clock reject
                Toggle.BookedMeetings_not_booked "b" replies_view)
      as (d & Hreq & _ & _ & _ & Hclear & _ & Hfail & _).
    exists d. split; [exact Hreq|].
    split; [apply Hclear; reflexivity|].
    exact (Hfail _ eq_refl).
Defined.

(** C10: after a successful toggle on lead id X the local list is the
    previous one with exactly the leads of id X taken out: every other lead
    is kept as it is, and in the same relative order. *)
Theorem optimistic_removal_frame (now : nat -> string)
    (respond : string -> Toggle.UpdateData -> option Toggle.Thrown)
    (t : Toggle.toggle) (leadId : string) (s : Toggle.State)
    (updateData : Toggle.UpdateData) :
  let s' := Toggle.after (Toggle.onClick now respond t leadId) s in
  Toggle.requests s' = Toggle.requests s ++ [Toggle.Update leadId updateData] ->
  respond leadId updateData = None ->
  Spec.without leadId (Toggle.leads s) (Toggle.leads s')
  /\ (forall lead,
         In lead (Toggle.leads s') <-> In lead (Toggle.leads s) /\ id lead <> leadId).
Proof.
  cbv zeta.
  destruct (onClick_outcome now respond t leadId s)
    as (d & _ & _ & _ & ->).
  cbn [Toggle.requests Toggle.leads].
  intros Hsent Hok.
  apply app_inj_tail in Hsent. destruct Hsent as [_ Hsent].
  injection Hsent as <-. rewrite Hok.
  split; [apply filter_without|].
  intros lead. rewrite filter_In.
  destruct (String.eqb_spec (id lead) leadId) as [Heq | Hne]; cbn; intuition congruence.
Qed.

(** The Active Campaigns toggle "replied" on lead "b": leads "a" and "c"
    remain, in that order. *)
Lemma optimistic_removal_frame_witness :
  Spec.without "b" (Toggle.leads replies_view)
    (Toggle.leads
       (Toggle.after
          (Toggle.onClick frozen_clock accept Toggle.ActiveCampaigns_replied "b")
          replies_view)).
Proof.
  apply (optimistic_removal_frame frozen_clock accept
           Toggle.ActiveCampaigns_replied "b" replies_view
           {| Toggle.u_replied := def true; Toggle.u_booked := undefined;
              Toggle.u_booked_at := undefined;
              Toggle.u_last_updated_at := def (frozen_clock 0) |}).
  - reflexivity.
  - reflexivity.
Defined.

Example removal_keeps_the_others :
  map id (Toggle.leads
            (Toggle.after
               (Toggle.onClick frozen_clock accept Toggle.Replies_booked "b")
               replies_view))
  = ["a"; "c"]%string.
Proof. reflexivity. Qed.

(** ** The analytics of the booked leads *)

Lemma group_key_name (v : opt string) :
  BookedMeetings.group_key v = Spec.group_name v.
Proof. destruct v as [| |[|c s]]; reflexivity. Qed.

Lemma assoc_put (key k : string) (t : BookedMeetings.tally)
    (acc : BookedMeetings.object) :
  BookedMeetings.assoc k (BookedMeetings.put key t acc)
  = if key =? k then Some t else BookedMeetings.assoc k acc.
Proof.
  induction acc as [|[k' v] acc IH]; cbn.
  - reflexivity.
  - destruct (String.eqb_spec k' key) as [-> | Hne]; cbn.
    + destruct (String.eqb_spec key k); reflexivity.
    + rewrite IH.
      destruct (String.eqb_spec k' k) as [-> | _]; [|reflexivity].
      destruct (String.eqb_spec key k) as [-> | _]; [now elim Hne | reflexivity].
Qed.

Lemma put_keys (key : string) (t : BookedMeetings.tally)
    (acc : BookedMeetings.object) (k : string) :
  In k (map fst (BookedMeetings.put key t acc)) -> k = key \/ In k (map fst acc).
Proof.
  induction acc as [|[k' v] acc IH]; cbn.
  - intros [<- | []]. now left.
  - destruct (String.eqb_spec k' key) as [-> | Hne]; cbn.
    + intros [<- | Hin]; [now left | right; now right].
    + intros [<- | Hin]; [right; now left|].
      destruct (IH Hin) as [-> | Hin']; [now left | right; now right].
Qed.

Lemma put_NoDup (key : string) (t : BookedMeetings.tally)
    (acc : BookedMeetings.object) :
  NoDup (map fst acc) -> NoDup (map fst (BookedMeetings.put key t acc)).
Proof.
  induction acc as [|[k' v] acc IH]; cbn; intros Hnd.
  - constructor; [easy | constructor].
  - apply NoDup_cons_iff in Hnd. destruct Hnd as [Hnotin Hnd].
    destruct (String.eqb_spec k' key) as [-> | Hne]; cbn.
    + now constructor.
    + constructor; [|now apply IH].
      intros Hin. apply put_keys in Hin. destruct Hin as [-> | Hin]; auto.
Qed.

Lemma assoc_In {B} (k : string) (v : B) (l : list (string * B)) :
  BookedMeetings.assoc k l = Some v -> In (k, v) l.
Proof.
  induction l as [|[k' v'] l IH]; cbn; [discriminate|].
  destruct (String.eqb_spec k' k) as [-> | _].
  - intros [= ->]. now left.
  - intros H. right. now apply IH.
Qed.

Lemma In_assoc {B} (k : string) (v : B) (l : list (string * B)) :
  NoDup (map fst l) -> In (k, v) l -> BookedMeetings.assoc k l = Some v.
Proof.
  induction l as [|[k' v'] l IH]; cbn; [easy|].
  intros Hnd Hin. apply NoDup_cons_iff in Hnd. destruct Hnd as [Hnotin Hnd].
  destruct Hin as [[= -> ->] | Hin].
  - now rewrite String.eqb_refl.
  - destruct (String.eqb_spec k' k) as [-> | _]; [|now apply IH].
    elim Hnotin. apply (in_map fst) in Hin. exact Hin.
Qed.

Lemma how_many_app {A} (p : A -> bool) (l1 l2 : list A) :
  Spec.how_many p (l1 ++ l2) = Spec.how_many p l1 + Spec.how_many p l2.
Proof.
  induction l1 as [|x l1 IH]; cbn; [reflexivity|].
  destruct (p x); cbn; now rewrite IH.
Qed.

Lemma stats_step (field : Lead -> opt string) (done : list Lead)
    (acc : BookedMeetings.object) (lead : Lead) :
  Spec.plain_key (Spec.group_name (field lead)) = true ->
  Spec.counts_of field done acc ->
  Spec.counts_of field (done ++ [lead])
    (BookedMeetings.set acc (BookedMeetings.group_key (field lead))
       (BookedMeetings.plus_one
          (BookedMeetings.get acc (BookedMeetings.group_key (field lead))))).
Proof.
  rewrite group_key_name. set (key := Spec.group_name (field lead)).
  intros Hplain [Hnd Hacc].
  unfold Spec.plain_key, BookedMeetings.get in Hplain. cbn [BookedMeetings.assoc] in Hplain.
  unfold BookedMeetings.set, BookedMeetings.get.
  destruct (key =? "__proto__") eqn:Hproto; [discriminate|].
  destruct (BookedMeetings.assoc key BookedMeetings.inherited_functions) eqn:Hinh;
    [discriminate|].
  split; [now apply put_NoDup|].
  intros k. rewrite assoc_put.
  unfold Spec.group_size. rewrite how_many_app. cbn [Spec.how_many]. fold key.
  destruct (String.eqb_spec key k) as [<- | Hne].
  - rewrite (Hacc key). unfold Spec.group_size.
    destruct (Spec.how_many (fun l => Spec.group_name (field l) =? key) done) as [|n];
      cbn; do 2 f_equal; lia.
  - rewrite (Hacc k). unfold Spec.group_size. now rewrite Nat.add_0_r.
Qed.

Lemma stats_from (field : Lead -> opt string) (leads done : list Lead)
    (acc : BookedMeetings.object) :
  Forall (fun lead => Spec.plain_key (Spec.group_name (field lead)) = true) leads ->
  Spec.counts_of field done acc ->
  Spec.counts_of field (done ++ leads)
    (fold_left (fun acc lead =>
                  let key := BookedMeetings.group_key (field lead) in
                  BookedMeetings.set acc key
                    (BookedMeetings.plus_one (BookedMeetings.get acc key)))
               leads acc).
Proof.
  intros Hplain. revert done acc.
  induction Hplain as [|lead leads Hlead _ IH]; intros done acc Hacc; cbn.
  - now rewrite app_nil_r.
  - replace (done ++ lead :: leads) with ((done ++ [lead]) ++ leads)
      by now rewrite <- app_assoc.
    apply IH. now apply stats_step.
Qed.

Lemma stats_of_counts (field : Lead -> opt string) (leads : list Lead) :
  Forall (fun lead => Spec.plain_key (Spec.group_name (field lead)) = true) leads ->
  Spec.counts_of field leads (BookedMeetings.stats_of field leads).
Proof.
  intros Hplain. apply (stats_from field leads [] [] Hplain).
  split; [constructor | reflexivity].
Qed.

Lemma filter_partition {A} (p : A -> bool) (l : list A) :
  Permutation (filter p l ++ filter (fun x => negb (p x)) l) l.
Proof.
  induction l as [|x l IH]; cbn; [constructor|].
  destruct (p x); cbn.
  - now constructor.
  - rewrite <- Permutation_middle. now constructor.
Qed.

Lemma entries_permutation (acc : BookedMeetings.object) :
  Permutation (BookedMeetings.entries acc) acc.
Proof.
  unfold BookedMeetings.entries.
  rewrite sort_permutation. apply filter_partition.
Qed.

Lemma by_count_irreflexive (a : BookedMeetings.Stat) :
  precedes BookedMeetings.by_count a a = false.
Proof.
  unfold precedes, BookedMeetings.by_count.
  destruct (BookedMeetings.count a); cbn; [|reflexivity].
  apply Z.ltb_ge. lia.
Qed.

Lemma by_count_transitive (a b c : BookedMeetings.Stat) :
  precedes BookedMeetings.by_count a b = true ->
  precedes BookedMeetings.by_count b c = true ->
  precedes BookedMeetings.by_count a c = true.
Proof.
  unfold precedes, BookedMeetings.by_count.
  destruct (BookedMeetings.count a), (BookedMeetings.count b),
    (BookedMeetings.count c); cbn; try discriminate.
  rewrite !Z.ltb_lt. lia.
Qed.

Lemma in_order_map_weaken {A B} (before : A -> A -> bool) (P : A -> Prop)
    (f : A -> B) (R : B -> B -> Prop) (l : list A) :
  (forall x y, P x -> P y -> before y x = false -> R (f x) (f y)) ->
  Forall P l -> Spec.in_order before l -> StronglySorted R (map f l).
Proof.
  intros Hweak HP Hord. induction Hord as [|x l Hs IH Hall]; cbn; constructor.
  - apply IH. now apply Forall_inv_tail in HP.
  - apply Forall_map. pose proof (Forall_inv HP) as Hx.
    apply Forall_inv_tail in HP. rewrite Forall_forall in *.
    intros y Hy. apply Hweak; auto.
Qed.

(** The breakdown over leads whose group keys are plain: one record per
    group that has a lead, with the number of its leads and its share of the
    collection, the larger groups first. *)
Lemma analytics_breakdown_on_plain_keys (field : Lead -> opt string)
    (leads : list Lead) :
  Forall (fun lead => Spec.plain_key (Spec.group_name (field lead)) = true) leads ->
  exists groups : list (string * nat),
    BookedMeetings.data_of field leads
    = map (Spec.group_record (List.length leads)) groups
    /\ NoDup (map fst groups)
    /\ (forall k n,
           In (k, n) groups <-> n = Spec.group_size field k leads /\ 0 < n)
    /\ StronglySorted (fun g h => snd h <= snd g) groups.
Proof.
  intros Hplain.
  destruct (stats_of_counts field leads Hplain) as [Hnd Hassoc].
  set (acc := BookedMeetings.stats_of field leads) in *.
  set (mk := fun '(name, count) =>
               {| BookedMeetings.name := name; BookedMeetings.count := count;
                  BookedMeetings.percentage :=
                    BookedMeetings.percent count (List.length leads) |}).
  assert (Hperm : Permutation (BookedMeetings.data_of field leads) (map mk acc)).
  { unfold BookedMeetings.data_of. fold acc. fold mk.
    rewrite sort_permutation. apply Permutation_map, entries_permutation. }
  assert (Hentry : forall k v, In (k, v) acc ->
             exists n, v = BookedMeetings.Count n
                       /\ n = Spec.group_size field k leads /\ 0 < n).
  { intros k v Hin. apply In_assoc in Hin; [|exact Hnd].
    rewrite Hassoc in Hin.
    destruct (Spec.group_size field k leads) as [|n] eqn:Hsize; [discriminate|].
    injection Hin as <-. exists (S n). repeat split; lia. }
  assert (Hstat : forall st, In st (BookedMeetings.data_of field leads) ->
             exists k n, In (k, BookedMeetings.Count n) acc
                         /\ st = Spec.group_record (List.length leads) (k, n)
                         /\ n = Spec.group_size field k leads /\ 0 < n).
  { intros st Hin. apply (Permutation_in _ Hperm) in Hin.
    apply in_map_iff in Hin. destruct Hin as ([k v] & <- & Hin).
    destruct (Hentry k v Hin) as (n & -> & Hn & Hpos).
    exists k, n. repeat split; assumption. }
  exists (map Spec.group_of (BookedMeetings.data_of field leads)).
  split; [|split; [|split]].
  - rewrite map_map. rewrite <- (map_id (BookedMeetings.data_of field leads)) at 1.
    apply map_ext_in. intros st Hin.
    destruct (Hstat st Hin) as (k & n & _ & -> & _). reflexivity.
  - rewrite map_map.
    apply (Permutation_NoDup (l := map fst acc)); [|exact Hnd].
    symmetry.
    rewrite (Permutation_map (fun st => fst (Spec.group_of st)) Hperm).
    rewrite map_map.
    erewrite map_ext; [reflexivity|]. now intros [k v].
  - intros k n. split.
    + intros Hin. apply in_map_iff in Hin. destruct Hin as (st & Heq & Hin).
      destruct (Hstat st Hin) as (k' & n' & _ & -> & Hn & Hpos).
      cbn in Heq. injection Heq as <- <-. now split.
    + intros [-> Hpos].
      assert (Hin : In (k, BookedMeetings.Count (Spec.group_size field k leads)) acc).
      { apply assoc_In. rewrite Hassoc.
        destruct (Spec.group_size field k leads); [lia | reflexivity]. }
      apply (in_map mk) in Hin.
      apply (Permutation_in _ (Permutation_sym Hperm)) in Hin.
      apply (in_map Spec.group_of) in Hin. exact Hin.
  - apply (in_order_map_weaken (precedes BookedMeetings.by_count)
             (fun st => exists n, BookedMeetings.count st = BookedMeetings.Count n)).
    + intros x y [n Hx] [m Hy]. unfold precedes, BookedMeetings.by_count, Spec.group_of.
      rewrite Hx, Hy. cbn. rewrite Z.ltb_ge. lia.
    + apply Forall_forall. intros st Hin.
      destruct (Hstat st Hin) as (k & n & _ & -> & _). now exists n.
    + apply sort_in_order; [apply by_count_irreflexive | apply by_count_transitive].
Qed.

(** Four booked leads: "Fintech" twice, "SaaS" once, one empty industry. *)
Example industryData_booked_leads :
  map Spec.group_of (BookedMeetings.industryData booked_leads)
  = [("Fintech", 2); ("SaaS", 1); ("Unknown", 1)]%string
  /\ map BookedMeetings.percentage (BookedMeetings.industryData booked_leads)
     = [50; 25; 25]%float
  /\ map Spec.group_of (BookedMeetings.sourceData booked_leads)
     = [("apollo", 2); ("Unknown", 2)]%string.
Proof. repeat split; reflexivity. Qed.

(** C4, at the inputs where the code departs from it: a booked lead whose
    industry is "constructor" gets a group whose count is the text of the
    inherited function [Object] followed by "1", with a percentage that is
    not a number, where the claim asks for the count 1 and 100 percent; and
    a lead whose industry is "__proto__" gets no group at all. *)
Theorem analytics_breakdown_inherited_key :
  BookedMeetings.industryData [booked_lead "a" (def "constructor") null]
  = [ {| BookedMeetings.name := "constructor";
         BookedMeetings.count :=
           BookedMeetings.Text (BookedMeetings.NativeFunction "Object") 1;
         BookedMeetings.percentage := nan |} ]
  /\ BookedMeetings.industryData [booked_lead "a" (def "__proto__") null] = []
  /\ Spec.group_size industry "constructor"
       [booked_lead "a" (def "constructor") null] = 1.
Proof. repeat split; reflexivity. Qed.

(** * Further properties of the views *)

(** ** The Dashboard: metrics, activity and fetching *)

Lemma fold_add_emails (leadsData : list Lead) (start : nat) :
  fold_left DashboardView.add_emails leadsData start
  = start + list_sum (map Spec.emails_of leadsData).
Proof.
  revert start. induction leadsData as [|lead l IH]; intros start.
  - cbn. lia.
  - cbn [fold_left map]. rewrite IH.
    change (list_sum (Spec.emails_of lead :: map Spec.emails_of l))
      with (Spec.emails_of lead + list_sum (map Spec.emails_of l)).
    unfold DashboardView.add_emails, Spec.emails_of. cbn [Spec.how_many].
    destruct (truthy_str (day_1_sent_at lead)), (truthy_str (day_2_sent_at lead)),
      (truthy_str (day_3_sent_at lead)), (truthy_str (day_4_sent_at lead)); lia.
Qed.

Lemma emails_of_le_4 (lead : Lead) : Spec.emails_of lead <= 4.
Proof.
  unfold Spec.emails_of. cbn [Spec.how_many].
  destruct (truthy_str (day_1_sent_at lead)), (truthy_str (day_2_sent_at lead)),
    (truthy_str (day_3_sent_at lead)), (truthy_str (day_4_sent_at lead)); lia.
Qed.

Lemma how_many_le_length {A} (p : A -> bool) (l : list A) :
  Spec.how_many p l <= List.length l.
Proof.
  induction l as [|x l IH]; cbn; [lia|]. destruct (p x); lia.
Qed.

(** The metrics of the Dashboard: the emails sent are the sum, over the
    leads, of the steps that carry a send time, hence at most four per lead;
    replies and meetings are at most the number of leads. *)
Theorem metrics_within_totals (leadsData : list Lead) :
  let m := DashboardView.metrics_of leadsData in
  DashboardView.totalLeads m = List.length leadsData
  /\ DashboardView.totalEmailsSent m = list_sum (map Spec.emails_of leadsData)
  /\ DashboardView.totalEmailsSent m <= 4 * DashboardView.totalLeads m
  /\ DashboardView.repliesReceived m <= DashboardView.totalLeads m
  /\ DashboardView.meetingsBooked m <= DashboardView.totalLeads m.
Proof.
  cbv zeta. unfold DashboardView.metrics_of. cbn.
  rewrite fold_add_emails, !length_filter_how_many. cbn [plus].
  repeat split; try apply how_many_le_length.
  induction leadsData as [|lead l IH]; [cbn; lia|].
  cbn [map List.length].
  change (list_sum (Spec.emails_of lead :: map Spec.emails_of l))
    with (Spec.emails_of lead + list_sum (map Spec.emails_of l)).
  pose proof (emails_of_le_4 lead). lia.
Qed.

(** The metric cards and the funnel agree: the "Replied" and "Booked"
    checkpoints of the funnel count what [repliesReceived] and
    [meetingsBooked] count, and no checkpoint counts more than
    [totalLeads]. *)
Theorem funnel_agrees_with_metrics (leadsData : list Lead) :
  let m := DashboardView.metrics_of leadsData in
  Spec.reached Spec.has_replied leadsData = DashboardView.repliesReceived m
  /\ Spec.reached Spec.has_booked leadsData = DashboardView.meetingsBooked m
  /\ Forall (fun stage => Dashboard.count stage <= DashboardView.totalLeads m)
       (Dashboard.funnelStages leadsData).
Proof.
  cbv zeta. unfold DashboardView.metrics_of. cbn.
  rewrite !length_filter_how_many.
  split; [reflexivity|]. split; [reflexivity|].
  rewrite funnelStages_by_checkpoint.
  apply Forall_map, Forall_forall. intros c _. cbn.
  apply how_many_le_length.
Qed.

(** The activity shown for a lead that has neither replied nor booked is
    the activity of its current stage; "Imported" is shown exactly when
    the lead has not started. *)
Theorem activity_follows_stage (lead : Lead) :
  truthy (booked lead) = false ->
  truthy (replied lead) = false ->
  DashboardView.getActivityAction lead = Spec.activity_of_stage (getCurrentStage lead)
  /\ (DashboardView.getActivityAction lead = "Imported"%string
      <-> getCurrentStage lead = "Not Started"%string).
Proof.
  intros Hb Hr. unfold DashboardView.getActivityAction, getCurrentStage.
  rewrite Hb, Hr.
  destruct (truthy (day_4_sent lead)), (truthy (day_3_sent lead)),
    (truthy (day_2_sent lead)), (truthy (day_1_sent lead));
    (split; [reflexivity | split; intros H; (reflexivity || discriminate H)]).
Qed.

Lemma activity_follows_stage_witness :
  DashboardView.getActivityAction gap_lead = "Day 3 Email Sent"%string.
Proof.
  apply (proj1 (activity_follows_stage gap_lead eq_refl eq_refl)).
Defined.

Lemma slice_0 {A} (n : nat) (l : list A) :
  slice 0 (Z.of_nat n) l = firstn n l.
Proof.
  unfold slice. cbn [Z.ltb Z.compare].
  destruct (Z.ltb_spec (Z.of_nat n) 0) as [Hneg | _]; [lia|].
  rewrite (Z.min_l 0) by lia. rewrite Z.sub_0_r. cbn [Z.to_nat skipn].
  destruct (Z.min_spec (Z.of_nat n) (Z.of_nat (List.length l))) as [[Hlt ->] | [Hge ->]].
  - now rewrite Nat2Z.id.
  - rewrite Nat2Z.id. rewrite !firstn_all2; (reflexivity || lia).
Qed.

(** A fetch that succeeds leaves one consistent snapshot: the leads, the
    metrics, the funnel and the recent activity (the first ten leads) all
    come from the fetched list, the error is cleared and loading is over. *)
Theorem fetchLeadsData_success (response : DashboardView.Response)
    (s : DashboardView.State) :
  DashboardView.fetchError response = None ->
  let leadsData :=
    match DashboardView.data response with Some d => d | None => [] end in
  Effect.after (DashboardView.fetchLeadsData response) s
  = {| DashboardView.leads := leadsData;
       DashboardView.metrics := DashboardView.metrics_of leadsData;
       DashboardView.funnelStages := Dashboard.funnelStages leadsData;
       DashboardView.recentActivity := firstn 10 leadsData;
       DashboardView.loading := false;
       DashboardView.error := None |}.
Proof.
  intros Hok. cbv zeta.
  unfold Effect.after, DashboardView.fetchLeadsData, Effect.try_catch_finally,
    Effect.bind, DashboardView.setLoading, DashboardView.setError,
    DashboardView.setLeads, DashboardView.setMetrics,
    DashboardView.setFunnelStages, DashboardView.setRecentActivity,
    Effect.modify, Effect.ret, Effect.throw.
  rewrite Hok. cbn.
  unfold DashboardView.recentActivity_of.
  change 10%Z with (Z.of_nat 10). now rewrite slice_0.
Qed.

(** The Dashboard shows four booked leads and the error of an earlier
    fetch; a fetch then brings three leads in progress: the snapshot is
    theirs and the error is gone. *)
Lemma fetchLeadsData_success_witness :
  let s' :=
    Effect.after
      (DashboardView.fetchLeadsData
         {| DashboardView.data := Some three_in_progress;
            DashboardView.fetchError := None |})
      stale_dashboard in
  DashboardView.leads s' = three_in_progress
  /\ DashboardView.metrics s'
     = {| DashboardView.totalLeads := 3; DashboardView.totalEmailsSent := 0;
          DashboardView.repliesReceived := 1; DashboardView.meetingsBooked := 0 |}
  /\ map Dashboard.count (DashboardView.funnelStages s') = [3; 2; 1; 0; 1; 0]
  /\ DashboardView.recentActivity s' = three_in_progress
  /\ DashboardView.error s' = None
  /\ DashboardView.loading s' = false.
Proof.
  cbv zeta.
  rewrite (fetchLeadsData_success
             {| DashboardView.data := Some three_in_progress;
                DashboardView.fetchError := None |}
             stale_dashboard eq_refl).
  repeat split.
Defined.

(** A fetch that fails changes nothing of what the Dashboard shows: leads,
    metrics, funnel and recent activity stay as they were; the message is
    stored and loading is over. *)
Theorem fetchLeadsData_failure (response : DashboardView.Response)
    (s : DashboardView.State) (e : Toggle.Thrown) :
  DashboardView.fetchError response = Some e ->
  Effect.after (DashboardView.fetchLeadsData response) s
  = {| DashboardView.leads := DashboardView.leads s;
       DashboardView.metrics := DashboardView.metrics s;
       DashboardView.funnelStages := DashboardView.funnelStages s;
       DashboardView.recentActivity := DashboardView.recentActivity s;
       DashboardView.loading := false;
       DashboardView.error := Some (Effect.message_or e "Failed to fetch data") |}.
Proof.
  intros Herr.
  unfold Effect.after, DashboardView.fetchLeadsData, Effect.try_catch_finally,
    Effect.bind, DashboardView.setLoading, DashboardView.setError,
    DashboardView.setLeads, DashboardView.setMetrics,
    DashboardView.setFunnelStages, DashboardView.setRecentActivity,
    Effect.modify, Effect.ret, Effect.throw.
  rewrite Herr. reflexivity.
Qed.

Lemma fetchLeadsData_failure_witness :
  DashboardView.error
    (Effect.after
       (DashboardView.fetchLeadsData
          {| DashboardView.data := None;
             DashboardView.fetchError := Some (Effect.Error "relation does not exist") |})
       DashboardView.initial)
  = Some "relation does not exist"%string.
Proof.
  rewrite (fetchLeadsData_failure
             {| DashboardView.data := None;
                DashboardView.fetchError := Some (Effect.Error "relation does not exist") |}
             DashboardView.initial _ eq_refl).
  reflexivity.
Defined.

(** ** The list views: search and filters *)

Lemma toLowerCase_empty (s : string) :
  toLowerCase s = EmptyString <-> s = EmptyString.
Proof. destruct s; cbn; split; intros H; (reflexivity || discriminate H). Qed.

Lemma truthy_string_empty (s : string) : truthy_string s = false <-> s = EmptyString.
Proof.
  unfold truthy_string. destruct (String.eqb_spec s EmptyString); cbn; split; easy.
Qed.

Lemma filter_ext_all {A} (p q : A -> bool) (l : list A) :
  (forall x, p x = q x) -> filter p l = filter q l.
Proof. intros H. apply filter_ext. exact H. Qed.

(** Search ignores the case of the term: two terms with the same lower-case
    form select the same leads. *)
Theorem search_ignores_case (leads : list Lead) (term term' : string)
    (filters : ListView.Filters) :
  toLowerCase term = toLowerCase term' ->
  ListView.filteredLeads leads term filters
  = ListView.filteredLeads leads term' filters.
Proof.
  intros Hsame. unfold ListView.filteredLeads. apply filter_ext_all. intros lead.
  assert (Hsearch : ListView.searchMatch term lead = ListView.searchMatch term' lead).
  { unfold ListView.searchMatch, ListView.field_includes. rewrite Hsame.
    assert (Hempty : truthy_string term = truthy_string term').
    { destruct (truthy_string term) eqn:H1, (truthy_string term') eqn:H2;
        try reflexivity.
      - apply (proj1 (truthy_string_empty _)) in H2. subst term'. cbn in Hsame.
        apply (proj1 (toLowerCase_empty _)) in Hsame. subst term. discriminate H1.
      - apply (proj1 (truthy_string_empty _)) in H1. subst term. cbn in Hsame.
        symmetry in Hsame. apply (proj1 (toLowerCase_empty _)) in Hsame.
        subst term'. discriminate H2. }
    now rewrite Hempty. }
  now rewrite Hsearch.
Qed.

(** Among four leads, "C@Example" and "c@example" both select the lead
    whose email is "c@example.com". *)
Lemma search_ignores_case_witness :
  ListView.filteredLeads booked_leads "C@Example" ListView.no_filters
  = ListView.filteredLeads booked_leads "c@example" ListView.no_filters
  /\ ListView.filteredLeads booked_leads "c@example" ListView.no_filters
     = [booked_lead "c" (def "Fintech") (def "apollo")].
Proof.
  split.
  - apply (search_ignores_case booked_leads "C@Example" "c@example"
             ListView.no_filters).
    reflexivity.
  - reflexivity.
Defined.

Lemma prefix_app (t s : string) :
  prefix t s = true <-> exists post, s = (t ++ post)%string.
Proof.
  revert s. induction t as [|c t IH]; intros s.
  - destruct s; cbn; split; intros _; try reflexivity; eexists; reflexivity.
  - destruct s as [|d s]; cbn.
    + split; [discriminate | intros [post H]; discriminate H].
    + destruct (Ascii.ascii_dec c d) as [-> | Hne].
      * rewrite IH. split; intros [post H]; exists post.
        -- now rewrite H.
        -- now injection H.
      * split; [discriminate|]. intros [post H]. injection H as H1 H2.
        now elim Hne.
Qed.

Lemma includes_occurs (s t : string) :
  includes s t = true <-> Spec.occurs_in t s.
Proof.
  unfold Spec.occurs_in. induction s as [|c s IH]; cbn [includes].
  - rewrite prefix_app. split.
    + intros [post H]. exists EmptyString, post. exact H.
    + intros (pre & post & H). destruct pre; cbn in H; [|discriminate H].
      now exists post.
  - rewrite orb_true_iff, prefix_app, IH. split.
    + intros [[post H] | (pre & post & H)].
      * exists EmptyString, post. exact H.
      * exists (String c pre), post. cbn. now rewrite H.
    + intros (pre & post & H). destruct pre as [|d pre]; cbn in H.
      * left. now exists post.
      * right. injection H as _ H. now exists pre, post.
Qed.

Lemma strict_eq_passes (v : opt string) (f : string) :
  negb (truthy_string f) || ListView.strict_eq v f = true <-> Spec.passes f v.
Proof.
  unfold Spec.passes. rewrite orb_true_iff, negb_true_iff, truthy_string_empty.
  unfold ListView.strict_eq.
  destruct v as [| |s]; try (split; intros [H | H]; auto; discriminate H).
  destruct (String.eqb_spec s f) as [-> | Hne].
  - split; auto.
  - split; intros [H | H]; auto; try discriminate H. injection H as H. now elim Hne.
Qed.

Lemma searchMatch_matches (term : string) (lead : Lead) :
  ListView.searchMatch term lead = true <-> Spec.matches_search term lead.
Proof.
  unfold ListView.searchMatch, Spec.matches_search, ListView.field_includes.
  rewrite !orb_true_iff, negb_true_iff, truthy_string_empty.
  split.
  - intros [[[H | H] | H] | H]; [now left | right ..].
    + destruct (fullname lead) as [| |s] eqn:E; try discriminate H.
      exists s. split; [now left | now apply includes_occurs].
    + exists (email lead). split; [right; now left | now apply includes_occurs].
    + destruct (company_name lead) as [| |s] eqn:E; try discriminate H.
      exists s. split; [right; now right | now apply includes_occurs].
  - intros [H | (s & Hs & Hocc)]; [now left; left; left|].
    apply includes_occurs in Hocc. destruct Hs as [H | [H | H]].
    + left; left; right. now rewrite H.
    + left; right. now rewrite H.
    + right. now rewrite H.
Qed.

Lemma filteredLeads_In (leads : list Lead) (term : string)
    (filters : ListView.Filters) (lead : Lead) :
  In lead (ListView.filteredLeads leads term filters)
  <-> In lead leads
      /\ Spec.matches_search term lead
      /\ Spec.passes (ListView.f_stage filters) (stage lead)
      /\ Spec.passes (ListView.f_lead_source filters) (lead_source lead)
      /\ Spec.passes (ListView.f_industry filters) (industry lead).
Proof.
  unfold ListView.filteredLeads. rewrite filter_In. cbv zeta.
  rewrite !andb_true_iff, searchMatch_matches, !strict_eq_passes.
  tauto.
Qed.

(** What the filter stage keeps: a lead of the collection is kept exactly
    when it matches the search term and passes each of the three field
    filters. *)
Theorem filteredLeads_keeps (leads : list Lead) (term : string)
    (filters : ListView.Filters) (lead : Lead) :
  In lead (ListView.filteredLeads leads term filters)
  <-> In lead leads
      /\ Spec.matches_search term lead
      /\ Spec.passes (ListView.f_stage filters) (stage lead)
      /\ Spec.passes (ListView.f_lead_source filters) (lead_source lead)
      /\ Spec.passes (ListView.f_industry filters) (industry lead).
Proof. apply filteredLeads_In. Qed.

(** ** The filter options *)

Lemma has_In (seen : list string) (x : string) : has seen x = true <-> In x seen.
Proof.
  unfold has. rewrite existsb_exists. split.
  - intros (y & Hin & Heq). apply String.eqb_eq in Heq. now subst.
  - intros Hin. exists x. split; [exact Hin | apply String.eqb_refl].
Qed.

Lemma distinct_In (xs seen : list string) (x : string) :
  In x (distinct seen xs) <-> In x xs /\ ~ In x seen.
Proof.
  revert seen. induction xs as [|y xs IH]; intros seen; cbn [distinct].
  - cbn. tauto.
  - destruct (has seen y) eqn:Hseen.
    + apply has_In in Hseen. rewrite IH. cbn. split.
      * intros [H1 H2]. auto.
      * intros [[<- | H1] H2]; [contradiction | auto].
    + assert (Hnot : ~ In y seen).
      { intros H. apply has_In in H. congruence. }
      cbn. rewrite IH, in_app_iff. cbn. split.
      * intros [<- | [H1 H2]]; auto.
      * intros [[<- | H1] H2]; [now left|].
        destruct (String.string_dec y x) as [-> | Hne]; [now left|].
        right. split; [exact H1|]. intros [H | [H | []]]; auto.
Qed.

Lemma distinct_NoDup (xs seen : list string) : NoDup (distinct seen xs).
Proof.
  revert seen. induction xs as [|y xs IH]; intros seen; cbn [distinct].
  - constructor.
  - destruct (has seen y); [apply IH|].
    constructor; [|apply IH].
    rewrite distinct_In, in_app_iff. intros [_ H]. apply H. right. now left.
Qed.

Lemma truthy_strings_In (vs : list (opt string)) (s : string) :
  In s (truthy_strings vs) <-> s <> EmptyString /\ In (def s) vs.
Proof.
  induction vs as [|v vs IH]; cbn [truthy_strings].
  - cbn. tauto.
  - destruct v as [| |s']; cbn [In].
    + rewrite IH. split; [tauto|]. intros [H1 [H2 | H2]]; [discriminate H2 | auto].
    + rewrite IH. split; [tauto|]. intros [H1 [H2 | H2]]; [discriminate H2 | auto].
    + destruct (truthy_string s') eqn:Ht; cbn [In]; rewrite IH.
      * assert (Hne : s' <> EmptyString).
        { intros ->. discriminate Ht. }
        split.
        -- intros [<- | [H1 H2]]; auto.
        -- intros [H1 [H2 | H2]]; [left; congruence | auto].
      * apply truthy_string_empty in Ht. subst s'. split; [tauto|].
        intros [H1 [H2 | H2]]; [congruence | auto].
Qed.

Lemma default_compare_precedes (x y : string) :
  precedes default_compare x y = String.ltb x y.
Proof.
  unfold precedes, default_compare.
  destruct (String.ltb x y); [reflexivity|]. now destruct (String.ltb y x).
Qed.

Lemma sort_default_ascending (xs : list string) :
  NoDup xs ->
  StronglySorted (fun x y => String.ltb x y = true) (sort_default xs).
Proof.
  intros Hnd.
  assert (Hord : Spec.in_order (precedes default_compare) (sort_default xs)).
  { apply sort_in_order.
    - intros x. rewrite default_compare_precedes. apply string_ltb_irreflexive.
    - intros x y z. rewrite !default_compare_precedes. apply string_ltb_transitive. }
  assert (Hnd' : NoDup (sort_default xs)).
  { apply (Permutation_NoDup (l := xs)); [|exact Hnd].
    symmetry. apply sort_permutation. }
  unfold Spec.in_order in Hord.
  induction Hord as [|x l Hs IH Hall]; constructor.
  - apply IH. now apply NoDup_cons_iff in Hnd'.
  - apply NoDup_cons_iff in Hnd'. destruct Hnd' as [Hnotin _].
    rewrite Forall_forall in *. intros y Hy.
    specialize (Hall y Hy). cbv beta in Hall.
    rewrite default_compare_precedes in Hall.
    destruct (String.ltb x y) eqn:Hxy; [reflexivity|].
    elim Hnotin. now rewrite (string_ltb_total x y Hxy Hall).
Qed.

Lemma options_list (field : Lead -> opt string) (leads : list Lead) :
  let o := sort_default (unique (truthy_strings (map field leads))) in
  StronglySorted (fun x y => String.ltb x y = true) o
  /\ forall s, In s o <-> s <> EmptyString /\ exists lead, In lead leads /\ field lead = def s.
Proof.
  cbv zeta. split.
  - apply sort_default_ascending, distinct_NoDup.
  - intros s. split.
    + intros Hin. apply (Permutation_in _ (sort_permutation _ _)) in Hin.
      apply distinct_In in Hin. destruct Hin as [Hin _].
      apply truthy_strings_In in Hin. destruct Hin as [Hne Hin].
      split; [exact Hne|]. apply in_map_iff in Hin.
      destruct Hin as (lead & Heq & Hin). now exists lead.
    + intros (Hne & lead & Hin & Heq).
      apply (Permutation_in _ (Permutation_sym (sort_permutation _ _))).
      apply distinct_In. split; [|easy].
      apply truthy_strings_In. split; [exact Hne|].
      rewrite <- Heq. now apply in_map.
Qed.

Lemma filterOptions_characterised (leads : list Lead) (t : ListControls.filterType) :
  let options := Spec.options_of t (ListControls.filterOptions leads) in
  StronglySorted (fun x y => String.ltb x y = true) options
  /\ forall s,
       In s options
       <-> s <> EmptyString /\ exists lead, In lead leads /\ Spec.field_of t lead = def s.
Proof.
  destruct t; cbn [Spec.options_of ListControls.filterOptions
                     ListControls.stages ListControls.sources
                     ListControls.industries Spec.field_of].
  - apply (options_list stage leads).
  - apply (options_list lead_source leads).
  - apply (options_list industry leads).
Qed.

(** The filter menus of [ActiveCampaigns] and [AllLeads]: each menu lists,
    in strictly ascending order and so without repetition, exactly the
    non-empty values that the field takes among the leads. *)
Theorem filterOptions_exact (leads : list Lead) (t : ListControls.filterType) :
  let options := Spec.options_of t (ListControls.filterOptions leads) in
  StronglySorted (fun x y => String.ltb x y = true) options
  /\ forall s,
       In s options
       <-> s <> EmptyString /\ exists lead, In lead leads /\ Spec.field_of t lead = def s.
Proof. apply filterOptions_characterised. Qed.

Lemma with_filter_passes (t : ListControls.filterType) (s : string) (lead : Lead) :
  Spec.passes (ListView.f_stage (ListControls.with_filter ListView.no_filters t s)) (stage lead)
  /\ Spec.passes (ListView.f_lead_source (ListControls.with_filter ListView.no_filters t s))
       (lead_source lead)
  /\ Spec.passes (ListView.f_industry (ListControls.with_filter ListView.no_filters t s))
       (industry lead)
  <-> Spec.passes s (Spec.field_of t lead).
Proof.
  unfold Spec.passes. destruct t; cbn; tauto.
Qed.

(** Choosing a value in a filter menu, with nothing else set: the view
    shows the leads whose field has that value; a value taken from the menu
    always shows at least one lead, and a non-empty value that is not in
    the menu shows none. *)
Theorem filter_option_selects (leads : list Lead) (t : ListControls.filterType)
    (s : string) :
  let selected :=
    ListView.filteredLeads leads EmptyString
      (ListControls.with_filter ListView.no_filters t s) in
  s <> EmptyString ->
  (forall lead, In lead selected <-> In lead leads /\ Spec.field_of t lead = def s)
  /\ (In s (Spec.options_of t (ListControls.filterOptions leads)) <-> selected <> []).
Proof.
  cbv zeta. intros Hne.
  assert (Hsel : forall lead,
             In lead (ListView.filteredLeads leads EmptyString
                        (ListControls.with_filter ListView.no_filters t s))
             <-> In lead leads /\ Spec.field_of t lead = def s).
  { intros lead. rewrite filteredLeads_In.
    rewrite (with_filter_passes t s lead). unfold Spec.passes, Spec.matches_search.
    split.
    - intros (Hin & _ & [H | H]); [contradiction | auto].
    - intros [Hin H]. split; [exact Hin|]. split; [now left | now right]. }
  split; [exact Hsel|].
  rewrite (proj2 (filterOptions_characterised leads t) s). split.
  - intros (_ & lead & Hin & Heq) Hnil.
    assert (H : In lead []) by (rewrite <- Hnil; apply Hsel; auto).
    destruct H.
  - intros Hnonempty. split; [exact Hne|].
    destruct (ListView.filteredLeads leads EmptyString
                (ListControls.with_filter ListView.no_filters t s))
      as [|lead rest] eqn:E; [now elim Hnonempty|].
    exists lead. apply Hsel. now left.
Qed.

Lemma filter_option_selects_witness :
  In "Fintech"%string
    (Spec.options_of ListControls.industry_filter
       (ListControls.filterOptions booked_leads))
  <-> ListView.filteredLeads booked_leads EmptyString
        (ListControls.with_filter ListView.no_filters
           ListControls.industry_filter "Fintech")
      <> [].
Proof.
  apply (proj2 (filter_option_selects booked_leads ListControls.industry_filter
                  "Fintech" ltac:(discriminate))).
Defined.

Example filterOptions_booked_leads :
  ListControls.industries (ListControls.filterOptions booked_leads)
  = ["Fintech"; "SaaS"]%string
  /\ ListControls.sources (ListControls.filterOptions booked_leads)
     = ["apollo"]%string.
Proof. split; reflexivity. Qed.

(** ** Sorting and the sort headers *)

Lemma sortedLeads_rearranges_length (leads : list Lead)
    (sortColumn : ListView.column) (sortDirection : ListView.direction) :
  Permutation (ListView.sortedLeads leads sortColumn sortDirection) leads
  /\ List.length (ListView.sortedLeads leads sortColumn sortDirection)
     = List.length leads.
Proof.
  assert (H : Permutation (ListView.sortedLeads leads sortColumn sortDirection) leads)
    by apply sort_permutation.
  split; [exact H | now apply Permutation_length].
Qed.

(** Sorting neither drops nor repeats a lead: the sorted list is a
    rearrangement of the filtered one, of the same length. *)
Theorem sortedLeads_rearranges (leads : list Lead) (sortColumn : ListView.column)
    (sortDirection : ListView.direction) :
  Permutation (ListView.sortedLeads leads sortColumn sortDirection) leads
  /\ List.length (ListView.sortedLeads leads sortColumn sortDirection)
     = List.length leads.
Proof. apply sortedLeads_rearranges_length. Qed.

Lemma StronglySorted_snoc {A} (R : A -> A -> Prop) (l : list A) (a : A) :
  StronglySorted R l -> Forall (fun x => R x a) l -> StronglySorted R (l ++ [a]).
Proof.
  induction 1 as [|x l Hs IH Hall]; cbn; intros Hlast.
  - constructor; constructor.
  - constructor.
    + apply IH. now apply Forall_inv_tail in Hlast.
    + apply Forall_app. split; [exact Hall|].
      constructor; [now apply Forall_inv in Hlast | constructor].
Qed.

Lemma StronglySorted_rev {A} (R : A -> A -> Prop) (l : list A) :
  StronglySorted R l -> StronglySorted (fun x y => R y x) (rev l).
Proof.
  induction 1 as [|x l Hs IH Hall]; cbn; [constructor|].
  apply StronglySorted_snoc; [exact IH|].
  apply Forall_rev. exact Hall.
Qed.

Lemma StronglySorted_weaken_in {A} (R R' : A -> A -> Prop) (l : list A) :
  (forall x y, In x l -> In y l -> R x y -> R' x y) ->
  StronglySorted R l -> StronglySorted R' l.
Proof.
  intros Hweak Hs. induction Hs as [|x l Hs IH Hall]; constructor.
  - apply IH. intros a b Ha Hb. apply Hweak; now right.
  - rewrite Forall_forall in *. intros y Hy.
    apply Hweak; [now left | now right | now apply Hall].
Qed.

Lemma StronglySorted_unique {A} (R : A -> A -> Prop) (l1 l2 : list A) :
  (forall x y, In x l1 -> In y l1 -> R x y -> R y x -> x = y) ->
  StronglySorted R l1 -> StronglySorted R l2 -> Permutation l1 l2 -> l1 = l2.
Proof.
  intros Hanti Hs1. revert l2.
  induction Hs1 as [|a l1 Hs1 IH Hall1]; intros l2 Hs2 Hperm.
  - apply Permutation_nil in Hperm. now subst.
  - destruct Hs2 as [|b l2 Hs2 Hall2].
    + apply Permutation_sym, Permutation_nil in Hperm. discriminate Hperm.
    + assert (Hab : a = b).
      { assert (Ha : In a (b :: l2))
          by (apply (Permutation_in _ Hperm); now left).
        assert (Hb : In b (a :: l1))
          by (apply (Permutation_in _ (Permutation_sym Hperm)); now left).
        destruct Ha as [Ha | Ha]; [now subst|].
        destruct Hb as [Hb | Hb]; [now subst|].
        rewrite Forall_forall in Hall1, Hall2.
        apply Hanti; [now left | now right | now apply Hall1 | now apply Hall2]. }
      subst b. f_equal. apply IH.
      * intros x y Hx Hy. apply Hanti; now right.
      * exact Hs2.
      * now apply Permutation_cons_inv in Hperm.
Qed.

Lemma NoDup_map_injective {A B} (f : A -> B) (l : list A) (x y : A) :
  NoDup (map f l) -> In x l -> In y l -> f x = f y -> x = y.
Proof.
  induction l as [|a l IH]; cbn; [easy|].
  intros Hnd Hx Hy Heq. apply NoDup_cons_iff in Hnd. destruct Hnd as [Hnotin Hnd].
  destruct Hx as [-> | Hx], Hy as [-> | Hy]; auto.
  - elim Hnotin. rewrite Heq. now apply in_map.
  - elim Hnotin. rewrite <- Heq. now apply in_map.
Qed.

Lemma string_column_precedes (k : ListView.string_key)
    (sortDirection : ListView.direction) (x y : Lead) (xv yv : string) :
  ListView.string_prop k x = def xv ->
  ListView.string_prop k y = def yv ->
  precedes (ListView.comparefn (ListView.StringColumn k) sortDirection) x y
  = match sortDirection with
    | ListView.asc => String.ltb xv yv
    | ListView.desc => String.ltb yv xv
    end.
Proof.
  intros Hx Hy. unfold precedes, ListView.comparefn.
  rewrite compareValues_negative
    by (apply string_ltb_irreflexive || apply string_ltb_transitive).
  now rewrite Hx, Hy.
Qed.

Lemma defined_value (v : opt string) : nullish v = false -> exists s, v = def s.
Proof. destruct v as [| |s]; try discriminate. intros _. now exists s. Qed.

(** Switching the direction reverses the list, as long as every lead has a
    value in the column and no two leads share one. *)
Theorem descending_reverses_ascending (leads : list Lead) (k : ListView.string_key) :
  Forall (fun lead => nullish (ListView.string_prop k lead) = false) leads ->
  NoDup (map (ListView.string_prop k) leads) ->
  ListView.sortedLeads leads (ListView.StringColumn k) ListView.desc
  = rev (ListView.sortedLeads leads (ListView.StringColumn k) ListView.asc).
Proof.
  intros Hdef Hnd.
  set (col := ListView.StringColumn k).
  set (D := ListView.sortedLeads leads col ListView.desc).
  set (A := ListView.sortedLeads leads col ListView.asc).
  assert (HpD : Permutation D leads) by apply sort_permutation.
  assert (HpA : Permutation A leads) by apply sort_permutation.
  rewrite Forall_forall in Hdef.
  apply (StronglySorted_unique
           (fun x y => precedes (ListView.comparefn col ListView.desc) y x = false)).
  - intros x y Hx Hy Hxy Hyx.
    apply (Permutation_in _ HpD) in Hx. apply (Permutation_in _ HpD) in Hy.
    destruct (defined_value _ (Hdef x Hx)) as [xv Hxv].
    destruct (defined_value _ (Hdef y Hy)) as [yv Hyv].
    unfold col in Hxy, Hyx.
    rewrite (string_column_precedes k ListView.desc y x yv xv Hyv Hxv) in Hxy.
    rewrite (string_column_precedes k ListView.desc x y xv yv Hxv Hyv) in Hyx.
    apply (NoDup_map_injective (ListView.string_prop k) leads); auto.
    rewrite Hxv, Hyv. f_equal. now apply string_ltb_total.
  - apply sortedLeads_in_order.
  - apply (StronglySorted_weaken_in
             (fun x y => precedes (ListView.comparefn col ListView.asc) x y = false)).
    + intros x y Hx Hy Hxy.
      apply in_rev in Hx. apply in_rev in Hy.
      apply (Permutation_in _ HpA) in Hx. apply (Permutation_in _ HpA) in Hy.
      destruct (defined_value _ (Hdef x Hx)) as [xv Hxv].
      destruct (defined_value _ (Hdef y Hy)) as [yv Hyv].
      unfold col in *.
      rewrite (string_column_precedes k ListView.asc x y xv yv Hxv Hyv) in Hxy.
      now rewrite (string_column_precedes k ListView.desc y x yv xv Hyv Hxv).
    + apply (StronglySorted_rev
               (fun x y => precedes (ListView.comparefn col ListView.asc) y x = false)).
      apply sortedLeads_in_order.
  - rewrite HpD. rewrite <- (Permutation_rev A). now symmetry.
Qed.

Lemma descending_reverses_ascending_witness :
  ListView.sortedLeads
    [updated "a" (def "2024-05-02T10:00:00.000Z");
     updated "c" (def "2024-05-03T08:30:00.000Z")]
    (ListView.StringColumn ListView.K_last_updated_at) ListView.desc
  = rev (ListView.sortedLeads
           [updated "a" (def "2024-05-02T10:00:00.000Z");
            updated "c" (def "2024-05-03T08:30:00.000Z")]
           (ListView.StringColumn ListView.K_last_updated_at) ListView.asc).
Proof.
  apply descending_reverses_ascending.
  - repeat constructor.
  - repeat constructor; cbn; intuition discriminate.
Defined.

Lemma column_eqb_eq (a b : ListView.column) :
  ListControls.column_eqb a b = true <-> a = b.
Proof.
  destruct a as [[] | []], b as [[] | []]; cbn; split; intros H;
    (reflexivity || discriminate H).
Qed.

(** Clicking a column header: on the active column it flips the direction,
    so that two clicks restore the controls; on another column it makes that
    column active, ascending.  The search term, the filters and the current
    page are never touched. *)
Theorem handleSort_toggles (column : ListView.column) (c : ListControls.Controls) :
  (ListControls.sortColumn c = column ->
   ListControls.sortColumn (ListControls.handleSort column c) = column
   /\ ListControls.sortDirection (ListControls.handleSort column c)
      <> ListControls.sortDirection c
   /\ ListControls.handleSort column (ListControls.handleSort column c) = c)
  /\ (ListControls.sortColumn c <> column ->
      ListControls.sortColumn (ListControls.handleSort column c) = column
      /\ ListControls.sortDirection (ListControls.handleSort column c) = ListView.asc)
  /\ ListControls.searchTerm (ListControls.handleSort column c) = ListControls.searchTerm c
  /\ ListControls.filters (ListControls.handleSort column c) = ListControls.filters c
  /\ ListControls.currentPage (ListControls.handleSort column c)
     = ListControls.currentPage c.
Proof.
  unfold ListControls.handleSort.
  destruct (ListControls.column_eqb (ListControls.sortColumn c) column) eqn:Heq.
  - apply column_eqb_eq in Heq.
    split; [|split; [|split; [|split]]]; try reflexivity.
    + intros _. cbn. split; [exact Heq|]. split.
      * destruct (ListControls.sortDirection c); discriminate.
      * rewrite Heq, (proj2 (column_eqb_eq column column) eq_refl).
        destruct c as [term fs col [] cp]; cbn in *; now subst.
    + intros Hne. now elim Hne.
  - assert (Hne : ListControls.sortColumn c <> column).
    { intros H. apply column_eqb_eq in H. congruence. }
    split; [|split; [|split; [|split]]]; try reflexivity.
    + intros H. now elim Hne.
    + intros _. split; reflexivity.
Qed.

Lemma handleSort_toggles_witness :
  ListControls.handleSort (ListView.StringColumn ListView.K_last_updated_at)
    (ListControls.handleSort (ListView.StringColumn ListView.K_last_updated_at)
       ListControls.initial)
  = ListControls.initial
  /\ ListControls.sortDirection
       (ListControls.handleSort (ListView.StringColumn ListView.K_fullname)
          ListControls.initial)
     = ListView.asc.
Proof.
  destruct (handleSort_toggles (ListView.StringColumn ListView.K_last_updated_at)
              ListControls.initial) as (Hsame & _).
  destruct (handleSort_toggles (ListView.StringColumn ListView.K_fullname)
              ListControls.initial) as (_ & Hother & _).
  split.
  - apply Hsame. reflexivity.
  - apply Hother. discriminate.
Defined.

Lemma currentLeads_first_page (l : list Lead) (n : nat) :
  ListView.currentLeads l 1 n = firstn n l.
Proof.
  unfold ListView.currentLeads.
  replace (1 * Z.of_nat n - Z.of_nat n)%Z with 0%Z by lia.
  rewrite Z.mul_1_l. apply slice_0.
Qed.

(** Typing in the search box, choosing a filter value and clearing the
    filters all return to page 1: the view then shows the first
    [leadsPerPage] leads of the new result, in the sort order that was set;
    after [clearFilters] these are the first leads of the whole sorted
    collection. *)
Theorem narrowing_shows_first_page (leads : list Lead) (c : ListControls.Controls)
    (leadsPerPage : nat) (value : string) (t : ListControls.filterType) :
  ListControls.shown leads (ListControls.onSearchChange value c) leadsPerPage
  = firstn leadsPerPage
      (ListView.sortedLeads
         (ListView.filteredLeads leads value (ListControls.filters c))
         (ListControls.sortColumn c) (ListControls.sortDirection c))
  /\ ListControls.shown leads (ListControls.handleFilterChange t value c) leadsPerPage
     = firstn leadsPerPage
         (ListView.sortedLeads
            (ListView.filteredLeads leads (ListControls.searchTerm c)
               (ListControls.with_filter (ListControls.filters c) t value))
            (ListControls.sortColumn c) (ListControls.sortDirection c))
  /\ ListControls.shown leads (ListControls.clearFilters c) leadsPerPage
     = firstn leadsPerPage
         (ListView.sortedLeads leads
            (ListControls.sortColumn c) (ListControls.sortDirection c)).
Proof.
  unfold ListControls.shown, ListView.page. cbn.
  rewrite !currentLeads_first_page, filteredLeads_unconstrained.
  repeat split.
Qed.

(** ** Pagination: pages, buttons and what removal does to them *)

Lemma firstn_plus {A} (a b : nat) (l : list A) :
  firstn (a + b) l = firstn a l ++ firstn b (skipn a l).
Proof.
  revert l. induction a as [|a IH]; intros l; cbn; [reflexivity|].
  destruct l as [|x l]; cbn.
  - now rewrite firstn_nil.
  - now rewrite IH.
Qed.

Lemma slice_block {A} (a b : nat) (l : list A) :
  slice (Z.of_nat a) (Z.of_nat (a + b)) l = firstn b (skipn a l).
Proof.
  unfold slice.
  destruct (Z.ltb_spec (Z.of_nat a) 0) as [Hneg | _]; [lia|].
  destruct (Z.ltb_spec (Z.of_nat (a + b)) 0) as [Hneg | _]; [lia|].
  destruct (Nat.le_gt_cases (List.length l) a) as [Hout | Hin].
  - rewrite (skipn_all2 l Hout), firstn_nil.
    replace (Z.to_nat (Z.min (Z.of_nat a) (Z.of_nat (List.length l))))
      with (List.length l) by lia.
    now rewrite skipn_all, firstn_nil.
  - replace (Z.to_nat (Z.min (Z.of_nat a) (Z.of_nat (List.length l)))) with a by lia.
    destruct (Nat.le_gt_cases b (List.length l - a)) as [Hfit | Hcut].
    + f_equal. lia.
    + replace (Z.to_nat (Z.min (Z.of_nat (a + b)) (Z.of_nat (List.length l))
                         - Z.min (Z.of_nat a) (Z.of_nat (List.length l))))
        with (List.length l - a) by lia.
      rewrite !firstn_all2; (reflexivity || rewrite length_skipn; lia).
Qed.

Lemma currentLeads_block (l : list Lead) (k n : nat) :
  ListView.currentLeads l (Z.of_nat (S k)) n = firstn n (skipn (k * n) l).
Proof.
  unfold ListView.currentLeads.
  replace (Z.of_nat (S k) * Z.of_nat n - Z.of_nat n)%Z with (Z.of_nat (k * n)) by lia.
  replace (Z.of_nat (S k) * Z.of_nat n)%Z with (Z.of_nat (k * n + n)) by lia.
  apply slice_block.
Qed.

Lemma pages_up_to (l : list Lead) (n k : nat) :
  List.concat (map (fun p => ListView.currentLeads l (Z.of_nat p) n) (seq 1 k))
  = firstn (k * n) l.
Proof.
  induction k as [|k IH]; [reflexivity|].
  rewrite seq_S, map_app, concat_app, IH. cbn [map List.concat Nat.add].
  rewrite app_nil_r, currentLeads_block.
  replace (S k * n) with (k * n + n) by lia.
  now rewrite firstn_plus.
Qed.

(** The pages 1 to [totalPages], one after the other, are the whole list:
    every lead is on exactly one page, in order. *)
Theorem pages_partition (sorted : list Lead) (leadsPerPage : nat) :
  0 < leadsPerPage ->
  List.concat (map (fun p => ListView.currentLeads sorted (Z.of_nat p) leadsPerPage)
            (seq 1 (Z.to_nat (ListView.totalPages sorted leadsPerPage))))
  = sorted.
Proof.
  intros Hpos. rewrite pages_up_to. apply firstn_all2.
  pose proof (Math_ceil_div_bounds (Z.of_nat (List.length sorted))
                (Z.of_nat leadsPerPage) ltac:(lia)) as [_ Hup].
  unfold ListView.totalPages. nia.
Qed.

Lemma pages_partition_witness :
  List.concat (map (fun p => ListView.currentLeads forty_five (Z.of_nat p) 20)
            (seq 1 (Z.to_nat (ListView.totalPages forty_five 20))))
  = forty_five.
Proof. apply pages_partition. lia. Defined.

(** The pagination buttons: every page button, in the views with three
    and in [AllLeads] with five, names a page from 1 to [totalPages], so
    the callback never returns [null]; when the current page lies in that
    range it is one of the buttons, and "previous" and "next" stay in the
    range. *)
Theorem pagination_buttons_in_range (totalPages currentPage : Z) :
  Forall (fun b => exists p, b = Some p /\ (1 <= p <= totalPages)%Z)
    (ListControls.pageButtons totalPages currentPage)
  /\ Forall (fun p => (1 <= p <= totalPages)%Z)
       (ListControls.pageButtons5 totalPages currentPage)
  /\ ((1 <= currentPage <= totalPages)%Z ->
      In (Some currentPage) (ListControls.pageButtons totalPages currentPage)
      /\ In currentPage (ListControls.pageButtons5 totalPages currentPage)
      /\ (1 <= ListControls.previousPage currentPage <= totalPages)%Z
      /\ (1 <= ListControls.nextPage totalPages currentPage <= totalPages)%Z).
Proof.
  unfold ListControls.pageButtons, ListControls.pageButtons5,
    ListControls.previousPage, ListControls.nextPage.
  split; [|split].
  - apply Forall_map, Forall_forall. intros i Hi. apply in_seq in Hi.
    destruct (Z.ltb_spec totalPages
                (Z.max 1 (Z.min (totalPages - 2) (currentPage - 1)) + Z.of_nat i))
      as [Hover | Hfit].
    + exfalso. lia.
    + eexists. split; [reflexivity | lia].
  - apply Forall_map, Forall_forall. intros i Hi. apply in_seq in Hi. lia.
  - intros Hrange. split; [|split; [|lia]].
    + apply in_map_iff.
      exists (Z.to_nat (currentPage
                        - Z.max 1 (Z.min (totalPages - 2) (currentPage - 1)))).
      split.
      * destruct (Z.ltb_spec totalPages
                    (Z.max 1 (Z.min (totalPages - 2) (currentPage - 1))
                     + Z.of_nat (Z.to_nat (currentPage
                         - Z.max 1 (Z.min (totalPages - 2) (currentPage - 1))))))
          as [Hover | Hfit]; [exfalso; lia | f_equal; lia].
      * apply in_seq. lia.
    + apply in_map_iff.
      exists (Z.to_nat (currentPage
                        - Z.max 1 (Z.min (totalPages - 4) (currentPage - 2)))).
      split; [lia | apply in_seq; lia].
Qed.

Lemma pagination_buttons_in_range_witness :
  In (Some 7%Z) (ListControls.pageButtons 9 7)
  /\ In 7%Z (ListControls.pageButtons5 9 7).
Proof.
  destruct (pagination_buttons_in_range 9 7) as (_ & _ & H).
  destruct (H ltac:(lia)) as (H3 & H5 & _).
  split; assumption.
Defined.

Example page_buttons_examples :
  ListControls.pageButtons 9 7 = [Some 6; Some 7; Some 8]%Z
  /\ ListControls.pageButtons 9 9 = [Some 7; Some 8; Some 9]%Z
  /\ ListControls.pageButtons5 9 1 = [1; 2; 3; 4; 5]%Z
  /\ ListControls.pageButtons 2 1 = [Some 1; Some 2]%Z.
Proof. repeat split; reflexivity. Qed.

Lemma Math_ceil_div_unique (a b k : Z) :
  (0 < b)%Z -> ((k - 1) * b < a <= k * b)%Z -> Math_ceil_div a b = k.
Proof.
  intros Hb [Hlow Hup].
  destruct (Math_ceil_div_bounds a b Hb) as [Hlow' Hup'].
  assert (H1 : ((Math_ceil_div a b - 1) * b < k * b)%Z) by lia.
  assert (H2 : ((k - 1) * b < Math_ceil_div a b * b)%Z) by lia.
  apply Z.mul_lt_mono_pos_r in H1; [|exact Hb].
  apply Z.mul_lt_mono_pos_r in H2; [|exact Hb].
  lia.
Qed.

Lemma filter_commute {A} (p q : A -> bool) (l : list A) :
  filter p (filter q l) = filter q (filter p l).
Proof.
  induction l as [|x l IH]; cbn; [reflexivity|].
  destruct (p x) eqn:Hp, (q x) eqn:Hq; cbn; rewrite ?Hp, ?Hq, IH; reflexivity.
Qed.

Lemma length_filter_complement {A} (p : A -> bool) (l : list A) :
  List.length (filter p l) + List.length (filter (fun x => negb (p x)) l)
  = List.length l.
Proof.
  rewrite <- length_app. apply Permutation_length, filter_partition.
Qed.

(** Removal does not move the page.  When the current page is the last
    one, [p >= 2], and holds a single lead, and a toggle that the
    repository accepts takes one lead out of the visible list, the current
    page stays [p]: the page count drops to [p - 1] and the view shows no
    lead, although leads remain. *)
Theorem removal_can_empty_the_page (now : nat -> string)
    (respond : string -> Toggle.UpdateData -> option Toggle.Thrown)
    (t : Toggle.toggle) (leadId : string) (s : Toggle.State)
    (c : ListControls.Controls) (leadsPerPage : nat) :
  let visible :=
    ListView.filteredLeads (Toggle.leads s) (ListControls.searchTerm c)
      (ListControls.filters c) in
  let s' := Toggle.after (Toggle.onClick now respond t leadId) s in
  (forall d, respond leadId d = None) ->
  0 < leadsPerPage ->
  (2 <= ListControls.currentPage c)%Z ->
  Z.of_nat (List.length visible)
  = ((ListControls.currentPage c - 1) * Z.of_nat leadsPerPage + 1)%Z ->
  List.length (filter (fun lead => id lead =? leadId) visible) = 1 ->
  ListControls.pages (Toggle.leads s) c leadsPerPage = ListControls.currentPage c
  /\ ListControls.pages (Toggle.leads s') c leadsPerPage
     = (ListControls.currentPage c - 1)%Z
  /\ ListControls.shown (Toggle.leads s') c leadsPerPage = []
  /\ ListView.filteredLeads (Toggle.leads s') (ListControls.searchTerm c)
       (ListControls.filters c) <> [].
Proof.
  cbv zeta. intros Hok Hpos Hpage Hlen Hone.
  destruct (onClick_outcome now respond t leadId s) as (d & _ & _ & _ & ->).
  cbn [Toggle.leads]. rewrite (Hok d).
  set (visible := ListView.filteredLeads (Toggle.leads s) (ListControls.searchTerm c)
                    (ListControls.filters c)) in *.
  assert (Hvisible' :
            ListView.filteredLeads
              (filter (fun lead => negb (id lead =? leadId)) (Toggle.leads s))
              (ListControls.searchTerm c) (ListControls.filters c)
            = filter (fun lead => negb (id lead =? leadId)) visible).
  { unfold visible, ListView.filteredLeads. apply filter_commute. }
  assert (Hlen' : Z.of_nat (List.length (filter (fun lead => negb (id lead =? leadId)) visible))
                  = ((ListControls.currentPage c - 1) * Z.of_nat leadsPerPage)%Z).
  { pose proof (length_filter_complement (fun lead => id lead =? leadId) visible). lia. }
  unfold ListControls.pages, ListControls.shown, ListView.page, ListView.totalPages.
  rewrite Hvisible'.
  rewrite !(proj2 (sortedLeads_rearranges_length _ _ _)).
  fold visible.
  split; [|split; [|split]].
  - apply Math_ceil_div_unique; lia.
  - apply Math_ceil_div_unique; lia.
  - unfold ListView.currentLeads. apply slice_beyond.
    rewrite (proj2 (sortedLeads_rearranges_length _ _ _)). nia.
  - intros Hnil. rewrite Hnil in Hlen'. cbn in Hlen'. nia.
Qed.

(** Three leads in pages of two, the view on page 2; lead "b" is marked as
    booked: two leads remain and page 2 shows none of them. *)
Lemma removal_can_empty_the_page_witness :
  ListControls.shown
    (Toggle.leads
       (Toggle.after (Toggle.onClick frozen_clock accept Toggle.Replies_booked "b")
          replies_view))
    (ListControls.setCurrentPage 2 ListControls.initial) 2
  = [].
Proof.
  apply (removal_can_empty_the_page frozen_clock accept Toggle.Replies_booked "b"
           replies_view (ListControls.setCurrentPage 2 ListControls.initial) 2).
  - reflexivity.
  - lia.
  - cbn. lia.
  - reflexivity.
  - reflexivity.
Defined.

(** ** Labels *)

Lemma upper_word_facts (c : ascii) :
  ListControls.word (ListControls.upper_word c) = ListControls.word c
  /\ ListControls.upper_word (ListControls.upper_word c) = ListControls.upper_word c
  /\ (c <> "_"%char -> ListControls.upper_word c <> "_"%char).
Proof.
  destruct c as [[] [] [] [] [] [] [] []];
    (split; [reflexivity | split; [reflexivity | intros H; (exact H || discriminate)]]).
Qed.

Lemma capitalize_words_length (b : bool) (s : string) :
  String.length (ListControls.capitalize_words b s) = String.length s.
Proof.
  revert b. induction s as [|c s IH]; intros b; cbn; [reflexivity|]. now rewrite IH.
Qed.

Lemma underscores_to_spaces_length (s : string) :
  String.length (ListControls.underscores_to_spaces s) = String.length s.
Proof. induction s as [|c s IH]; cbn; [reflexivity|]. now rewrite IH. Qed.

Lemma underscores_to_spaces_none (s : string) :
  ~ In "_"%char (list_ascii_of_string (ListControls.underscores_to_spaces s)).
Proof.
  induction s as [|c s IH]; cbn; [easy|].
  intros [H | H]; [|exact (IH H)].
  destruct (Ascii.eqb_spec c "_"); [discriminate H | congruence].
Qed.

Lemma capitalize_words_none (b : bool) (s : string) :
  ~ In "_"%char (list_ascii_of_string s) ->
  ~ In "_"%char (list_ascii_of_string (ListControls.capitalize_words b s)).
Proof.
  revert b. induction s as [|c s IH]; intros b; cbn; [easy|].
  intros Hnone [H | H].
  - destruct (negb b && ListControls.word c).
    + assert (Hc : c <> "_"%char) by (intros ->; apply Hnone; now left).
      exact (proj2 (proj2 (upper_word_facts c)) Hc H).
    + apply Hnone. now left.
  - apply (IH (ListControls.word c)); [|exact H].
    intros Hin. apply Hnone. now right.
Qed.

Lemma underscores_to_spaces_fixed (s : string) :
  ~ In "_"%char (list_ascii_of_string s) -> ListControls.underscores_to_spaces s = s.
Proof.
  induction s as [|c s IH]; cbn; [reflexivity|]. intros Hnone.
  destruct (Ascii.eqb_spec c "_") as [-> | Hne].
  - elim Hnone. now left.
  - rewrite IH; [reflexivity|]. intros H. apply Hnone. now right.
Qed.

Lemma capitalize_words_idempotent (b : bool) (s : string) :
  ListControls.capitalize_words b (ListControls.capitalize_words b s)
  = ListControls.capitalize_words b s.
Proof.
  revert b. induction s as [|c s IH]; intros b; cbn; [reflexivity|].
  destruct (upper_word_facts c) as (Hword & Hup & _).
  destruct (negb b && ListControls.word c) eqn:Hcap.
  - rewrite Hword, Hcap, Hup, IH. reflexivity.
  - rewrite Hcap, IH. reflexivity.
Qed.

(** The label of a filter option has the length of the value, contains no
    underscore, and is its own label: formatting twice changes nothing. *)
Theorem formatOptionLabel_stable (value : string) :
  String.length (ListControls.formatOptionLabel value) = String.length value
  /\ ~ In "_"%char (list_ascii_of_string (ListControls.formatOptionLabel value))
  /\ ListControls.formatOptionLabel (ListControls.formatOptionLabel value)
     = ListControls.formatOptionLabel value.
Proof.
  unfold ListControls.formatOptionLabel.
  split; [|split].
  - now rewrite capitalize_words_length, underscores_to_spaces_length.
  - apply capitalize_words_none, underscores_to_spaces_none.
  - rewrite underscores_to_spaces_fixed
      by apply capitalize_words_none, underscores_to_spaces_none.
    apply capitalize_words_idempotent.
Qed.

Example formatOptionLabel_examples :
  ListControls.formatOptionLabel "cold_email" = "Cold Email"%string
  /\ ListControls.formatOptionLabel "linkedin" = "Linkedin"%string
  /\ ListControls.formatOptionLabel "day_2_follow-up" = "Day 2 Follow-Up"%string.
Proof. repeat split; reflexivity. Qed.

(** ** The last email subject and the sequence progress *)

Lemma sent_subject_cases (sent : opt bool) (subject : opt string) :
  (truthy sent && truthy_str subject = true
   /\ exists s, subject = def s /\ s <> EmptyString
                /\ Details.sent_subject sent subject = Some s)
  \/ (truthy sent && truthy_str subject = false
      /\ Details.sent_subject sent subject = None).
Proof.
  unfold Details.sent_subject, truthy_str.
  destruct subject as [| |s]; try (right; split; [apply andb_false_r | reflexivity]).
  destruct (truthy sent && truthy_string s) eqn:H; [left | right; auto].
  split; [reflexivity|]. exists s. repeat split.
  apply andb_true_iff in H. destruct H as [_ H]. intros ->. discriminate H.
Qed.

(** The subject shown in the Replies view is that of the highest step that
    is sent and has a non-empty subject, and "No subject available" when
    there is no such step; it is never the empty string. *)
Theorem last_email_subject (lead : Lead) (more : Details.More) :
  Details.getLastEmailSubject lead more <> EmptyString
  /\ (forall n s,
         1 <= n <= 4 ->
         Spec.subject_of n more = def s ->
         Spec.sent_with_subject n lead more = true ->
         (forall m, n < m <= 4 -> Spec.sent_with_subject m lead more = false) ->
         Details.getLastEmailSubject lead more = s)
  /\ ((forall n, 1 <= n <= 4 -> Spec.sent_with_subject n lead more = false) ->
      Details.getLastEmailSubject lead more = "No subject available"%string).
Proof.
  unfold Details.getLastEmailSubject, Spec.sent_with_subject.
  destruct (sent_subject_cases (day_4_sent lead) (Details.day_4_subject more))
    as [(U4 & s4 & E4 & N4 & Q4) | (U4 & Q4)];
  destruct (sent_subject_cases (day_3_sent lead) (Details.day_3_subject more))
    as [(U3 & s3 & E3 & N3 & Q3) | (U3 & Q3)];
  destruct (sent_subject_cases (day_2_sent lead) (Details.day_2_subject more))
    as [(U2 & s2 & E2 & N2 & Q2) | (U2 & Q2)];
  destruct (sent_subject_cases (day_1_sent lead) (Details.day_1_subject more))
    as [(U1 & s1 & E1 & N1 & Q1) | (U1 & Q1)];
  rewrite ?Q4, ?Q3, ?Q2, ?Q1; clear Q4 Q3 Q2 Q1;
  (split; [try assumption; try discriminate|]);
  (split;
   [ intros n s Hn Hs Hu Hhigher;
     assert (H4 := Hhigher 4); assert (H3 := Hhigher 3); assert (H2 := Hhigher 2);
     destruct (step_cases n Hn) as [-> | [-> | [-> | ->]]];
     cbn [Spec.sent Spec.subject_of] in *;
     try congruence;
     try (specialize (H4 ltac:(lia)); congruence);
     try (specialize (H3 ltac:(lia)); congruence);
     try (specialize (H2 ltac:(lia)); congruence)
   | intros Hnone;
     assert (H4 := Hnone 4 ltac:(lia)); assert (H3 := Hnone 3 ltac:(lia));
     assert (H2 := Hnone 2 ltac:(lia)); assert (H1 := Hnone 1 ltac:(lia));
     cbn [Spec.sent Spec.subject_of] in *; congruence ]).
Qed.

(** Steps 1 to 3 sent, subjects known for steps 1 and 2 only: the subject of
    step 2 is shown, although the current stage is "Day 3 Sent". *)
Lemma last_email_subject_witness :
  Details.getLastEmailSubject
    (progress "c" true true true false true false) two_subjects
  = "Following up"%string.
Proof.
  destruct (last_email_subject (progress "c" true true true false true false)
              two_subjects) as (_ & Hbest & _).
  apply (Hbest 2); [lia | reflexivity | reflexivity |].
  intros m Hm. assert (m = 3 \/ m = 4) as [-> | ->] by lia; reflexivity.
Defined.

(** The progress bar of the detail modal follows [days], a missing or
    zero [days] counting as day 1: for a lead in its [d]-th day, [d] from 1
    to [Number.MAX_SAFE_INTEGER], the completed steps are [min(d, 4)],
    between 1 and the total 4, the percentage is 25 per completed step, the
    current stage reads "Day " and the decimal digits of [d], and the
    sequence is announced complete exactly from day 4 on.  Beyond the safe
    integers the digits shown are the engine's rounded ones. *)
Theorem sequenceProgress_by_days (Number_toString_beyond : Z -> string)
    (more : Details.More) :
  let d := Spec.day_of more in
  let p := Details.sequenceProgress Number_toString_beyond (Some more) in
  (1 <= d <= MAX_SAFE_INTEGER)%Z ->
  Details.completed p = Z.min d 4
  /\ (1 <= Details.completed p <= Details.total p)%Z
  /\ Details.percentage p = float_of_Z (25 * Details.completed p)
  /\ Details.currentStage p = ("Day " ++ decimalZ d)%string
  /\ (Details.nextStage p = "Sequence Complete"%string <-> (4 <= d)%Z).
Proof.
  cbv zeta. unfold Details.sequenceProgress.
  assert (Hday : match Details.days more with
                 | def d => if (d =? 0)%Z then 1%Z else d
                 | _ => 1%Z
                 end = Spec.day_of more).
  { unfold Spec.day_of. destruct (Details.days more) as [| |[|d|d]]; reflexivity. }
  rewrite Hday. generalize (Spec.day_of more). clear Hday. intros d Hd.
  unfold Details.template_number.
  replace (Z.abs d <=? MAX_SAFE_INTEGER)%Z with true
    by (symmetry; apply Z.leb_le; lia).
  cbn.
  split; [reflexivity|]. split; [lia|].
  assert (Hcases : d = 1%Z \/ d = 2%Z \/ d = 3%Z \/ (4 <= d)%Z) by lia.
  split; [|split; [reflexivity|]].
  - destruct Hcases as [-> | [-> | [-> | H4]]]; try reflexivity.
    rewrite Z.min_r by lia. reflexivity.
  - destruct (Z.ltb_spec d 2); [split; [discriminate | lia]|].
    destruct (Z.ltb_spec d 3); [split; [discriminate | lia]|].
    destruct (Z.ltb_spec d 4); [split; [discriminate | lia]|].
    split; [lia | reflexivity].
Qed.

Lemma sequenceProgress_by_days_witness :
  Details.completed (Details.sequenceProgress exponent_form (Some two_subjects)) = 3%Z
  /\ Details.percentage (Details.sequenceProgress exponent_form (Some two_subjects))
     = 75%float
  /\ Details.currentStage (Details.sequenceProgress exponent_form (Some two_subjects))
     = "Day 3"%string.
Proof.
  destruct (sequenceProgress_by_days exponent_form two_subjects
              ltac:(cbn; unfold MAX_SAFE_INTEGER; lia))
    as (Hc & _ & Hp & Hs & _).
  split; [exact Hc|]. split; [exact Hp | exact Hs].
Defined.

(** ** The toggle while its request is in flight *)

Lemma has_add_same (s : list string) (x : string) : has (add s x) x = true.
Proof.
  unfold add. destruct (has s x) eqn:H; [exact H|].
  apply has_In, in_or_app. right. now left.
Qed.

Lemma has_add_other (s : list string) (x y : string) :
  x <> y -> has (add s x) y = has s y.
Proof.
  intros Hne. unfold add. destruct (has s x); [reflexivity|].
  unfold has. rewrite existsb_app. cbn.
  destruct (String.eqb_spec y x) as [-> | _]; [now elim Hne|].
  now rewrite !orb_false_r.
Qed.

Lemma updateLeadStatus_split (now : nat -> string)
    (respond : string -> Toggle.UpdateData -> option Toggle.Thrown)
    (leadId : string) (fld : Toggle.field) (value : bool) (s : Toggle.State) :
  Toggle.after (Toggle.updateLeadStatus now respond leadId fld value) s
  = Toggle.after
      (InFlight.resumed leadId fld
         (respond leadId (fst (InFlight.suspended now leadId fld value s))))
      (snd (InFlight.suspended now leadId fld value s)).
Proof.
  unfold Toggle.after, Toggle.updateLeadStatus, InFlight.resumed,
    InFlight.suspended, InFlight.build, Toggle.try_catch_finally, Toggle.bind,
    Toggle.setUpdatingLeads, Toggle.newDateISOString, Toggle.supabase_update,
    Toggle.setLeads, Toggle.setError, Toggle.throw, Toggle.ret.
  destruct fld, value; cbn;
    match goal with
    | |- context [respond ?i ?d] => destruct (respond i d)
    end; reflexivity.
Qed.

(** [updateLeadStatus] is what runs before its [await] followed by what runs
    after it; while the request is in flight the id of the lead is in
    [updatingLeads], so its buttons are disabled, no other id enters or
    leaves that set, and the leads and the error are as before. *)
Theorem in_flight_while_awaiting (now : nat -> string)
    (respond : string -> Toggle.UpdateData -> option Toggle.Thrown)
    (leadId : string) (fld : Toggle.field) (value : bool) (s : Toggle.State) :
  let request := fst (InFlight.suspended now leadId fld value s) in
  let waiting := snd (InFlight.suspended now leadId fld value s) in
  Toggle.after (Toggle.updateLeadStatus now respond leadId fld value) s
  = Toggle.after (InFlight.resumed leadId fld (respond leadId request)) waiting
  /\ has (Toggle.updatingLeads waiting) leadId = true
  /\ (forall other, other <> leadId ->
        has (Toggle.updatingLeads waiting) other
        = has (Toggle.updatingLeads s) other)
  /\ Toggle.leads waiting = Toggle.leads s
  /\ Toggle.error waiting = Toggle.error s
  /\ Toggle.requests waiting = Toggle.requests s ++ [Toggle.Update leadId request].
Proof.
  cbv zeta. split; [apply updateLeadStatus_split|].
  unfold InFlight.suspended, InFlight.build, Toggle.bind,
    Toggle.setUpdatingLeads, Toggle.newDateISOString, Toggle.ret.
  destruct fld, value; cbn;
    (split; [apply has_add_same|]);
    (split; [intros other Hne; apply has_add_other; congruence|]);
    repeat split.
Qed.

Lemma in_flight_while_awaiting_witness :
  has (Toggle.updatingLeads
         (snd (InFlight.suspended frozen_clock "b" Toggle.booked_field true
                 replies_view)))
    "a"
  = has (Toggle.updatingLeads replies_view) "a".
Proof.
  destruct (in_flight_while_awaiting frozen_clock accept "b" Toggle.booked_field
              true replies_view) as (_ & _ & Hothers & _).
  apply Hothers. discriminate.
Defined.

(** [updateLeadStatus] sends a [booked_at] only when it sets booked to
    true: cleared through this handler, booked leaves [booked_at] out of the
    update, where [updateBookedStatus] sends [null]. *)
Theorem booked_at_only_when_booking (now : nat -> string)
    (leadId : string) (fld : Toggle.field) (value : bool) (s : Toggle.State) :
  Toggle.u_booked_at (fst (InFlight.suspended now leadId fld value s))
  = match fld, value with
    | Toggle.booked_field, true => def (now (S (Toggle.clock_reads s)))
    | _, _ => undefined
    end
  /\ forall respond,
       exists d,
         Toggle.requests (Toggle.after (Toggle.updateBookedStatus now respond leadId) s)
         = Toggle.requests s ++ [Toggle.Update leadId d]
         /\ Toggle.u_booked_at d = null.
Proof.
  split.
  - unfold InFlight.suspended, InFlight.build, Toggle.bind,
      Toggle.setUpdatingLeads, Toggle.newDateISOString, Toggle.ret.
    destruct fld, value; reflexivity.
  - intros respond.
    destruct (onClick_outcome now respond Toggle.BookedMeetings_not_booked leadId s)
      as (d & _ & _ & Hat & Hafter).
    exists d. cbn [Toggle.onClick] in Hafter. rewrite Hafter. cbn.
    split; [reflexivity | exact Hat].
Qed.

(** ** The lead generation form *)

Lemma toggled_In (sizes : list string) (value x : string) :
  In x (LeadGenerationForm.toggled sizes value)
  <-> (x = value /\ ~ In value sizes) \/ (x <> value /\ In x sizes).
Proof.
  unfold LeadGenerationForm.toggled. destruct (has sizes value) eqn:Hhas.
  - apply has_In in Hhas. rewrite filter_In, negb_true_iff, String.eqb_neq. tauto.
  - assert (Hnot : ~ In value sizes) by (intros H; apply has_In in H; congruence).
    rewrite in_app_iff. cbn. split.
    + intros [H | [<- | []]]; [right | left; auto].
      split; [intros ->; contradiction | exact H].
    + intros [[-> _] | [_ H]]; auto.
Qed.

Lemma toggled_NoDup (sizes : list string) (value : string) :
  NoDup sizes -> NoDup (LeadGenerationForm.toggled sizes value).
Proof.
  intros Hnd. unfold LeadGenerationForm.toggled. destruct (has sizes value) eqn:Hhas.
  - now apply NoDup_filter.
  - apply NoDup_app; [exact Hnd | repeat constructor; easy |].
    intros x Hin [<- | []]. apply has_In in Hin. congruence.
Qed.

Lemma filter_out_appended (sizes : list string) (value : string) :
  ~ In value sizes ->
  filter (fun size => negb (size =? value)) (sizes ++ [value]) = sizes.
Proof.
  intros Hnot. rewrite filter_app. cbn. rewrite String.eqb_refl. cbn.
  rewrite app_nil_r. apply filter_all, Forall_forall. intros x Hx.
  apply negb_true_iff, String.eqb_neq. intros ->. contradiction.
Qed.

(** Ticking a company size: the size enters the selection if it was out and
    leaves it if it was in, the other sizes stay, and a selection without
    repetition stays so.  Ticking a size that was out and ticking it again
    restores the selection. *)
Theorem company_size_toggle (sizes : list string) (value : string) :
  (forall x,
      In x (LeadGenerationForm.toggled sizes value)
      <-> (x = value /\ ~ In value sizes) \/ (x <> value /\ In x sizes))
  /\ (NoDup sizes -> NoDup (LeadGenerationForm.toggled sizes value))
  /\ (~ In value sizes ->
      LeadGenerationForm.toggled (LeadGenerationForm.toggled sizes value) value
      = sizes).
Proof.
  split; [intros x; apply toggled_In|]. split; [apply toggled_NoDup|].
  intros Hnot. unfold LeadGenerationForm.toggled at 2.
  assert (Hhas : has sizes value = false).
  { destruct (has sizes value) eqn:H; [|reflexivity]. apply has_In in H. contradiction. }
  rewrite Hhas. unfold LeadGenerationForm.toggled.
  assert (Hin : has (sizes ++ [value]) value = true).
  { apply has_In, in_or_app. right. now left. }
  rewrite Hin. now apply filter_out_appended.
Qed.

Lemma company_size_toggle_witness :
  LeadGenerationForm.toggled
    (LeadGenerationForm.toggled ["11-50"; "51-200"]%string "1-10") "1-10"
  = ["11-50"; "51-200"]%string
  /\ NoDup (LeadGenerationForm.toggled ["11-50"; "51-200"]%string "1-10").
Proof.
  destruct (company_size_toggle ["11-50"; "51-200"]%string "1-10")
    as (_ & Hnd & Hback).
  split.
  - apply Hback. cbn. intuition discriminate.
  - apply Hnd. repeat constructor; cbn; intuition discriminate.
Defined.

Lemma trimStart_first (s : string) (c : ascii) :
  Spec.first_char (trimStart s) = Some c -> white c = false.
Proof.
  induction s as [|d s IH]; cbn; [discriminate|].
  destruct (white d) eqn:Hd; [exact IH|].
  cbn. intros [= <-]. exact Hd.
Qed.

Lemma trimEnd_last (s : string) (c : ascii) :
  Spec.last_char (trimEnd s) = Some c -> white c = false.
Proof.
  induction s as [|d s IH]; cbn [trimEnd]; [discriminate|].
  destruct (trimEnd s) as [|e rest] eqn:E.
  - destruct (white d) eqn:Hd; cbn; [discriminate|]. intros [= <-]. exact Hd.
  - cbn [Spec.last_char]. exact IH.
Qed.

Lemma trimEnd_first (s : string) (c : ascii) :
  Spec.first_char (trimEnd s) = Some c -> Spec.first_char s = Some c.
Proof.
  destruct s as [|d s]; cbn [trimEnd]; [discriminate|].
  destruct (trimEnd s); [destruct (white d)|]; cbn; (discriminate || auto).
Qed.

Lemma trim_trimmed (s : string) : Spec.trimmed (trim s).
Proof.
  unfold Spec.trimmed, trim. split; intros c H.
  - apply trimEnd_first in H. now apply trimStart_first in H.
  - now apply trimEnd_last in H.
Qed.

(** A submit is stopped before any request when the job title is blank or
    no company size is selected: nothing is posted, the form, the loading
    flag and the success message stay as they are, and the reason is
    shown. *)
Theorem submit_stopped_by_validation (webhookUrl : opt string) (now : nat -> string)
    (fetch : string -> LeadGenerationForm.Body
             -> Toggle.Thrown + LeadGenerationForm.Response)
    (s : LeadGenerationForm.State) :
  let form := LeadGenerationForm.formData s in
  let s' := Effect.after (LeadGenerationForm.handleSubmit webhookUrl now fetch) s in
  trim (LeadGenerationForm.jobTitle form) = EmptyString
  \/ LeadGenerationForm.companySize form = [] ->
  LeadGenerationForm.posted s' = LeadGenerationForm.posted s
  /\ LeadGenerationForm.formData s' = form
  /\ LeadGenerationForm.loading s' = LeadGenerationForm.loading s
  /\ LeadGenerationForm.successMessage s' = LeadGenerationForm.successMessage s
  /\ LeadGenerationForm.error s'
     = Some (if trim (LeadGenerationForm.jobTitle form) =? EmptyString
             then "Job Title is required"
             else "Please select at least one company size")%string.
Proof.
  cbv zeta. intros Hinvalid.
  unfold Effect.after, LeadGenerationForm.handleSubmit, Effect.bind, Effect.read.
  unfold truthy_string.
  destruct (String.eqb_spec (trim (LeadGenerationForm.jobTitle (LeadGenerationForm.formData s)))
              EmptyString) as [Hblank | Htitle]; cbn [negb].
  - repeat split.
  - destruct Hinvalid as [H | H]; [contradiction|]. rewrite H. repeat split.
Qed.

Lemma submit_stopped_by_validation_witness :
  LeadGenerationForm.error
    (Effect.after
       (LeadGenerationForm.handleSubmit (def "https://hooks.example/x") frozen_clock
          webhook_ok)
       LeadGenerationForm.initial)
  = Some "Job Title is required"%string.
Proof.
  destruct (submit_stopped_by_validation (def "https://hooks.example/x") frozen_clock
              webhook_ok LeadGenerationForm.initial (or_introl eq_refl))
    as (_ & _ & _ & _ & H).
  exact H.
Defined.

Ltac run_submit :=
  unfold Effect.after, LeadGenerationForm.handleSubmit,
    Effect.try_catch_finally, Effect.bind, Effect.read, Effect.modify,
    Effect.ret, Effect.throw, LeadGenerationForm.message_of,
    LeadGenerationForm.text_or,
    LeadGenerationForm.setLoading,
    LeadGenerationForm.setError, LeadGenerationForm.setSuccessMessage,
    LeadGenerationForm.setFormData, LeadGenerationForm.newDateISOString,
    LeadGenerationForm.post, LeadGenerationForm.response_json.

(** A submit that passes validation, the webhook being configured, posts
    exactly one body: the job title, keywords and location trimmed, the job
    title not empty, the sizes as selected, stamped with the clock.  When
    the webhook takes it, the form is emptied, a success message is shown
    and the error cleared; otherwise the form keeps what the user typed, an
    error is shown and no success message.  Loading is over either way. *)
Theorem submit_outcome (url : string) (now : nat -> string)
    (fetch : string -> LeadGenerationForm.Body
             -> Toggle.Thrown + LeadGenerationForm.Response)
    (s : LeadGenerationForm.State) :
  let form := LeadGenerationForm.formData s in
  let body := Spec.body_of form (now (LeadGenerationForm.clock_reads s)) in
  let s' := Effect.after (LeadGenerationForm.handleSubmit (def url) now fetch) s in
  url <> EmptyString ->
  trim (LeadGenerationForm.jobTitle form) <> EmptyString ->
  LeadGenerationForm.companySize form <> [] ->
  LeadGenerationForm.posted s' = LeadGenerationForm.posted s ++ [(url, body)]
  /\ LeadGenerationForm.b_jobTitle body <> EmptyString
  /\ Spec.trimmed (LeadGenerationForm.b_jobTitle body)
  /\ LeadGenerationForm.loading s' = false
  /\ (Spec.accepted (fetch url body) = true ->
      LeadGenerationForm.formData s' = LeadGenerationForm.emptyForm
      /\ LeadGenerationForm.error s' = None
      /\ exists message, LeadGenerationForm.successMessage s' = Some message)
  /\ (Spec.accepted (fetch url body) = false ->
      LeadGenerationForm.formData s' = form
      /\ LeadGenerationForm.successMessage s' = None
      /\ exists message, LeadGenerationForm.error s' = Some message).
Proof.
  cbv zeta. intros Hurl Htitle Hsizes.
  assert (Hfield :
            negb (truthy_string
                    (trim (LeadGenerationForm.jobTitle (LeadGenerationForm.formData s))))
            = false).
  { apply negb_false_iff. unfold truthy_string. apply negb_true_iff.
    now apply String.eqb_neq. }
  assert (Hcount :
            (List.length (LeadGenerationForm.companySize (LeadGenerationForm.formData s))
             =? 0)%nat = false).
  { destruct (LeadGenerationForm.companySize (LeadGenerationForm.formData s));
      [contradiction | reflexivity]. }
  assert (Hconfigured : truthy_string url = true).
  { unfold truthy_string. apply negb_true_iff. now apply String.eqb_neq. }
  run_submit. cbn [fst snd]. rewrite Hfield, Hcount, Hconfigured.
  unfold Spec.accepted, Spec.body_of. cbn -[trim decimal].
  match goal with
  | |- context [fetch ?u ?b] =>
      destruct (fetch u b)
        as [e | [ok status [e | [typeError | [|[e | text]]]]]]
  end; cbn;
    try destruct ok; cbn;
    (split; [reflexivity|]);
    (split; [exact Htitle|]);
    (split; [apply trim_trimmed|]);
    (split; [reflexivity|]);
    (split; intros H; try discriminate H;
     (split; [reflexivity|]); (split; [reflexivity|]); eexists; reflexivity).
Qed.

Lemma submit_outcome_witness :
  LeadGenerationForm.formData
    (Effect.after
       (LeadGenerationForm.handleSubmit (def "https://hooks.example/x") frozen_clock
          webhook_ok)
       filled_form)
  = LeadGenerationForm.emptyForm
  /\ LeadGenerationForm.formData
       (Effect.after
          (LeadGenerationForm.handleSubmit (def "https://hooks.example/x")
             frozen_clock webhook_down)
          filled_form)
     = LeadGenerationForm.formData filled_form.
Proof.
  destruct (submit_outcome "https://hooks.example/x" frozen_clock webhook_ok
              filled_form ltac:(discriminate) ltac:(discriminate) ltac:(discriminate))
    as (_ & _ & _ & _ & Hok & _).
  destruct (submit_outcome "https://hooks.example/x" frozen_clock webhook_down
              filled_form ltac:(discriminate) ltac:(discriminate) ltac:(discriminate))
    as (_ & _ & _ & _ & _ & Hfail).
  split.
  - apply Hok. reflexivity.
  - apply Hfail. reflexivity.
Defined.

(** The error shown for a response that is not [ok]: the text of the
    [message] of its JSON body when that is truthy (the empty text for an
    empty array), or what converting it to a string throws; the engine's
    [TypeError] when the body is [null]; and otherwise, the [message] being
    falsy or the body no JSON, "HTTP error! status: " followed by the status
    code.  For a missing webhook URL nothing is posted and the configuration
    error is shown. *)
Theorem submit_error_message (webhookUrl : opt string) (now : nat -> string)
    (fetch : string -> LeadGenerationForm.Body
             -> Toggle.Thrown + LeadGenerationForm.Response)
    (s : LeadGenerationForm.State) :
  let form := LeadGenerationForm.formData s in
  let body := Spec.body_of form (now (LeadGenerationForm.clock_reads s)) in
  let s' := Effect.after (LeadGenerationForm.handleSubmit webhookUrl now fetch) s in
  trim (LeadGenerationForm.jobTitle form) <> EmptyString ->
  LeadGenerationForm.companySize form <> [] ->
  (truthy_str webhookUrl = false ->
   LeadGenerationForm.posted s' = LeadGenerationForm.posted s
   /\ LeadGenerationForm.error s'
      = Some "Lead generation webhook URL is not configured"%string)
  /\ (forall url response,
        webhookUrl = def url -> url <> EmptyString ->
        fetch url body = inr response ->
        LeadGenerationForm.ok response = false ->
        LeadGenerationForm.error s'
        = Some match LeadGenerationForm.json response with
               | inr (LeadGenerationForm.json_value
                        (LeadGenerationForm.truthy_text (inr text))) => text
               | inr (LeadGenerationForm.json_value
                        (LeadGenerationForm.truthy_text (inl e))) =>
                   Effect.message_or e
                     "Failed to submit lead generation request. Please try again."
               | inr (LeadGenerationForm.json_null typeError) => typeError
               | _ => ("HTTP error! status: "
                       ++ decimal (LeadGenerationForm.status response))%string
               end).
Proof.
  cbv zeta. intros Htitle Hsizes.
  assert (Hfield :
            negb (truthy_string
                    (trim (LeadGenerationForm.jobTitle (LeadGenerationForm.formData s))))
            = false).
  { apply negb_false_iff. unfold truthy_string. apply negb_true_iff.
    now apply String.eqb_neq. }
  assert (Hcount :
            (List.length (LeadGenerationForm.companySize (LeadGenerationForm.formData s))
             =? 0)%nat = false).
  { destruct (LeadGenerationForm.companySize (LeadGenerationForm.formData s));
      [contradiction | reflexivity]. }
  split.
  - intros Hmissing. run_submit. cbn [fst snd]. rewrite Hfield, Hcount.
    destruct webhookUrl as [| |url]; cbn in Hmissing |- *; try (split; reflexivity).
    rewrite Hmissing. cbn. split; reflexivity.
  - intros url response -> Hurl Hfetch Hnotok.
    assert (Hconfigured : truthy_string url = true).
    { unfold truthy_string. apply negb_true_iff. now apply String.eqb_neq. }
    run_submit. cbn [fst snd]. rewrite Hfield, Hcount, Hconfigured.
    unfold Spec.body_of in Hfetch. cbn -[trim decimal].
    rewrite Hfetch. cbn -[trim decimal]. rewrite Hnotok. cbn -[trim decimal].
    destruct (LeadGenerationForm.json response)
      as [e | [typeError | [|[e | text]]]];
      cbn -[trim decimal]; reflexivity.
Qed.

(** A refusal whose body is no JSON, a refusal whose [message] is an empty
    array, and a missing webhook URL. *)
Lemma submit_error_message_witness :
  LeadGenerationForm.error
    (Effect.after
       (LeadGenerationForm.handleSubmit (def "https://hooks.example/x") frozen_clock
          webhook_down)
       filled_form)
  = Some "HTTP error! status: 500"%string
  /\ LeadGenerationForm.error
       (Effect.after
          (LeadGenerationForm.handleSubmit (def "https://hooks.example/x")
             frozen_clock webhook_refuses)
          filled_form)
     = Some EmptyString
  /\ LeadGenerationForm.error
       (Effect.after
          (LeadGenerationForm.handleSubmit undefined frozen_clock webhook_ok)
          filled_form)
     = Some "Lead generation webhook URL is not configured"%string.
Proof.
  destruct (submit_error_message (def "https://hooks.example/x") frozen_clock
              webhook_down filled_form ltac:(discriminate) ltac:(discriminate))
    as (_ & Hhttp).
  destruct (submit_error_message (def "https://hooks.example/x") frozen_clock
              webhook_refuses filled_form ltac:(discriminate) ltac:(discriminate))
    as (_ & Hrefused).
  destruct (submit_error_message undefined frozen_clock webhook_ok filled_form
              ltac:(discriminate) ltac:(discriminate))
    as (Hmissing & _).
  split; [|split].
  - apply (Hhttp "https://hooks.example/x"%string
             {| LeadGenerationForm.ok := false; LeadGenerationForm.status := 500;
                LeadGenerationForm.json := inl (Effect.Error "Unexpected token <") |});
      (reflexivity || discriminate).
  - apply (Hrefused "https://hooks.example/x"%string
             {| LeadGenerationForm.ok := false; LeadGenerationForm.status := 422;
                LeadGenerationForm.json :=
                  inr (LeadGenerationForm.json_value
                         (LeadGenerationForm.truthy_text (inr EmptyString))) |});
      (reflexivity || discriminate).
  - apply Hmissing. reflexivity.
Defined.

(** ** The lead detail modal *)

Lemma string_append_assoc (a b c : string) :
  ((a ++ b) ++ c = a ++ (b ++ c))%string.
Proof.
  induction a as [|x a IH]; cbn; [reflexivity | now rewrite IH].
Qed.

Lemma string_append_cancel (a x y : string) :
  (a ++ x = a ++ y)%string -> x = y.
Proof.
  induction a as [|c a IH]; cbn; intros H; [exact H|].
  injection H as H. now apply IH.
Qed.

Lemma prefix_of_common_extension (a b x y : string) :
  (a ++ x = b ++ y)%string -> prefix a b = true \/ prefix b a = true.
Proof.
  revert b; induction a as [|c a IH]; intros [|d b]; cbn; intros H; auto.
  injection H as Hc H. subst d.
  destruct (IH b H) as [P | P]; [left | right];
    (destruct (ascii_dec c c) as [_ | N]; [exact P | now contradiction N]).
Qed.

Lemma every_ascii_listed (c : ascii) :
  In c (map ascii_of_nat (seq 0 256)).
Proof.
  rewrite <- (ascii_nat_embedding c).
  apply in_map, in_seq. pose proof (nat_ascii_bounded c). lia.
Qed.

Lemma escape_prefix_free (c d : ascii) :
  prefix (LeadDetailModal.escape c) (LeadDetailModal.escape d) = true -> c = d.
Proof.
  assert (H : forallb (fun c => forallb (fun d =>
                implb (prefix (LeadDetailModal.escape c) (LeadDetailModal.escape d))
                      (Ascii.eqb c d))
              (map ascii_of_nat (seq 0 256))) (map ascii_of_nat (seq 0 256)) = true)
    by (vm_compute; reflexivity).
  rewrite forallb_forall in H. specialize (H c (every_ascii_listed c)).
  rewrite forallb_forall in H. specialize (H d (every_ascii_listed d)).
  intros P. rewrite P in H. cbn in H. now apply Ascii.eqb_eq.
Qed.

Lemma escape_not_quotation (c : ascii) (x y : string) :
  (LeadDetailModal.escape c ++ x)%string <> String LeadDetailModal.quotation y.
Proof.
  assert (H : forallb (fun c =>
                match LeadDetailModal.escape c with
                | String a _ => negb (Ascii.eqb a LeadDetailModal.quotation)
                | EmptyString => false
                end) (map ascii_of_nat (seq 0 256)) = true)
    by (vm_compute; reflexivity).
  rewrite forallb_forall in H. specialize (H c (every_ascii_listed c)).
  destruct (LeadDetailModal.escape c) as [|a e]; [discriminate|].
  cbn. intros E. injection E as E _. subst a.
  rewrite Ascii.eqb_refl in H. discriminate.
Qed.

Lemma escape_decodes (c d : ascii) (x y : string) :
  (LeadDetailModal.escape c ++ x = LeadDetailModal.escape d ++ y)%string ->
  c = d /\ x = y.
Proof.
  intros H.
  assert (E : c = d).
  { destruct (prefix_of_common_extension _ _ _ _ H) as [P | P];
      [| symmetry]; now apply escape_prefix_free. }
  subst d. split; [reflexivity | now apply string_append_cancel in H].
Qed.

Lemma escaped_decodes (a b x y : string) :
  (LeadDetailModal.escaped a ++ String LeadDetailModal.quotation x
   = LeadDetailModal.escaped b ++ String LeadDetailModal.quotation y)%string ->
  a = b /\ x = y.
Proof.
  revert b; induction a as [|c a IH]; intros [|d b]; cbn [LeadDetailModal.escaped];
    rewrite ?string_append_assoc; intros H.
  - cbn in H. injection H as H. now split.
  - cbn [append] in H. symmetry in H. now apply escape_not_quotation in H.
  - cbn [append] in H. now apply escape_not_quotation in H.
  - apply escape_decodes in H as [-> H]. apply IH in H as [-> ->]. now split.
Qed.

Lemma quote_decodes (a b x y : string) :
  (LeadDetailModal.quote a ++ x = LeadDetailModal.quote b ++ y)%string ->
  a = b /\ x = y.
Proof.
  unfold LeadDetailModal.quote. cbn [append].
  rewrite !string_append_assoc. cbn [append].
  intros H. injection H as H. now apply escaped_decodes.
Qed.

Lemma members_decodes (o1 o2 : LeadDetailModal.object) :
  LeadDetailModal.members o1 = LeadDetailModal.members o2 -> o1 = o2.
Proof.
  revert o2; induction o1 as [|[k v] r1 IH]; intros [|[k' v'] r2];
    cbn [LeadDetailModal.members]; intros H.
  - reflexivity.
  - unfold LeadDetailModal.quote in H. cbv [LeadDetailModal.quotation] in H.
    cbn in H. discriminate.
  - unfold LeadDetailModal.quote in H. cbv [LeadDetailModal.quotation] in H.
    cbn in H. discriminate.
  - apply quote_decodes in H as [-> H].
    apply (string_append_cancel ":") in H.
    apply quote_decodes in H as [-> H].
    destruct r1 as [|p1 r1], r2 as [|p2 r2]; try discriminate H.
    + reflexivity.
    + apply (string_append_cancel ",") in H. apply IH in H. now rewrite H.
Qed.

Lemma stringify_injective (o1 o2 : LeadDetailModal.object) :
  LeadDetailModal.stringify o1 = LeadDetailModal.stringify o2 -> o1 = o2.
Proof.
  unfold LeadDetailModal.stringify. intros H. injection H as H.
  now apply members_decodes.
Qed.

Lemma hasUnsavedChanges_characterised (lead : Lead) (more : Details.More)
    (s : LeadDetailModal.State) :
  LeadDetailModal.hasUnsavedChanges lead more s = true <-> Spec.edited lead more s.
Proof.
  unfold LeadDetailModal.hasUnsavedChanges, Spec.edited.
  destruct (LeadDetailModal.isEditing s); cbn [negb].
  - rewrite Bool.negb_true_iff, String.eqb_neq. split.
    + intros H. split; [reflexivity|]. intros E. apply H. now rewrite E.
    + intros [_ H] E. apply H. now apply stringify_injective.
  - split; [discriminate | intros [H _]; discriminate].
Qed.

Lemma assign_fixes (field value : string) (o : LeadDetailModal.object) :
  LeadDetailModal.assign field value o = o <-> Spec.value_in o field = Some value.
Proof.
  induction o as [|[k v] rest IH]; cbn.
  - split; discriminate.
  - destruct (k =? field)%string.
    + split; intros H; injection H as H; now rewrite H.
    + rewrite <- IH. split; intros H; [injection H as H | rewrite H]; auto.
Qed.

(** [hasUnsavedChanges] is exact: comparing the two [JSON.stringify]
    texts answers true exactly when the modal is in edit mode and the
    editable copy differs from the copy made of the lead, in some key, some
    value or the order of the keys. *)
Theorem unsaved_changes_exact (lead : Lead) (more : Details.More)
    (s : LeadDetailModal.State) :
  LeadDetailModal.hasUnsavedChanges lead more s = true
  <-> LeadDetailModal.isEditing s = true
      /\ LeadDetailModal.editableLeadData s <> LeadDetailModal.originalData lead more.
Proof.
  apply hasUnsavedChanges_characterised.
Qed.

(** In edit mode on an unedited copy, typing a value into a field
    makes unsaved changes exactly when the lead's copy does not already hold
    that value under that field; so typing the original value back clears
    them, and a field the copy lacks always counts as a change. *)
Theorem edit_detected (lead : Lead) (more : Details.More)
    (s : LeadDetailModal.State) (field value : string)
    (Hediting : LeadDetailModal.isEditing s = true)
    (Hcopy : LeadDetailModal.editableLeadData s = LeadDetailModal.originalData lead more) :
  LeadDetailModal.hasUnsavedChanges lead more
    (Effect.after (LeadDetailModal.handleInputChange field value) s) = true
  <-> Spec.value_in (LeadDetailModal.originalData lead more) field <> Some value.
Proof.
  rewrite hasUnsavedChanges_characterised. unfold Spec.edited.
  cbn [Effect.after LeadDetailModal.handleInputChange LeadDetailModal.setEditableLeadData
       Effect.modify snd LeadDetailModal.isEditing LeadDetailModal.editableLeadData].
  rewrite Hcopy, <- assign_fixes. split.
  - now intros [_ H].
  - intros H. now split.
Qed.

Lemma edit_detected_witness :
  LeadDetailModal.hasUnsavedChanges (blank "7") two_subjects
    (Effect.after (LeadDetailModal.handleInputChange "email" "7@example.org")
       (Effect.after LeadDetailModal.handleEdit
          (LeadDetailModal.opened (blank "7") two_subjects))) = true
  <-> Spec.value_in (LeadDetailModal.originalData (blank "7") two_subjects) "email"
      <> Some "7@example.org".
Proof.
  apply edit_detected; reflexivity.
Defined.

(** Closing the modal: with edited data [handleClose] only raises
    the confirmation, leaving the edits, the edit mode and [onClose]
    untouched; otherwise it calls [onClose] once and changes nothing of the
    modal's state. *)
Theorem close_asks_before_discarding (lead : Lead) (more : Details.More)
    (s : LeadDetailModal.State) :
  let s' := Effect.after (LeadDetailModal.handleClose lead more) s in
  LeadDetailModal.isEditing s' = LeadDetailModal.isEditing s
  /\ LeadDetailModal.editableLeadData s' = LeadDetailModal.editableLeadData s
  /\ LeadDetailModal.error s' = LeadDetailModal.error s
  /\ LeadDetailModal.requests s' = LeadDetailModal.requests s
  /\ (Spec.edited lead more s ->
      LeadDetailModal.showConfirmDiscardModal s' = true
      /\ LeadDetailModal.onClose_calls s' = LeadDetailModal.onClose_calls s)
  /\ (~ Spec.edited lead more s ->
      LeadDetailModal.showConfirmDiscardModal s' = LeadDetailModal.showConfirmDiscardModal s
      /\ LeadDetailModal.onClose_calls s' = S (LeadDetailModal.onClose_calls s)).
Proof.
  intros s'; subst s'.
  pose proof (hasUnsavedChanges_characterised lead more s) as Hex.
  unfold LeadDetailModal.handleClose, Effect.after, Effect.bind, Effect.read.
  destruct (LeadDetailModal.hasUnsavedChanges lead more s); cbn;
    repeat (split; [reflexivity|]); split; intros H.
  - now split.
  - exfalso. apply H, Hex. reflexivity.
  - apply Hex in H. discriminate.
  - now split.
Qed.

(** Saving sends one update carrying the editable copy and the time
    read, and always ends with [isSaving] false.  If the repository
    answers without an error the modal leaves edit mode, notifies the parent
    when [onLeadUpdated] was passed and calls [onClose] once; if it answers
    with an error the message is shown, the modal stays as it was, edits
    included, and neither callback is called. *)
Theorem handleSave_outcome (lead : Lead) (has_onLeadUpdated : bool)
    (now : nat -> string)
    (respond : string -> LeadDetailModal.object -> string -> option Toggle.Thrown)
    (s : LeadDetailModal.State) :
  let s' := Effect.after (LeadDetailModal.handleSave lead has_onLeadUpdated now respond) s in
  let t := now (LeadDetailModal.clock_reads s) in
  LeadDetailModal.isSaving s' = false
  /\ LeadDetailModal.requests s'
     = LeadDetailModal.requests s ++ [(id lead, LeadDetailModal.editableLeadData s, t)]
  /\ LeadDetailModal.editableLeadData s' = LeadDetailModal.editableLeadData s
  /\ LeadDetailModal.showConfirmDiscardModal s' = LeadDetailModal.showConfirmDiscardModal s
  /\ match respond (id lead) (LeadDetailModal.editableLeadData s) t with
     | None =>
         LeadDetailModal.error s' = None
         /\ LeadDetailModal.isEditing s' = false
         /\ LeadDetailModal.onClose_calls s' = S (LeadDetailModal.onClose_calls s)
         /\ LeadDetailModal.onLeadUpdated_calls s'
            = (if has_onLeadUpdated then S (LeadDetailModal.onLeadUpdated_calls s)
               else LeadDetailModal.onLeadUpdated_calls s)
     | Some e =>
         LeadDetailModal.error s' = Some (Effect.message_or e "Failed to update lead")
         /\ LeadDetailModal.isEditing s' = LeadDetailModal.isEditing s
         /\ LeadDetailModal.onClose_calls s' = LeadDetailModal.onClose_calls s
         /\ LeadDetailModal.onLeadUpdated_calls s' = LeadDetailModal.onLeadUpdated_calls s
     end.
Proof.
  intros s' t; subst s' t. destruct s as [ed sv er data cf oc ou cr rq].
  unfold LeadDetailModal.handleSave, Effect.after, Effect.try_catch_finally.
  cbn -[Effect.message_or].
  destruct (respond (id lead) data (now cr)) as [e|];
    [| destruct has_onLeadUpdated]; cbn -[Effect.message_or]; repeat split.
Qed.

(** The confirmation after a guarded close: confirming restores the
    copy made of the lead, leaves edit mode and calls [onClose] once, so that
    nothing is unsaved any more; cancelling keeps the edits and the edit
    mode, and [onClose] is not called. *)
Theorem discard_confirmation (lead : Lead) (more : Details.More)
    (s : LeadDetailModal.State) (Hedited : Spec.edited lead more s) :
  let asked := Effect.after (LeadDetailModal.handleClose lead more) s in
  let confirmed := Effect.after (LeadDetailModal.handleConfirmDiscard lead more) asked in
  let cancelled := Effect.after LeadDetailModal.handleCancelDiscard asked in
  (LeadDetailModal.editableLeadData confirmed = LeadDetailModal.originalData lead more
   /\ LeadDetailModal.isEditing confirmed = false
   /\ LeadDetailModal.error confirmed = None
   /\ LeadDetailModal.showConfirmDiscardModal confirmed = false
   /\ LeadDetailModal.onClose_calls confirmed = S (LeadDetailModal.onClose_calls s)
   /\ LeadDetailModal.hasUnsavedChanges lead more confirmed = false)
  /\ (LeadDetailModal.editableLeadData cancelled = LeadDetailModal.editableLeadData s
      /\ LeadDetailModal.showConfirmDiscardModal cancelled = false
      /\ LeadDetailModal.onClose_calls cancelled = LeadDetailModal.onClose_calls s
      /\ LeadDetailModal.hasUnsavedChanges lead more cancelled = true).
Proof.
  intros asked confirmed cancelled; subst asked confirmed cancelled.
  pose proof (proj2 (hasUnsavedChanges_characterised lead more s) Hedited) as Hun.
  assert (E : Effect.after (LeadDetailModal.handleClose lead more) s
              = Effect.after (LeadDetailModal.setShowConfirmDiscardModal true) s).
  { unfold LeadDetailModal.handleClose, Effect.after, Effect.bind, Effect.read.
    now rewrite Hun. }
  rewrite E. clear E. destruct s as [ed sv er data cf oc ou cr rq].
  unfold LeadDetailModal.hasUnsavedChanges in Hun |- *.
  cbn -[LeadDetailModal.originalData LeadDetailModal.stringify] in Hun |- *.
  repeat split. exact Hun.
Qed.

Lemma discard_confirmation_witness :
  LeadDetailModal.onClose_calls
    (Effect.after (LeadDetailModal.handleConfirmDiscard (blank "7") two_subjects)
       (Effect.after (LeadDetailModal.handleClose (blank "7") two_subjects) renamed)) = 1.
Proof.
  assert (Hedited : Spec.edited (blank "7") two_subjects renamed)
    by (split; [reflexivity | discriminate]).
  exact (proj1 (proj2 (proj2 (proj2 (proj2 (proj1
    (discard_confirmation (blank "7") two_subjects renamed Hedited))))))).
Defined.

Example stringify_examples :
  LeadDetailModal.stringify [("fullname", "Ada"); ("email", "a@b.c")]
  = String "{" (LeadDetailModal.quote "fullname" ++ ":" ++ LeadDetailModal.quote "Ada" ++ ","
                ++ LeadDetailModal.quote "email" ++ ":" ++ LeadDetailModal.quote "a@b.c" ++ "}")%string
  /\ LeadDetailModal.stringify [] = "{}"
  /\ LeadDetailModal.escaped (String (ascii_of_nat 10) (String (ascii_of_nat 31) "x"))
     = String (ascii_of_nat 92) ("n" ++ String (ascii_of_nat 92) "u001fx")%string.
Proof.
  repeat split.
Qed.
